(** * World Calc Hub: the calculators of
    [world_all_in_one_calculators_react_tailwind_single_file.jsx]

    The file embeds the computational part of the single-file React
    application: the numeric utilities [toNum] and [fmt], the derived values
    that the calculators compute inside [useMemo], the registry and the
    search/selection shell.  Rendering (JSX) is left out; a React state cell
    is the argument of the function that reads it.

    JavaScript numbers are IEEE 754 binary64 values.  They are modelled by
    [spec_float] with the operations of [SpecFloat] at precision 53 and
    maximal exponent 1024, which compute inside Rocq and need no axiom.
    Strings are held as the bytes of their UTF-8 form; white space is that
    of ECMAScript and case mapping that of Unicode 14.0.  What ECMAScript
    leaves to the engine or to the host is a parameter. *)

From Stdlib Require Import ZArith QArith Qabs Lia List String Ascii Bool.
From Stdlib Require Import Floats.SpecFloat.
Import ListNotations.

Local Open Scope string_scope.
Local Open Scope Z_scope.

(** ** The ECMAScript runtime used by the application *)

Module JS.

(** *** Numbers *)

Definition prec : Z := 53.
Definition emax : Z := 1024.

Definition number : Type := spec_float.

Definition NaN : number := S754_nan.
Definition Infinity : number := S754_infinity false.

Definition add : number -> number -> number := SFadd prec emax.
Definition sub : number -> number -> number := SFsub prec emax.
Definition mul : number -> number -> number := SFmul prec emax.
Definition div : number -> number -> number := SFdiv prec emax.

(** [x === y] on numbers: [NaN] differs from itself, the two zeros agree. *)
Definition strict_eq : number -> number -> bool := SFeqb.
Definition lt : number -> number -> bool := SFltb.

(** [Number.isNaN] and [Number.isFinite] on a value that is a number. *)
Definition isNaN (x : number) : bool :=
  match x with S754_nan => true | _ => false end.

Definition isFinite (x : number) : bool :=
  match x with
  | S754_zero _ | S754_finite _ _ _ => true
  | S754_infinity _ | S754_nan => false
  end.

(** The Number value of a mathematical integer: round to nearest, ties to
    even; beyond the largest finite value the result is an infinity. *)
Definition of_Z (z : Z) : number := binary_normalize prec emax z 0 false.

(** A finite number with mantissa [m] and binary exponent 0, not yet rounded;
    only used as an operand of the correctly rounded division below. *)
Definition raw_Z (neg : bool) (m : Z) : number :=
  match m with
  | Z0 => S754_zero neg
  | Zpos p | Zneg p => S754_finite neg p 0
  end.

(** The Number value of the decimal [(-1)^neg * m * 10^e] for [0 <= m]:
    what a numeric literal of the source text and the decimal parsers denote.
    Decimals too large or too small for any finite value are cut off before
    the power of ten is built. *)
Definition decimal (neg : bool) (m e : Z) : number :=
  if m <=? 0 then S754_zero neg
  else if 400 <? e then S754_infinity neg
  else if e + Z.log2 m / 3 + 1 <? -400 then S754_zero neg
  else if 0 <=? e then binary_normalize prec emax (if neg then - (m * 10 ^ e) else m * 10 ^ e) 0 false
  else div (raw_Z neg m) (raw_Z false (10 ^ (- e))).

(** The integer below a finite number ([Math.floor] as an integer), and
    whether the number is an integer. *)
Definition floor_Z (x : number) : Z :=
  match x with
  | S754_finite s m e =>
      let v := if s then Z.neg m else Z.pos m in
      if 0 <=? e then v * 2 ^ e else v / 2 ^ (- e)
  | _ => 0
  end.

Definition is_integer (x : number) : bool :=
  match x with
  | S754_zero _ => true
  | S754_finite _ m e => (0 <=? e) || (Z.pos m mod 2 ^ (- e) =? 0)
  | _ => false
  end.

(** [Math.round]: the integer nearest to [x], halves going up; the sign of
    [x] is kept when the result is zero. *)
Definition Math_round (x : number) : number :=
  match x with
  | S754_finite s m e =>
      if 0 <=? e then x
      else
        let d := 2 ^ (- e) in
        let v := if s then Z.neg m else Z.pos m in
        let r := (2 * v + d) / (2 * d) in
        if r =? 0 then S754_zero s else of_Z r
  | _ => x
  end.

(** [Math.floor]: the integer below [x]. *)
Definition Math_floor (x : number) : number :=
  match x with
  | S754_finite s m e =>
      if 0 <=? e then x
      else
        let v := if s then Z.neg m else Z.pos m in
        let r := v / 2 ^ (- e) in
        if r =? 0 then S754_zero s else of_Z r
  | _ => x
  end.

(** [Math.abs]. *)
Definition Math_abs : number -> number := SFabs.

(** [Math.max] and [Math.min] of two numbers: [NaN] when either is, and
    [+0] counts as larger than [-0]. *)
Definition Math_max (x y : number) : number :=
  match SFcompare x y with
  | None => NaN
  | Some Lt => y
  | Some Gt => x
  | Some Eq => match x with S754_zero true => y | _ => x end
  end.

Definition Math_min (x y : number) : number :=
  match SFcompare x y with
  | None => NaN
  | Some Lt => x
  | Some Gt => y
  | Some Eq => match x with S754_zero false => y | _ => x end
  end.

(** [x <= y] on numbers. *)
Definition le : number -> number -> bool := SFleb.

(** *** Strings

    A string is held as the bytes of its UTF-8 form.  The built-ins that
    work on code points ([trim], [toLowerCase], [toUpperCase]) decode them
    from the bytes; a byte that is not part of a well-formed sequence
    stands for itself. *)

Definition code (c : ascii) : Z := Z.of_nat (nat_of_ascii c).
Definition byte (n : Z) : ascii := ascii_of_nat (Z.to_nat n).

Definition continuation (b : ascii) : bool :=
  (128 <=? code b) && (code b <=? 191).

(** A stray byte [b] is carried as the number [STRAY + b], beyond the code
    points. *)
Definition STRAY : Z := 1114112.

(** The code point at the front of [String b1 r] and the number of bytes
    it takes. *)
Definition head (b1 : ascii) (r : string) : Z * nat :=
  let c1 := code b1 in
  let stray := (STRAY + c1, 1%nat) in
  if c1 <? 128 then (c1, 1%nat)
  else
    match r with
    | String b2 r2 =>
        if negb (continuation b2) then stray
        else if (194 <=? c1) && (c1 <=? 223) then
          ((c1 - 192) * 64 + (code b2 - 128), 2%nat)
        else
          match r2 with
          | String b3 r3 =>
              if negb (continuation b3) then stray
              else if (224 <=? c1) && (c1 <=? 239) then
                let cp := (c1 - 224) * 4096 + (code b2 - 128) * 64
                          + (code b3 - 128) in
                if (2048 <=? cp) && negb ((55296 <=? cp) && (cp <=? 57343))
                then (cp, 3%nat) else stray
              else
                match r3 with
                | String b4 _ =>
                    let cp := (c1 - 240) * 262144 + (code b2 - 128) * 4096
                              + (code b3 - 128) * 64 + (code b4 - 128) in
                    if continuation b4 && (240 <=? c1) && (c1 <=? 244)
                       && (65536 <=? cp) && (cp <=? 1114111)
                    then (cp, 4%nat) else stray
                | EmptyString => stray
                end
          | EmptyString => stray
          end
    | EmptyString => stray
    end.

(** What follows a code point of [k] bytes whose first byte was taken
    off. *)
Definition advance (k : nat) (r : string) : string :=
  match k, r with
  | 2%nat, String _ r2 => r2
  | 3%nat, String _ (String _ r3) => r3
  | 4%nat, String _ (String _ (String _ r4)) => r4
  | _, _ => r
  end.

Fixpoint decode (s : string) : list Z :=
  match s with
  | EmptyString => []
  | String b1 r1 =>
      let '(cp, k) := head b1 r1 in
      cp :: match k, r1 with
            | 2%nat, String _ r2 => decode r2
            | 3%nat, String _ (String _ r3) => decode r3
            | 4%nat, String _ (String _ (String _ r4)) => decode r4
            | _, _ => decode r1
            end
  end.

Definition encode (cp : Z) : string :=
  if cp <? 128 then String (byte cp) EmptyString
  else if cp <? 2048 then
    String (byte (192 + cp / 64)) (String (byte (128 + cp mod 64)) EmptyString)
  else if cp <? 65536 then
    String (byte (224 + cp / 4096))
      (String (byte (128 + cp / 64 mod 64))
         (String (byte (128 + cp mod 64)) EmptyString))
  else if cp <? STRAY then
    String (byte (240 + cp / 262144))
      (String (byte (128 + cp / 4096 mod 64))
         (String (byte (128 + cp / 64 mod 64))
            (String (byte (128 + cp mod 64)) EmptyString)))
  else String (byte (cp - STRAY)) EmptyString.

Fixpoint encode_all (l : list Z) : string :=
  match l with
  | [] => EmptyString
  | cp :: r => (encode cp ++ encode_all r)%string
  end.

(** The bytes [l] as a string. *)
Definition utf8 (l : list Z) : string := string_of_list_ascii (List.map byte l).

(** White space and line terminators of ECMAScript: TAB, LF, VT, FF, CR,
    SP, NBSP, the other space separators, LS, PS and ZWNBSP. *)
Definition white_points : list Z :=
  [9; 10; 11; 12; 13; 32; 160; 5760; 8192; 8193; 8194; 8195; 8196; 8197;
   8198; 8199; 8200; 8201; 8202; 8232; 8233; 8239; 8287; 12288; 65279].

Definition white_space (cp : Z) : bool := existsb (Z.eqb cp) white_points.

Fixpoint trimStart (s : string) : string :=
  match s with
  | EmptyString => EmptyString
  | String b1 r1 =>
      let '(cp, k) := head b1 r1 in
      if white_space cp then
        match k, r1 with
        | 2%nat, String _ r2 => trimStart r2
        | 3%nat, String _ (String _ r3) => trimStart r3
        | 4%nat, String _ (String _ (String _ r4)) => trimStart r4
        | _, _ => trimStart r1
        end
      else s
  end.

(** The longest tail made of white space is dropped: a tail is dropped as
    soon as nothing of it is left once its white space is skipped. *)
Fixpoint trimEnd (s : string) : string :=
  match s with
  | EmptyString => EmptyString
  | String c r =>
      match trimStart s with
      | EmptyString => EmptyString
      | _ => String c (trimEnd r)
      end
  end.

Definition trim (s : string) : string := trimEnd (trimStart s).

(** Case mapping follows the Unicode Character Database, version 14.0:
    the mappings of UnicodeData and SpecialCasing that depend on no
    language, and the properties Cased and Case_Ignorable behind the one
    rule that looks at the context, Final_Sigma. *)

(** Lowercase_Mapping of one code point to one: from, to, step, offset. *)
Definition lower_table : list (Z * Z * Z * Z) := [
  (65, 90, 1, 32); (192, 214, 1, 32); (216, 222, 1, 32); (256, 302, 2, 1);
  (306, 310, 2, 1); (313, 327, 2, 1); (330, 374, 2, 1); (376, 376, 1, -121);
  (377, 381, 2, 1); (385, 385, 1, 210); (386, 388, 2, 1); (390, 390, 1, 206);
  (391, 391, 1, 1); (393, 394, 1, 205); (395, 395, 1, 1); (398, 398, 1, 79);
  (399, 399, 1, 202); (400, 400, 1, 203); (401, 401, 1, 1);
  (403, 403, 1, 205); (404, 404, 1, 207); (406, 406, 1, 211);
  (407, 407, 1, 209); (408, 408, 1, 1); (412, 412, 1, 211);
  (413, 413, 1, 213); (415, 415, 1, 214); (416, 420, 2, 1);
  (422, 422, 1, 218); (423, 423, 1, 1); (425, 425, 1, 218); (428, 428, 1, 1);
  (430, 430, 1, 218); (431, 431, 1, 1); (433, 434, 1, 217); (435, 437, 2, 1);
  (439, 439, 1, 219); (440, 440, 1, 1); (444, 444, 1, 1); (452, 452, 1, 2);
  (453, 453, 1, 1); (455, 455, 1, 2); (456, 456, 1, 1); (458, 458, 1, 2);
  (459, 475, 2, 1); (478, 494, 2, 1); (497, 497, 1, 2); (498, 500, 2, 1);
  (502, 502, 1, -97); (503, 503, 1, -56); (504, 542, 2, 1);
  (544, 544, 1, -130); (546, 562, 2, 1); (570, 570, 1, 10795);
  (571, 571, 1, 1); (573, 573, 1, -163); (574, 574, 1, 10792);
  (577, 577, 1, 1); (579, 579, 1, -195); (580, 580, 1, 69); (581, 581, 1, 71);
  (582, 590, 2, 1); (880, 882, 2, 1); (886, 886, 1, 1); (895, 895, 1, 116);
  (902, 902, 1, 38); (904, 906, 1, 37); (908, 908, 1, 64); (910, 911, 1, 63);
  (913, 929, 1, 32); (931, 939, 1, 32); (975, 975, 1, 8); (984, 1006, 2, 1);
  (1012, 1012, 1, -60); (1015, 1015, 1, 1); (1017, 1017, 1, -7);
  (1018, 1018, 1, 1); (1021, 1023, 1, -130); (1024, 1039, 1, 80);
  (1040, 1071, 1, 32); (1120, 1152, 2, 1); (1162, 1214, 2, 1);
  (1216, 1216, 1, 15); (1217, 1229, 2, 1); (1232, 1326, 2, 1);
  (1329, 1366, 1, 48); (4256, 4293, 1, 7264); (4295, 4295, 1, 7264);
  (4301, 4301, 1, 7264); (5024, 5103, 1, 38864); (5104, 5109, 1, 8);
  (7312, 7354, 1, -3008); (7357, 7359, 1, -3008); (7680, 7828, 2, 1);
  (7838, 7838, 1, -7615); (7840, 7934, 2, 1); (7944, 7951, 1, -8);
  (7960, 7965, 1, -8); (7976, 7983, 1, -8); (7992, 7999, 1, -8);
  (8008, 8013, 1, -8); (8025, 8031, 2, -8); (8040, 8047, 1, -8);
  (8072, 8079, 1, -8); (8088, 8095, 1, -8); (8104, 8111, 1, -8);
  (8120, 8121, 1, -8); (8122, 8123, 1, -74); (8124, 8124, 1, -9);
  (8136, 8139, 1, -86); (8140, 8140, 1, -9); (8152, 8153, 1, -8);
  (8154, 8155, 1, -100); (8168, 8169, 1, -8); (8170, 8171, 1, -112);
  (8172, 8172, 1, -7); (8184, 8185, 1, -128); (8186, 8187, 1, -126);
  (8188, 8188, 1, -9); (8486, 8486, 1, -7517); (8490, 8490, 1, -8383);
  (8491, 8491, 1, -8262); (8498, 8498, 1, 28); (8544, 8559, 1, 16);
  (8579, 8579, 1, 1); (9398, 9423, 1, 26); (11264, 11311, 1, 48);
  (11360, 11360, 1, 1); (11362, 11362, 1, -10743); (11363, 11363, 1, -3814);
  (11364, 11364, 1, -10727); (11367, 11371, 2, 1); (11373, 11373, 1, -10780);
  (11374, 11374, 1, -10749); (11375, 11375, 1, -10783);
  (11376, 11376, 1, -10782); (11378, 11378, 1, 1); (11381, 11381, 1, 1);
  (11390, 11391, 1, -10815); (11392, 11490, 2, 1); (11499, 11501, 2, 1);
  (11506, 11506, 1, 1); (42560, 42604, 2, 1); (42624, 42650, 2, 1);
  (42786, 42798, 2, 1); (42802, 42862, 2, 1); (42873, 42875, 2, 1);
  (42877, 42877, 1, -35332); (42878, 42886, 2, 1); (42891, 42891, 1, 1);
  (42893, 42893, 1, -42280); (42896, 42898, 2, 1); (42902, 42920, 2, 1);
  (42922, 42922, 1, -42308); (42923, 42923, 1, -42319);
  (42924, 42924, 1, -42315); (42925, 42925, 1, -42305);
  (42926, 42926, 1, -42308); (42928, 42928, 1, -42258);
  (42929, 42929, 1, -42282); (42930, 42930, 1, -42261);
  (42931, 42931, 1, 928); (42932, 42946, 2, 1); (42948, 42948, 1, -48);
  (42949, 42949, 1, -42307); (42950, 42950, 1, -35384); (42951, 42953, 2, 1);
  (42960, 42960, 1, 1); (42966, 42968, 2, 1); (42997, 42997, 1, 1);
  (65313, 65338, 1, 32); (66560, 66599, 1, 40); (66736, 66771, 1, 40);
  (66928, 66938, 1, 39); (66940, 66954, 1, 39); (66956, 66962, 1, 39);
  (66964, 66965, 1, 39); (68736, 68786, 1, 64); (71840, 71871, 1, 32);
  (93760, 93791, 1, 32); (125184, 125217, 1, 34)
].

(** Uppercase_Mapping of one code point to one: from, to, step, offset. *)
Definition upper_table : list (Z * Z * Z * Z) := [
  (97, 122, 1, -32); (181, 181, 1, 743); (224, 246, 1, -32);
  (248, 254, 1, -32); (255, 255, 1, 121); (257, 303, 2, -1);
  (305, 305, 1, -232); (307, 311, 2, -1); (314, 328, 2, -1);
  (331, 375, 2, -1); (378, 382, 2, -1); (383, 383, 1, -300);
  (384, 384, 1, 195); (387, 389, 2, -1); (392, 392, 1, -1); (396, 396, 1, -1);
  (402, 402, 1, -1); (405, 405, 1, 97); (409, 409, 1, -1); (410, 410, 1, 163);
  (414, 414, 1, 130); (417, 421, 2, -1); (424, 424, 1, -1); (429, 429, 1, -1);
  (432, 432, 1, -1); (436, 438, 2, -1); (441, 441, 1, -1); (445, 445, 1, -1);
  (447, 447, 1, 56); (453, 453, 1, -1); (454, 454, 1, -2); (456, 456, 1, -1);
  (457, 457, 1, -2); (459, 459, 1, -1); (460, 460, 1, -2); (462, 476, 2, -1);
  (477, 477, 1, -79); (479, 495, 2, -1); (498, 498, 1, -1); (499, 499, 1, -2);
  (501, 501, 1, -1); (505, 543, 2, -1); (547, 563, 2, -1); (572, 572, 1, -1);
  (575, 576, 1, 10815); (578, 578, 1, -1); (583, 591, 2, -1);
  (592, 592, 1, 10783); (593, 593, 1, 10780); (594, 594, 1, 10782);
  (595, 595, 1, -210); (596, 596, 1, -206); (598, 599, 1, -205);
  (601, 601, 1, -202); (603, 603, 1, -203); (604, 604, 1, 42319);
  (608, 608, 1, -205); (609, 609, 1, 42315); (611, 611, 1, -207);
  (613, 613, 1, 42280); (614, 614, 1, 42308); (616, 616, 1, -209);
  (617, 617, 1, -211); (618, 618, 1, 42308); (619, 619, 1, 10743);
  (620, 620, 1, 42305); (623, 623, 1, -211); (625, 625, 1, 10749);
  (626, 626, 1, -213); (629, 629, 1, -214); (637, 637, 1, 10727);
  (640, 640, 1, -218); (642, 642, 1, 42307); (643, 643, 1, -218);
  (647, 647, 1, 42282); (648, 648, 1, -218); (649, 649, 1, -69);
  (650, 651, 1, -217); (652, 652, 1, -71); (658, 658, 1, -219);
  (669, 669, 1, 42261); (670, 670, 1, 42258); (837, 837, 1, 84);
  (881, 883, 2, -1); (887, 887, 1, -1); (891, 893, 1, 130);
  (940, 940, 1, -38); (941, 943, 1, -37); (945, 961, 1, -32);
  (962, 962, 1, -31); (963, 971, 1, -32); (972, 972, 1, -64);
  (973, 974, 1, -63); (976, 976, 1, -62); (977, 977, 1, -57);
  (981, 981, 1, -47); (982, 982, 1, -54); (983, 983, 1, -8);
  (985, 1007, 2, -1); (1008, 1008, 1, -86); (1009, 1009, 1, -80);
  (1010, 1010, 1, 7); (1011, 1011, 1, -116); (1013, 1013, 1, -96);
  (1016, 1016, 1, -1); (1019, 1019, 1, -1); (1072, 1103, 1, -32);
  (1104, 1119, 1, -80); (1121, 1153, 2, -1); (1163, 1215, 2, -1);
  (1218, 1230, 2, -1); (1231, 1231, 1, -15); (1233, 1327, 2, -1);
  (1377, 1414, 1, -48); (4304, 4346, 1, 3008); (4349, 4351, 1, 3008);
  (5112, 5117, 1, -8); (7296, 7296, 1, -6254); (7297, 7297, 1, -6253);
  (7298, 7298, 1, -6244); (7299, 7300, 1, -6242); (7301, 7301, 1, -6243);
  (7302, 7302, 1, -6236); (7303, 7303, 1, -6181); (7304, 7304, 1, 35266);
  (7545, 7545, 1, 35332); (7549, 7549, 1, 3814); (7566, 7566, 1, 35384);
  (7681, 7829, 2, -1); (7835, 7835, 1, -59); (7841, 7935, 2, -1);
  (7936, 7943, 1, 8); (7952, 7957, 1, 8); (7968, 7975, 1, 8);
  (7984, 7991, 1, 8); (8000, 8005, 1, 8); (8017, 8023, 2, 8);
  (8032, 8039, 1, 8); (8048, 8049, 1, 74); (8050, 8053, 1, 86);
  (8054, 8055, 1, 100); (8056, 8057, 1, 128); (8058, 8059, 1, 112);
  (8060, 8061, 1, 126); (8112, 8113, 1, 8); (8126, 8126, 1, -7205);
  (8144, 8145, 1, 8); (8160, 8161, 1, 8); (8165, 8165, 1, 7);
  (8526, 8526, 1, -28); (8560, 8575, 1, -16); (8580, 8580, 1, -1);
  (9424, 9449, 1, -26); (11312, 11359, 1, -48); (11361, 11361, 1, -1);
  (11365, 11365, 1, -10795); (11366, 11366, 1, -10792); (11368, 11372, 2, -1);
  (11379, 11379, 1, -1); (11382, 11382, 1, -1); (11393, 11491, 2, -1);
  (11500, 11502, 2, -1); (11507, 11507, 1, -1); (11520, 11557, 1, -7264);
  (11559, 11559, 1, -7264); (11565, 11565, 1, -7264); (42561, 42605, 2, -1);
  (42625, 42651, 2, -1); (42787, 42799, 2, -1); (42803, 42863, 2, -1);
  (42874, 42876, 2, -1); (42879, 42887, 2, -1); (42892, 42892, 1, -1);
  (42897, 42899, 2, -1); (42900, 42900, 1, 48); (42903, 42921, 2, -1);
  (42933, 42947, 2, -1); (42952, 42954, 2, -1); (42961, 42961, 1, -1);
  (42967, 42969, 2, -1); (42998, 42998, 1, -1); (43859, 43859, 1, -928);
  (43888, 43967, 1, -38864); (65345, 65370, 1, -32); (66600, 66639, 1, -40);
  (66776, 66811, 1, -40); (66967, 66977, 1, -39); (66979, 66993, 1, -39);
  (66995, 67001, 1, -39); (67003, 67004, 1, -39); (68800, 68850, 1, -64);
  (71872, 71903, 1, -32); (93792, 93823, 1, -32); (125218, 125251, 1, -34)
].

(** Uppercase_Mapping of one code point to several (SpecialCasing). *)
Definition upper_special : list (Z * list Z) := [
  (223, [83; 83]); (329, [700; 78]); (496, [74; 780]); (912, [921; 776; 769]);
  (944, [933; 776; 769]); (1415, [1333; 1362]); (7830, [72; 817]);
  (7831, [84; 776]); (7832, [87; 778]); (7833, [89; 778]); (7834, [65; 702]);
  (8016, [933; 787]); (8018, [933; 787; 768]); (8020, [933; 787; 769]);
  (8022, [933; 787; 834]); (8064, [7944; 921]); (8065, [7945; 921]);
  (8066, [7946; 921]); (8067, [7947; 921]); (8068, [7948; 921]);
  (8069, [7949; 921]); (8070, [7950; 921]); (8071, [7951; 921]);
  (8072, [7944; 921]); (8073, [7945; 921]); (8074, [7946; 921]);
  (8075, [7947; 921]); (8076, [7948; 921]); (8077, [7949; 921]);
  (8078, [7950; 921]); (8079, [7951; 921]); (8080, [7976; 921]);
  (8081, [7977; 921]); (8082, [7978; 921]); (8083, [7979; 921]);
  (8084, [7980; 921]); (8085, [7981; 921]); (8086, [7982; 921]);
  (8087, [7983; 921]); (8088, [7976; 921]); (8089, [7977; 921]);
  (8090, [7978; 921]); (8091, [7979; 921]); (8092, [7980; 921]);
  (8093, [7981; 921]); (8094, [7982; 921]); (8095, [7983; 921]);
  (8096, [8040; 921]); (8097, [8041; 921]); (8098, [8042; 921]);
  (8099, [8043; 921]); (8100, [8044; 921]); (8101, [8045; 921]);
  (8102, [8046; 921]); (8103, [8047; 921]); (8104, [8040; 921]);
  (8105, [8041; 921]); (8106, [8042; 921]); (8107, [8043; 921]);
  (8108, [8044; 921]); (8109, [8045; 921]); (8110, [8046; 921]);
  (8111, [8047; 921]); (8114, [8122; 921]); (8115, [913; 921]);
  (8116, [902; 921]); (8118, [913; 834]); (8119, [913; 834; 921]);
  (8124, [913; 921]); (8130, [8138; 921]); (8131, [919; 921]);
  (8132, [905; 921]); (8134, [919; 834]); (8135, [919; 834; 921]);
  (8140, [919; 921]); (8146, [921; 776; 768]); (8147, [921; 776; 769]);
  (8150, [921; 834]); (8151, [921; 776; 834]); (8162, [933; 776; 768]);
  (8163, [933; 776; 769]); (8164, [929; 787]); (8166, [933; 834]);
  (8167, [933; 776; 834]); (8178, [8186; 921]); (8179, [937; 921]);
  (8180, [911; 921]); (8182, [937; 834]); (8183, [937; 834; 921]);
  (8188, [937; 921]); (64256, [70; 70]); (64257, [70; 73]); (64258, [70; 76]);
  (64259, [70; 70; 73]); (64260, [70; 70; 76]); (64261, [83; 84]);
  (64262, [83; 84]); (64275, [1348; 1350]); (64276, [1348; 1333]);
  (64277, [1348; 1339]); (64278, [1358; 1350]); (64279, [1348; 1341])
].

(** Case_Ignorable code points, as ranges. *)
Definition case_ignorable_table : list (Z * Z) := [
  (39, 39); (46, 46); (58, 58); (94, 94); (96, 96); (168, 168); (173, 173);
  (175, 175); (180, 180); (183, 184); (688, 879); (884, 885); (890, 890);
  (900, 901); (903, 903); (1155, 1161); (1369, 1369); (1375, 1375);
  (1425, 1469); (1471, 1471); (1473, 1474); (1476, 1477); (1479, 1479);
  (1524, 1524); (1536, 1541); (1552, 1562); (1564, 1564); (1600, 1600);
  (1611, 1631); (1648, 1648); (1750, 1757); (1759, 1768); (1770, 1773);
  (1807, 1807); (1809, 1809); (1840, 1866); (1958, 1968); (2027, 2037);
  (2042, 2042); (2045, 2045); (2070, 2093); (2137, 2139); (2184, 2184);
  (2192, 2193); (2200, 2207); (2249, 2306); (2362, 2362); (2364, 2364);
  (2369, 2376); (2381, 2381); (2385, 2391); (2402, 2403); (2417, 2417);
  (2433, 2433); (2492, 2492); (2497, 2500); (2509, 2509); (2530, 2531);
  (2558, 2558); (2561, 2562); (2620, 2620); (2625, 2626); (2631, 2632);
  (2635, 2637); (2641, 2641); (2672, 2673); (2677, 2677); (2689, 2690);
  (2748, 2748); (2753, 2757); (2759, 2760); (2765, 2765); (2786, 2787);
  (2810, 2815); (2817, 2817); (2876, 2876); (2879, 2879); (2881, 2884);
  (2893, 2893); (2901, 2902); (2914, 2915); (2946, 2946); (3008, 3008);
  (3021, 3021); (3072, 3072); (3076, 3076); (3132, 3132); (3134, 3136);
  (3142, 3144); (3146, 3149); (3157, 3158); (3170, 3171); (3201, 3201);
  (3260, 3260); (3263, 3263); (3270, 3270); (3276, 3277); (3298, 3299);
  (3328, 3329); (3387, 3388); (3393, 3396); (3405, 3405); (3426, 3427);
  (3457, 3457); (3530, 3530); (3538, 3540); (3542, 3542); (3633, 3633);
  (3636, 3642); (3654, 3662); (3761, 3761); (3764, 3772); (3782, 3782);
  (3784, 3789); (3864, 3865); (3893, 3893); (3895, 3895); (3897, 3897);
  (3953, 3966); (3968, 3972); (3974, 3975); (3981, 3991); (3993, 4028);
  (4038, 4038); (4141, 4144); (4146, 4151); (4153, 4154); (4157, 4158);
  (4184, 4185); (4190, 4192); (4209, 4212); (4226, 4226); (4229, 4230);
  (4237, 4237); (4253, 4253); (4348, 4348); (4957, 4959); (5906, 5908);
  (5938, 5939); (5970, 5971); (6002, 6003); (6068, 6069); (6071, 6077);
  (6086, 6086); (6089, 6099); (6103, 6103); (6109, 6109); (6155, 6159);
  (6211, 6211); (6277, 6278); (6313, 6313); (6432, 6434); (6439, 6440);
  (6450, 6450); (6457, 6459); (6679, 6680); (6683, 6683); (6742, 6742);
  (6744, 6750); (6752, 6752); (6754, 6754); (6757, 6764); (6771, 6780);
  (6783, 6783); (6823, 6823); (6832, 6862); (6912, 6915); (6964, 6964);
  (6966, 6970); (6972, 6972); (6978, 6978); (7019, 7027); (7040, 7041);
  (7074, 7077); (7080, 7081); (7083, 7085); (7142, 7142); (7144, 7145);
  (7149, 7149); (7151, 7153); (7212, 7219); (7222, 7223); (7288, 7293);
  (7376, 7378); (7380, 7392); (7394, 7400); (7405, 7405); (7412, 7412);
  (7416, 7417); (7468, 7530); (7544, 7544); (7579, 7679); (8125, 8125);
  (8127, 8129); (8141, 8143); (8157, 8159); (8173, 8175); (8189, 8190);
  (8203, 8207); (8216, 8217); (8228, 8228); (8231, 8231); (8234, 8238);
  (8288, 8292); (8294, 8303); (8305, 8305); (8319, 8319); (8336, 8348);
  (8400, 8432); (11388, 11389); (11503, 11505); (11631, 11631);
  (11647, 11647); (11744, 11775); (11823, 11823); (12293, 12293);
  (12330, 12333); (12337, 12341); (12347, 12347); (12441, 12446);
  (12540, 12542); (40981, 40981); (42232, 42237); (42508, 42508);
  (42607, 42610); (42612, 42621); (42623, 42623); (42652, 42655);
  (42736, 42737); (42752, 42785); (42864, 42864); (42888, 42890);
  (42994, 42996); (43000, 43001); (43010, 43010); (43014, 43014);
  (43019, 43019); (43045, 43046); (43052, 43052); (43204, 43205);
  (43232, 43249); (43263, 43263); (43302, 43309); (43335, 43345);
  (43392, 43394); (43443, 43443); (43446, 43449); (43452, 43453);
  (43471, 43471); (43493, 43494); (43561, 43566); (43569, 43570);
  (43573, 43574); (43587, 43587); (43596, 43596); (43632, 43632);
  (43644, 43644); (43696, 43696); (43698, 43700); (43703, 43704);
  (43710, 43711); (43713, 43713); (43741, 43741); (43756, 43757);
  (43763, 43764); (43766, 43766); (43867, 43871); (43881, 43883);
  (44005, 44005); (44008, 44008); (44013, 44013); (64286, 64286);
  (64434, 64450); (65024, 65039); (65043, 65043); (65056, 65071);
  (65106, 65106); (65109, 65109); (65279, 65279); (65287, 65287);
  (65294, 65294); (65306, 65306); (65342, 65342); (65344, 65344);
  (65392, 65392); (65438, 65439); (65507, 65507); (65529, 65531);
  (66045, 66045); (66272, 66272); (66422, 66426); (67456, 67461);
  (67463, 67504); (67506, 67514); (68097, 68099); (68101, 68102);
  (68108, 68111); (68152, 68154); (68159, 68159); (68325, 68326);
  (68900, 68903); (69291, 69292); (69446, 69456); (69506, 69509);
  (69633, 69633); (69688, 69702); (69744, 69744); (69747, 69748);
  (69759, 69761); (69811, 69814); (69817, 69818); (69821, 69821);
  (69826, 69826); (69837, 69837); (69888, 69890); (69927, 69931);
  (69933, 69940); (70003, 70003); (70016, 70017); (70070, 70078);
  (70089, 70092); (70095, 70095); (70191, 70193); (70196, 70196);
  (70198, 70199); (70206, 70206); (70367, 70367); (70371, 70378);
  (70400, 70401); (70459, 70460); (70464, 70464); (70502, 70508);
  (70512, 70516); (70712, 70719); (70722, 70724); (70726, 70726);
  (70750, 70750); (70835, 70840); (70842, 70842); (70847, 70848);
  (70850, 70851); (71090, 71093); (71100, 71101); (71103, 71104);
  (71132, 71133); (71219, 71226); (71229, 71229); (71231, 71232);
  (71339, 71339); (71341, 71341); (71344, 71349); (71351, 71351);
  (71453, 71455); (71458, 71461); (71463, 71467); (71727, 71735);
  (71737, 71738); (71995, 71996); (71998, 71998); (72003, 72003);
  (72148, 72151); (72154, 72155); (72160, 72160); (72193, 72202);
  (72243, 72248); (72251, 72254); (72263, 72263); (72273, 72278);
  (72281, 72283); (72330, 72342); (72344, 72345); (72752, 72758);
  (72760, 72765); (72767, 72767); (72850, 72871); (72874, 72880);
  (72882, 72883); (72885, 72886); (73009, 73014); (73018, 73018);
  (73020, 73021); (73023, 73029); (73031, 73031); (73104, 73105);
  (73109, 73109); (73111, 73111); (73459, 73460); (78896, 78904);
  (92912, 92916); (92976, 92982); (92992, 92995); (94031, 94031);
  (94095, 94111); (94176, 94177); (94179, 94180); (110576, 110579);
  (110581, 110587); (110589, 110590); (113821, 113822); (113824, 113827);
  (118528, 118573); (118576, 118598); (119143, 119145); (119155, 119170);
  (119173, 119179); (119210, 119213); (119362, 119364); (121344, 121398);
  (121403, 121452); (121461, 121461); (121476, 121476); (121499, 121503);
  (121505, 121519); (122880, 122886); (122888, 122904); (122907, 122913);
  (122915, 122916); (122918, 122922); (123184, 123197); (123566, 123566);
  (123628, 123631); (125136, 125142); (125252, 125259); (127995, 127999);
  (917505, 917505); (917536, 917631); (917760, 917999)
].

(** Cased code points that are not Case_Ignorable, as ranges. *)
Definition cased_table : list (Z * Z) := [
  (65, 90); (97, 122); (170, 170); (181, 181); (186, 186); (192, 214);
  (216, 246); (248, 442); (444, 447); (452, 659); (661, 687); (880, 883);
  (886, 887); (891, 893); (895, 895); (902, 902); (904, 906); (908, 908);
  (910, 929); (931, 1013); (1015, 1153); (1162, 1327); (1329, 1366);
  (1376, 1416); (4256, 4293); (4295, 4295); (4301, 4301); (4304, 4346);
  (4349, 4351); (5024, 5109); (5112, 5117); (7296, 7304); (7312, 7354);
  (7357, 7359); (7424, 7467); (7531, 7543); (7545, 7578); (7680, 7957);
  (7960, 7965); (7968, 8005); (8008, 8013); (8016, 8023); (8025, 8025);
  (8027, 8027); (8029, 8029); (8031, 8061); (8064, 8116); (8118, 8124);
  (8126, 8126); (8130, 8132); (8134, 8140); (8144, 8147); (8150, 8155);
  (8160, 8172); (8178, 8180); (8182, 8188); (8450, 8450); (8455, 8455);
  (8458, 8467); (8469, 8469); (8473, 8477); (8484, 8484); (8486, 8486);
  (8488, 8488); (8490, 8493); (8495, 8500); (8505, 8505); (8508, 8511);
  (8517, 8521); (8526, 8526); (8544, 8575); (8579, 8580); (9398, 9449);
  (11264, 11387); (11390, 11492); (11499, 11502); (11506, 11507);
  (11520, 11557); (11559, 11559); (11565, 11565); (42560, 42605);
  (42624, 42651); (42786, 42863); (42865, 42887); (42891, 42894);
  (42896, 42954); (42960, 42961); (42963, 42963); (42965, 42969);
  (42997, 42998); (43002, 43002); (43824, 43866); (43872, 43880);
  (43888, 43967); (64256, 64262); (64275, 64279); (65313, 65338);
  (65345, 65370); (66560, 66639); (66736, 66771); (66776, 66811);
  (66928, 66938); (66940, 66954); (66956, 66962); (66964, 66965);
  (66967, 66977); (66979, 66993); (66995, 67001); (67003, 67004);
  (68736, 68786); (68800, 68850); (71840, 71903); (93760, 93823);
  (119808, 119892); (119894, 119964); (119966, 119967); (119970, 119970);
  (119973, 119974); (119977, 119980); (119982, 119993); (119995, 119995);
  (119997, 120003); (120005, 120069); (120071, 120074); (120077, 120084);
  (120086, 120092); (120094, 120121); (120123, 120126); (120128, 120132);
  (120134, 120134); (120138, 120144); (120146, 120485); (120488, 120512);
  (120514, 120538); (120540, 120570); (120572, 120596); (120598, 120628);
  (120630, 120654); (120656, 120686); (120688, 120712); (120714, 120744);
  (120746, 120770); (120772, 120779); (122624, 122633); (122635, 122654);
  (125184, 125251); (127280, 127305); (127312, 127337); (127344, 127369)
].

Fixpoint in_ranges (t : list (Z * Z)) (cp : Z) : bool :=
  match t with
  | [] => false
  | (lo, hi) :: r =>
      if cp <? lo then false
      else if cp <=? hi then true
      else in_ranges r cp
  end.

Fixpoint mapped (t : list (Z * Z * Z * Z)) (cp : Z) : Z :=
  match t with
  | [] => cp
  | (lo, hi, step, offset) :: r =>
      if cp <? lo then cp
      else if (cp <=? hi) && ((cp - lo) mod step =? 0) then cp + offset
      else mapped r cp
  end.

Fixpoint special (t : list (Z * list Z)) (cp : Z) : option (list Z) :=
  match t with
  | [] => None
  | (c, l) :: r => if cp =? c then Some l else special r cp
  end.

Definition case_ignorable : Z -> bool := in_ranges case_ignorable_table.
Definition cased : Z -> bool := in_ranges cased_table.

(** Whether the first code point of [l] that is not case-ignorable is
    cased. *)
Fixpoint meets_cased (l : list Z) : bool :=
  match l with
  | [] => false
  | cp :: r => if case_ignorable cp then meets_cased r else cased cp
  end.

(** Final_Sigma: a capital sigma after a cased letter and not before one,
    the case-ignorable code points in between set aside; [before] holds
    the preceding code points, the nearest first. *)
Definition final_sigma (before after : list Z) : bool :=
  meets_cased before && negb (meets_cased after).

Definition lower_point (before : list Z) (cp : Z) (after : list Z) : list Z :=
  if cp =? 931 then (if final_sigma before after then [962] else [963])
  else if cp =? 304 then [105; 775]
  else [mapped lower_table cp].

Fixpoint lower_points (before : list Z) (l : list Z) : list Z :=
  match l with
  | [] => []
  | cp :: r => lower_point before cp r ++ lower_points (cp :: before) r
  end.

Definition upper_point (cp : Z) : list Z :=
  match special upper_special cp with
  | Some l => l
  | None => [mapped upper_table cp]
  end.

Definition toLowerCase (s : string) : string :=
  encode_all (lower_points [] (decode s)).

Definition toUpperCase (s : string) : string :=
  encode_all (List.flat_map upper_point (decode s)).

(** [s.startsWith(q)] and [s.includes(q)]. *)
Fixpoint startsWith (s q : string) : bool :=
  match q, s with
  | EmptyString, _ => true
  | String a q', String b s' => Ascii.eqb a b && startsWith s' q'
  | String _ _, EmptyString => false
  end.

Fixpoint includes (s q : string) : bool :=
  startsWith s q ||
  match s with
  | String _ r => includes r q
  | EmptyString => false
  end.

(** [s.replace(/,/g, "")]: every comma is removed. *)
Fixpoint remove_commas (s : string) : string :=
  match s with
  | String c r =>
      if Ascii.eqb c "," then remove_commas r else String c (remove_commas r)
  | EmptyString => EmptyString
  end.

(** The truthiness of a string: only the empty string is falsy. *)
Definition truthy (s : string) : bool :=
  match s with EmptyString => false | _ => true end.

(** *** Parsing numbers *)

Fixpoint drop_chars (n : nat) (s : string) : string :=
  match n, s with
  | S n', String _ r => drop_chars n' r
  | _, _ => s
  end.

Fixpoint take_chars (n : nat) (s : string) : string :=
  match n, s with
  | S n', String c r => String c (take_chars n' r)
  | _, _ => EmptyString
  end.

(** The value of a character as a digit: [0-9], then [a-z] or [A-Z] for
    ten to thirty-five. *)
Definition digit_value (c : ascii) : option Z :=
  let n := code c in
  if (48 <=? n) && (n <=? 57) then Some (n - 48)
  else if (97 <=? n) && (n <=? 122) then Some (n - 87)
  else if (65 <=? n) && (n <=? 90) then Some (n - 55)
  else None.

(** The longest prefix of [s] made of digits of radix [R], read from the
    left into [acc]: the integer, how many digits were read, and the rest. *)
Fixpoint read_digits (R : Z) (acc : Z) (n : Z) (s : string) : Z * Z * string :=
  match s with
  | String c r =>
      match digit_value c with
      | Some d => if d <? R then read_digits R (acc * R + d) (n + 1) r
                  else (acc, n, s)
      | None => (acc, n, s)
      end
  | EmptyString => (acc, n, s)
  end.

(** An optional sign in front of [s]. *)
Definition read_sign (s : string) : bool * string :=
  match s with
  | String "-" r => (true, r)
  | String "+" r => (false, r)
  | _ => (false, s)
  end.

(** The exponent part [e], [e+] or [e-] and digits in front of [s], and
    what follows it; it counts only when at least one digit is there. *)
Definition read_exponent (s : string) : Z * string :=
  match s with
  | String c r =>
      if Ascii.eqb c "e" || Ascii.eqb c "E" then
        let '(eneg, r1) := read_sign r in
        let '(ev, en, r2) := read_digits 10 0 0 r1 in
        if en =? 0 then (0, s) else (if eneg then - ev else ev, r2)
      else (0, s)
  | EmptyString => (0, s)
  end.

(** The longest prefix of [s] that is a decimal literal ([Infinity], or
    digits with an optional fraction and exponent, signed or not): its
    Number value and what follows it; [None] when there is no such prefix. *)
Definition read_decimal_literal (s : string) : option (number * string) :=
  let '(neg, s1) := read_sign s in
  if startsWith s1 "Infinity" then Some (S754_infinity neg, drop_chars 8 s1)
  else
    let '(ip, ni, s2) := read_digits 10 0 0 s1 in
    let '(m, nf, s3) :=
      match s2 with
      | String "." r => read_digits 10 ip 0 r
      | _ => (ip, 0, s2)
      end in
    if ni + nf =? 0 then None
    else
      let '(ex, s4) := read_exponent s3 in
      Some (decimal neg m (ex - nf), s4).

(** [parseFloat(s)]: leading white space is skipped and the longest prefix
    that is a decimal literal is converted; [NaN] when there is none. *)
Definition parseFloat (input : string) : number :=
  match read_decimal_literal (trimStart input) with
  | Some (x, _) => x
  | None => NaN
  end.

(** [parseInt(s, R)] for an integer radix [R]: white space and a sign are
    skipped, [0x] is skipped when the radix is 16 or 0, and the longest
    prefix of radix-[R] digits is converted; [NaN] when that prefix is empty
    or the radix is outside 2..36. *)
Definition strip_hex_prefix (s : string) : option string :=
  match s with
  | String "0" (String c r) =>
      if Ascii.eqb c "x" || Ascii.eqb c "X" then Some r else None
  | _ => None
  end.

(** The sign and the mathematical integer that [parseInt] reads, [None]
    where it answers [NaN]. *)
Definition parseInt_math (input : string) (radix : Z) : option (bool * Z) :=
  let '(neg, s1) := read_sign (trimStart input) in
  if (radix =? 0) || ((2 <=? radix) && (radix <=? 36)) then
    let '(R, s2) :=
      if (radix =? 0) || (radix =? 16) then
        match strip_hex_prefix s1 with
        | Some r => (16, r)
        | None => (if radix =? 0 then 10 else radix, s1)
        end
      else (radix, s1) in
    let '(z, n, _) := read_digits R 0 0 s2 in
    if n =? 0 then None else Some (neg, z)
  else None.

(** The largest integer a Number holds with every smaller one: 2^53. *)
Definition MAX_EXACT : Z := 2 ^ 53.

(** ECMAScript lets the engine approximate in two places that the
    application reaches: the integer that [parseInt] reads in a radix that
    is neither ten nor a power of two, or in radix ten from more than
    twenty significant digits; and the digits of [toString] in a radix
    other than ten.  Engines are exact as long as the integer is at most
    2^53; beyond, the result is asked of the engine. *)
Record engine : Type := {
  approximate_integer : string -> Z -> number;
  approximate_digits : number -> Z -> string
}.

(** [z] without its trailing decimal zeros. *)
Fixpoint significant (fuel : nat) (z : Z) : Z :=
  match fuel with
  | O => z
  | S fuel' => if z mod 10 =? 0 then significant fuel' (z / 10) else z
  end.

(** Whether the Number for the integer [z > 0] read in [radix] is fixed by
    ECMAScript: the integer rounded to nearest, ties to even. *)
Definition rounds_exactly (radix z : Z) : bool :=
  (z <=? MAX_EXACT)
  || existsb (Z.eqb radix) [2; 4; 8; 16; 32]
  || ((radix =? 10) && (significant (Z.to_nat (Z.log2 z)) z <? 10 ^ 20)).

Definition parseInt (E : engine) (input : string) (radix : Z) : number :=
  match parseInt_math input radix with
  | None => NaN
  | Some (neg, z) =>
      if z =? 0 then S754_zero neg
      else if rounds_exactly radix z then of_Z (if neg then - z else z)
      else approximate_integer E input radix
  end.

(** [Number(s)] on a string: white space around the text is dropped; the
    empty text is 0; the whole text has to be a decimal literal or an
    unsigned [0x], [0o] or [0b] integer, else the result is [NaN]. *)
Definition radix_of_prefix (s : string) : option (Z * string) :=
  match s with
  | String "0" (String c r) =>
      if Ascii.eqb c "x" || Ascii.eqb c "X" then Some (16, r)
      else if Ascii.eqb c "o" || Ascii.eqb c "O" then Some (8, r)
      else if Ascii.eqb c "b" || Ascii.eqb c "B" then Some (2, r)
      else None
  | _ => None
  end.

Definition StringToNumber (input : string) : number :=
  let t := trim input in
  match t with
  | EmptyString => S754_zero false
  | _ =>
      match radix_of_prefix t with
      | Some (R, r) =>
          match read_digits R 0 0 r with
          | (z, n, EmptyString) => if n =? 0 then NaN else of_Z z
          | _ => NaN
          end
      | None =>
          match read_decimal_literal t with
          | Some (x, EmptyString) => x
          | _ => NaN
          end
      end
  end.

(** *** Printing integers *)

Definition digit_char (d : Z) : ascii :=
  if d <? 10 then ascii_of_nat (Z.to_nat (d + 48))
  else ascii_of_nat (Z.to_nat (d + 87)).

(** The digits of [z >= 0] in radix [R], most significant first, in front
    of [acc]; [fuel] bounds the number of digits. *)
Fixpoint digits_from (fuel : nat) (R z : Z) (acc : string) : string :=
  match fuel with
  | O => acc
  | S fuel' =>
      let acc' := String (digit_char (z mod R)) acc in
      if z / R =? 0 then acc' else digits_from fuel' R (z / R) acc'
  end.

Definition to_digits (R z : Z) : string :=
  digits_from (S (Z.to_nat (Z.log2 z))) R z EmptyString.

(** Among the integers that round to the Number [x] of value [z > 2^53],
    one with the fewest significant decimal digits, the closest to [z]
    among those: the search goes down from [p] trailing zeros. *)
Fixpoint shortest_integer (p : nat) (x : number) (z : Z) : Z * nat :=
  let u := 10 ^ Z.of_nat p in
  let c1 := z / u * u in
  let c2 := c1 + u in
  let ok1 := (0 <? c1) && strict_eq (of_Z c1) x in
  let ok2 := strict_eq (of_Z c2) x in
  let pick :=
    if ok1 && ok2 then
      if z - c1 <? c2 - z then Some c1
      else if c2 - z <? z - c1 then Some c2
      else if Z.even (c1 / u) then Some c1 else Some c2
    else if ok1 then Some c1
    else if ok2 then Some c2
    else None in
  match pick, p with
  | Some c, _ => (c, p)
  | None, O => (z, O)
  | None, S p' => shortest_integer p' x z
  end.

(** The decimal text of an integer-valued Number [x] of value [z > 2^53]:
    the shortest decimal that reads back as [x], with an exponent from
    10^21 on. *)
Definition decimal_text (x : number) (z : Z) : string :=
  let '(c, p) := shortest_integer (String.length (to_digits 10 z)) x z in
  let ds := to_digits 10 c in
  let n := String.length ds in
  if 21 <? Z.of_nat n then
    let sig := take_chars (n - p) ds in
    (match sig with
     | String d EmptyString => String d EmptyString
     | String d r => String d (String "." r)
     | EmptyString => EmptyString
     end ++ "e+" ++ to_digits 10 (Z.of_nat n - 1))%string
  else ds.

(** [x.toString(R)] for a radix in 2..36.  The text of [NaN], of the
    infinities, of zero, of an integer up to 2^53 in any radix and of a
    larger integer in radix ten is given here; the rest (a larger integer
    in another radix, a number with a fraction) is asked of the engine. *)
Definition Number_toString (E : engine) (x : number) (R : Z) : string :=
  match x with
  | S754_nan => "NaN"
  | S754_infinity false => "Infinity"
  | S754_infinity true => "-Infinity"
  | S754_zero _ => "0"
  | S754_finite s _ _ =>
      let z := Z.abs (floor_Z (SFabs x)) in
      if negb (is_integer x) then approximate_digits E x R
      else if z <=? MAX_EXACT then ((if s then "-" else "") ++ to_digits R z)%string
      else if R =? 10 then ((if s then "-" else "") ++ decimal_text (SFabs x) z)%string
      else approximate_digits E x R
  end.

(** *** Values *)

(** The values that reach [toNum] and [fmt]: state cells hold a number
    (their initial value) or the text of an input field; [fmt] also guards
    against [undefined] and [null]. *)
Inductive value : Type :=
  | JUndefined
  | JNull
  | JNumber (n : number)
  | JString (s : string).

End JS.

Import JS.

(** ** Arithmetic of the formulas

    The formulas of the calculators use [+ - * /] and decimal literals.
    They are written once over this interface and read in two ways: on
    binary64, as the application runs them, and on the rationals, the exact
    arithmetic they approximate. *)

Class Arith (N : Type) : Type := {
  plus : N -> N -> N;
  minus : N -> N -> N;
  times : N -> N -> N;
  over : N -> N -> N;
  (** the literal [m * 10^e] of the source text, [0 <= m] *)
  literal : Z -> Z -> N
}.

Declare Scope num_scope.
Delimit Scope num_scope with num.
Infix "+" := plus : num_scope.
Infix "-" := minus : num_scope.
Infix "*" := times : num_scope.
Infix "/" := over : num_scope.

(** An integer literal such as [1000], and a decimal one such as [0.0254],
    written [dec 254 (-4)]. *)
Definition int {N : Type} `{Arith N} (z : Z) : N := literal z 0.
Definition dec {N : Type} `{Arith N} (m e : Z) : N := literal m e.

#[export] Instance binary64 : Arith number := {|
  plus := JS.add;
  minus := JS.sub;
  times := JS.mul;
  over := JS.div;
  literal := JS.decimal false
|}.

#[export] Instance exact : Arith Q := {|
  plus := Qplus;
  minus := Qminus;
  times := Qmult;
  over := Qdiv;
  literal := fun m e =>
    if 0 <=? e then inject_Z (m * 10 ^ e) else Qmake m (Z.to_pos (10 ^ (- e)))
|}.

(** ** Utilities *)

(** [toNum(v, def = 0)].  The call sites that leave [def] out pass [zero]. *)
Definition zero : number := S754_zero false.

Definition toNum (v : value) (def : number) : number :=
  let n :=
    match v with
    | JNumber x => x
    | JString s => parseFloat (remove_commas s)
    | JUndefined => parseFloat (remove_commas "undefined")
    | JNull => parseFloat (remove_commas "null")
    end in
  if isFinite n then n else def.

Section Formatting.

(** [s.toLocaleString(undefined, { maximumFractionDigits: d })] depends on
    the locale of the host; it is left open. *)
Variable toLocaleString : number -> Z -> string.

(** [Number(v)] *)
Definition Number_ (v : value) : number :=
  match v with
  | JUndefined => NaN
  | JNull => zero
  | JNumber x => x
  | JString s => StringToNumber s
  end.

(** [Number.isNaN(v)]: true for the number [NaN] only. *)
Definition Number_isNaN (v : value) : bool :=
  match v with JNumber x => isNaN x | _ => false end.

(** [fmt(n, d = 2)]. *)
Definition fmt (n : value) (d : Z) : string :=
  match n with
  | JUndefined | JNull => "-"
  | _ =>
      if Number_isNaN n then "-"
      else
        let s := Number_ n in
        if isFinite s then toLocaleString s d else "-"
  end.

End Formatting.

(** ** Calculators *)

Module GSTCalculator.

Record result (N : Type) : Type := { tax : N; total : N }.
Arguments tax {N} _.
Arguments total {N} _.

Section Formula.
Context {N : Type} `{Arith N}.
Local Open Scope num_scope.

(** The body of [calc] after the inputs were read: [a] is the amount and
    [rate] the rate in percent. *)
Definition formula (a rate : N) (mode : string) : result N :=
  let r := rate / int 100 in
  if String.eqb mode "Add GST" then
    let tax := a * r in {| tax := tax; total := a + tax |}
  else
    let base := a / (int 1 + r) in
    let tax := a - base in {| tax := tax; total := base |}.
End Formula.

Definition calc (amount rate : value) (mode : string) : result number :=
  formula (toNum amount zero) (toNum rate zero) mode.

End GSTCalculator.

(** A unit of a converter: its name and the two functions to and from the
    unit every conversion of the domain goes through ([toM]/[fromM],
    [toKg]/[fromKg], [toS]/[fromS], [toMS]/[fromMS], [toM2]/[fromM2]). *)
Module Unit.
Record t (N : Type) : Type := {
    id : string;
    toCanonical : N -> N;
    fromCanonical : N -> N
  }.
Arguments id {N} _.
Arguments toCanonical {N} _ _.
Arguments fromCanonical {N} _ _.

(** [units.find(u => u.id === name)] *)
Definition find {N : Type} (units : list (t N)) (name : string) : option (t N) :=
  List.find (fun u => String.eqb (id u) name) units.
End Unit.

Module LengthConverter.
Section Units.
Context {N : Type} `{Arith N}.
Local Open Scope num_scope.
Definition units : list (Unit.t N) := [
    {| Unit.id := "mm"; Unit.toCanonical := fun v => v / int 1000; Unit.fromCanonical := fun v => v * int 1000 |};
    {| Unit.id := "cm"; Unit.toCanonical := fun v => v / int 100; Unit.fromCanonical := fun v => v * int 100 |};
    {| Unit.id := "m"; Unit.toCanonical := fun v => v; Unit.fromCanonical := fun v => v |};
    {| Unit.id := "km"; Unit.toCanonical := fun v => v * int 1000; Unit.fromCanonical := fun v => v / int 1000 |};
    {| Unit.id := "inch"; Unit.toCanonical := fun v => v * dec 254 (-4); Unit.fromCanonical := fun v => v / dec 254 (-4) |};
    {| Unit.id := "ft"; Unit.toCanonical := fun v => v * dec 3048 (-4); Unit.fromCanonical := fun v => v / dec 3048 (-4) |}
  ].
End Units.

Definition out (val : value) (from to : string) : number :=
  let v := toNum val zero in
  match Unit.find units from, Unit.find units to with
  | Some f, Some t => Unit.fromCanonical t (Unit.toCanonical f v)
  | _, _ => NaN
  end.
End LengthConverter.

Module WeightConverter.
Section Units.
Context {N : Type} `{Arith N}.
Local Open Scope num_scope.
Definition units : list (Unit.t N) := [
    {| Unit.id := "g"; Unit.toCanonical := fun v => v / int 1000; Unit.fromCanonical := fun v => v * int 1000 |};
    {| Unit.id := "kg"; Unit.toCanonical := fun v => v; Unit.fromCanonical := fun v => v |};
    {| Unit.id := "lb"; Unit.toCanonical := fun v => v * dec 45359237 (-8); Unit.fromCanonical := fun v => v / dec 45359237 (-8) |}
  ].
End Units.

Definition out (val : value) (from to : string) : number :=
  let v := toNum val zero in
  match Unit.find units from, Unit.find units to with
  | Some f, Some t => Unit.fromCanonical t (Unit.toCanonical f v)
  | _, _ => NaN
  end.
End WeightConverter.

Module TimeConverter.
Section Units.
Context {N : Type} `{Arith N}.
Local Open Scope num_scope.
Definition units : list (Unit.t N) := [
    {| Unit.id := "sec"; Unit.toCanonical := fun v => v; Unit.fromCanonical := fun v => v |};
    {| Unit.id := "min"; Unit.toCanonical := fun v => v * int 60; Unit.fromCanonical := fun v => v / int 60 |};
    {| Unit.id := "hr"; Unit.toCanonical := fun v => v * int 3600; Unit.fromCanonical := fun v => v / int 3600 |};
    {| Unit.id := "day"; Unit.toCanonical := fun v => v * int 86400; Unit.fromCanonical := fun v => v / int 86400 |}
  ].
End Units.

Definition out (val : value) (from to : string) : number :=
  let v := toNum val zero in
  match Unit.find units from, Unit.find units to with
  | Some f, Some t => Unit.fromCanonical t (Unit.toCanonical f v)
  | _, _ => NaN
  end.
End TimeConverter.

Module SpeedConverter.
Section Units.
Context {N : Type} `{Arith N}.
Local Open Scope num_scope.
Definition units : list (Unit.t N) := [
    {| Unit.id := "m/s"; Unit.toCanonical := fun v => v; Unit.fromCanonical := fun v => v |};
    {| Unit.id := "km/h"; Unit.toCanonical := fun v => v / dec 36 (-1); Unit.fromCanonical := fun v => v * dec 36 (-1) |};
    {| Unit.id := "mph"; Unit.toCanonical := fun v => v * dec 44704 (-5); Unit.fromCanonical := fun v => v / dec 44704 (-5) |}
  ].
End Units.

Definition out (val : value) (from to : string) : number :=
  let v := toNum val zero in
  match Unit.find units from, Unit.find units to with
  | Some f, Some t => Unit.fromCanonical t (Unit.toCanonical f v)
  | _, _ => NaN
  end.
End SpeedConverter.

Module AreaConverter.
Section Units.
Context {N : Type} `{Arith N}.
Local Open Scope num_scope.
Definition units : list (Unit.t N) := [
    {| Unit.id := "sq m"; Unit.toCanonical := fun v => v; Unit.fromCanonical := fun v => v |};
    {| Unit.id := "sq ft"; Unit.toCanonical := fun v => v * dec 9290304 (-8); Unit.fromCanonical := fun v => v / dec 9290304 (-8) |}
  ].
End Units.

Definition out (val : value) (from to : string) : number :=
  let v := toNum val zero in
  match Unit.find units from, Unit.find units to with
  | Some f, Some t => Unit.fromCanonical t (Unit.toCanonical f v)
  | _, _ => NaN
  end.
End AreaConverter.

(** The five converters that go through one canonical unit. *)
Inductive domain : Type := Length | Weight | Time | Speed | Area.

Definition units_of {N : Type} `{Arith N} (d : domain) : list (Unit.t N) :=
  match d with
  | Length => LengthConverter.units
  | Weight => WeightConverter.units
  | Time => TimeConverter.units
  | Speed => SpeedConverter.units
  | Area => AreaConverter.units
  end.

Definition out_of (d : domain) : value -> string -> string -> number :=
  match d with
  | Length => LengthConverter.out
  | Weight => WeightConverter.out
  | Time => TimeConverter.out
  | Speed => SpeedConverter.out
  | Area => AreaConverter.out
  end.

Module EMI.

Record result : Type := {
    emi : number;
    total : number;
    interest : number;
    months : number
  }.

(** [toNum(r)/12/100] *)
Definition monthlyR (r : value) : number :=
  ((toNum r zero / int 12) / int 100)%num.

(** The tenure in months, rounded. *)
Definition months_of (t : value) (tenureType : string) : number :=
  if String.eqb tenureType "Years"
  then Math_round (toNum t zero * int 12)%num
  else Math_round (toNum t zero).

Section Pow.

(** [Math.pow], which ECMAScript leaves to the engine's approximation. *)
Variable Math_pow : number -> number -> number.

Definition out (p r t : value) (tenureType : string) : result :=
  let principal := toNum p zero in
  let monthlyR := monthlyR r in
  let months := months_of t tenureType in
  if strict_eq monthlyR (int 0) then
    {| emi := (principal / months)%num; total := principal;
       interest := int 0; months := months |}
  else
    let pow := Math_pow (int 1 + monthlyR)%num months in
    let emi := (principal * monthlyR * (pow / (pow - int 1)))%num in
    let total := (emi * months)%num in
    let interest := (total - principal)%num in
    {| emi := emi; total := total; interest := interest; months := months |}.

End Pow.

End EMI.

Module BaseConverter.

(** The bases offered by the two selects. *)
Definition bases : list Z := [2; 8; 10; 16; 36].

Definition out (E : engine) (val : string) (from to : Z) : string :=
  let n := parseInt E val from in
  if isNaN n then "-" else toUpperCase (Number_toString E n to).

End BaseConverter.

(** ** Registry *)

(** The element an entry renders. *)
Inductive component : Type :=
  | BasicCalculator_el | PercentageCalculator_el | DiscountCalculator_el
  | GSTCalculator_el | BMICalculator_el | AgeCalculator_el
  | DateDiffCalculator_el | TemperatureConverter_el | LengthConverter_el
  | WeightConverter_el | TimeConverter_el | SpeedConverter_el
  | AreaConverter_el | EMI_el | SIP_el | CompoundInterest_el
  | FractionToDecimal_el | BaseConverter_el.

Module Entry.
Record t : Type := {
    id : string;
    title : string;
    keywords : string;
    el : component
  }.
End Entry.

Definition CALC_REGISTRY : list Entry.t := [
  {| Entry.id := "basic"; Entry.title := "Basic Calculator"; Entry.keywords := "add subtract multiply divide arithmetic"; Entry.el := BasicCalculator_el |};
  {| Entry.id := "percent"; Entry.title := "Percentage"; Entry.keywords := "percentage increase percent off"; Entry.el := PercentageCalculator_el |};
  {| Entry.id := "discount"; Entry.title := "Discount"; Entry.keywords := "sale price off"; Entry.el := DiscountCalculator_el |};
  {| Entry.id := "gst"; Entry.title := "GST/VAT"; Entry.keywords := "tax vat gst inclusive exclusive"; Entry.el := GSTCalculator_el |};
  {| Entry.id := "bmi"; Entry.title := "BMI"; Entry.keywords := "body mass index health"; Entry.el := BMICalculator_el |};
  {| Entry.id := "age"; Entry.title := "Age"; Entry.keywords := "age years months days"; Entry.el := AgeCalculator_el |};
  {| Entry.id := "datediff"; Entry.title := "Date Difference"; Entry.keywords := "days between dates weeks"; Entry.el := DateDiffCalculator_el |};
  {| Entry.id := "temp"; Entry.title := "Temperature"; Entry.keywords := "celsius fahrenheit kelvin"; Entry.el := TemperatureConverter_el |};
  {| Entry.id := "length"; Entry.title := "Length"; Entry.keywords := "mm cm m km inch foot"; Entry.el := LengthConverter_el |};
  {| Entry.id := "weight"; Entry.title := "Weight"; Entry.keywords := "g kg lb mass"; Entry.el := WeightConverter_el |};
  {| Entry.id := "time"; Entry.title := "Time"; Entry.keywords := "seconds minutes hours days"; Entry.el := TimeConverter_el |};
  {| Entry.id := "speed"; Entry.title := "Speed"; Entry.keywords := "km/h m/s mph"; Entry.el := SpeedConverter_el |};
  {| Entry.id := "area"; Entry.title := "Area"; Entry.keywords := "square meter foot"; Entry.el := AreaConverter_el |};
  {| Entry.id := "emi"; Entry.title := "EMI"; Entry.keywords := "loan monthly payment interest"; Entry.el := EMI_el |};
  {| Entry.id := "sip"; Entry.title := "SIP"; Entry.keywords := "mutual fund investment future value"; Entry.el := SIP_el |};
  {| Entry.id := "compound"; Entry.title := "Compound Interest"; Entry.keywords := "interest compounding"; Entry.el := CompoundInterest_el |};
  {| Entry.id := "fraction"; Entry.title := "Fraction → Decimal"; Entry.keywords := "rational number division"; Entry.el := FractionToDecimal_el |};
  {| Entry.id := "base"; Entry.title := "Base Converter"; Entry.keywords := "binary hex decimal"; Entry.el := BaseConverter_el |}
].

(** ** Shell *)

Module WorldCalcHub.

(** The test of the [filter] callback for the folded query [q]. *)
Definition matches (q : string) (c : Entry.t) : bool :=
  includes (toLowerCase (Entry.title c)) q
  || includes (toLowerCase (Entry.keywords c)) q.

Definition filtered (query : string) : list Entry.t :=
  let q := toLowerCase (trim query) in
  if negb (truthy q) then CALC_REGISTRY
  else List.filter (matches q) CALC_REGISTRY.

(** [filtered.find(c => c.id === active) || filtered[0] || CALC_REGISTRY[0]];
    an entry is an object, hence truthy, and [None] stands for
    [undefined]. *)
Definition current (filtered : list Entry.t) (active : string) : option Entry.t :=
  match List.find (fun c => String.eqb (Entry.id c) active) filtered with
  | Some c => Some c
  | None =>
      match filtered with
      | c :: _ => Some c
      | [] => match CALC_REGISTRY with c :: _ => Some c | [] => None end
      end
  end.

End WorldCalcHub.

(** ** The other calculators *)

(** [clamp(n, a, b)] *)
Definition clamp (n a b : number) : number := Math_min (Math_max n a) b.

Module BasicCalculator.

Definition result (a b : value) (op : string) : number :=
  let x := toNum a zero in
  let y := toNum b zero in
  if String.eqb op "+" then (x + y)%num
  else if String.eqb op "-" then (x - y)%num
  else if String.eqb op "×" then (x * y)%num
  else if String.eqb op "÷" then
    if strict_eq y (int 0) then NaN else (x / y)%num
  else NaN.

End BasicCalculator.

Module PercentageCalculator.

Definition inc (base pct : value) : number :=
  (toNum base zero * (toNum pct zero / int 100))%num.

Definition total (base pct : value) : number :=
  (toNum base zero + inc base pct)%num.

End PercentageCalculator.

Module DiscountCalculator.

Definition disc (mrp off : value) : number :=
  (toNum mrp zero * (toNum off zero / int 100))%num.

Definition pay (mrp off : value) : number :=
  (toNum mrp zero - disc mrp off)%num.

End DiscountCalculator.

Module BMICalculator.

Definition bmi (unit : string) (w h : value) : number :=
  if startsWith unit "Metric" then
    let m := (toNum h zero / int 100)%num in
    (toNum w zero / (m * m))%num
  else
    ((toNum w zero / (toNum h zero * toNum h zero)) * int 703)%num.

Definition status (bmi : number) : string :=
  if negb (isFinite bmi) then "-"
  else if lt bmi (dec 185 (-1)) then "Underweight"
  else if lt bmi (int 25) then "Normal"
  else if lt bmi (int 30) then "Overweight"
  else "Obese".

End BMICalculator.

Module TemperatureConverter.

Section Formula.
Context {N : Type} `{Arith N}.
Local Open Scope num_scope.

(** The first half of [convert]: the input in degrees Celsius.  A scale
    that is neither Fahrenheit nor Kelvin leaves the value as it is. *)
Definition to_celsius (v : N) (f : string) : N :=
  let c := v in
  let c := if String.eqb f "Fahrenheit" then (v - int 32) * int 5 / int 9 else c in
  let c := if String.eqb f "Kelvin" then v - dec 27315 (-2) else c in
  c.

(** The second half: from Celsius to the target, [None] where [convert]
    answers [NaN]. *)
Definition from_celsius (c : N) (t : string) : option N :=
  if String.eqb t "Celsius" then Some c
  else if String.eqb t "Fahrenheit" then Some ((c * int 9 / int 5) + int 32)
  else if String.eqb t "Kelvin" then Some (c + dec 27315 (-2))
  else None.
End Formula.

Definition convert (v : value) (f t : string) : number :=
  let v := toNum v zero in
  match from_celsius (to_celsius v f) t with
  | Some y => y
  | None => NaN
  end.

End TemperatureConverter.

Module SIP.

Record result : Type := { fv : number; invested : number; gains : number }.

(** [toNum(r)/12/100] *)
Definition rate (r : value) : number :=
  ((toNum r zero / int 12) / int 100)%num.

Section Pow.
Variable Math_pow : number -> number -> number.

Definition out (m r y : value) : result :=
  let i := rate r in
  let n := Math_round (toNum y zero * int 12)%num in
  let a := toNum m zero in
  let pow := Math_pow (int 1 + i)%num n in
  let fv := (a * ((pow - int 1) / i) * (int 1 + i))%num in
  let invested := (a * n)%num in
  let gains := (fv - invested)%num in
  {| fv := fv; invested := invested; gains := gains |}.
End Pow.

End SIP.

Module CompoundInterest.

Record result : Type := { A : number; interest : number }.

(** [Math.max(1, Math.round(toNum(n)))]: the compounding periods a year. *)
Definition periods (n : value) : number :=
  Math_max (int 1) (Math_round (toNum n zero)).

Section Pow.
Variable Math_pow : number -> number -> number.

Definition out (p r n t : value) : result :=
  let P := toNum p zero in
  let R := (toNum r zero / int 100)%num in
  let N := periods n in
  let T := toNum t zero in
  let A := (P * Math_pow (int 1 + R / N) (N * T))%num in
  let interest := (A - P)%num in
  {| A := A; interest := interest |}.
End Pow.

End CompoundInterest.

Module FractionToDecimal.

Definition out (num den : value) : number :=
  let n := toNum num zero in
  let d := toNum den zero in
  if strict_eq d (int 0) then NaN else (n / d)%num.

End FractionToDecimal.

Module DateDiffCalculator.

Record result : Type := { days : number; weeks : number }.

Section Dates.

(** The time value of [new Date(s)], in milliseconds, [NaN] for an invalid
    date; how a text is read is left to the host. *)
Variable Date_time : string -> number.

(** [None] stands for [null]. *)
Definition out (a b : string) : option result :=
  let d1 := Date_time a in
  let d2 := Date_time b in
  if isNaN d1 || isNaN d2 then None
  else
    let ms := Math_abs (d2 - d1)%num in
    let days := Math_floor (ms / (int 1000 * int 60 * int 60 * int 24))%num in
    let weeks := (days / int 7)%num in
    Some {| days := days; weeks := weeks |}.
End Dates.

End DateDiffCalculator.

Module AgeCalculator.

(** What [getFullYear], [getMonth] (0 to 11) and [getDate] return for a
    date: whole numbers of small size, on which the subtractions and
    additions of the code are exact; they are kept as integers. *)
Record fields : Type := { year : Z; month : Z; date : Z }.

Record result : Type := { years : Z; months : Z; days : Z }.

Definition leap (y : Z) : bool :=
  ((y mod 4 =? 0) && negb (y mod 100 =? 0)) || (y mod 400 =? 0).

(** The days of month [m] (0 to 11) of year [y]. *)
Definition days_in_month (y m : Z) : Z :=
  if m =? 1 then (if leap y then 29 else 28)
  else if (m =? 3) || (m =? 5) || (m =? 8) || (m =? 10) then 30
  else 31.

(** [new Date(y, m, 0).getDate()] for [m] from 0 to 11: the last day of
    the month before; the constructor reads a year from 0 to 99 as 1900
    and that year. *)
Definition last_day_before (y m : Z) : Z :=
  let y := if (0 <=? y) && (y <=? 99) then 1900 + y else y in
  if m =? 0 then days_in_month (y - 1) 11 else days_in_month y (m - 1).

(** [diff] for a birth date [d], [None] when it is invalid, read at the
    moment [now]; the result [None] stands for [null]. *)
Definition diff (d : option fields) (now : fields) : option result :=
  match d with
  | None => None
  | Some d =>
      let years := year now - year d in
      let months := month now - month d in
      let days := date now - date d in
      let '(days, months) :=
        if days <? 0 then (days + last_day_before (year now) (month now), months - 1)
        else (days, months) in
      let '(months, years) :=
        if months <? 0 then (months + 12, years - 1) else (months, years) in
      Some {| years := years; months := months; days := days |}
  end.

End AgeCalculator.

(** ** Vocabulary of the statements *)

(** What [toNum] reads in its argument before the finiteness test. *)
Definition parsed (v : value) : number :=
  match v with
  | JNumber x => x
  | JString s => parseFloat (remove_commas s)
  | JUndefined | JNull => NaN
  end.

(** The two cases of the ASCII letters, byte by byte. *)
Definition lower_char (c : ascii) : ascii :=
  if (65 <=? code c) && (code c <=? 90)
  then ascii_of_nat (nat_of_ascii c + 32) else c.

Definition upper_char (c : ascii) : ascii :=
  if (97 <=? code c) && (code c <=? 122)
  then ascii_of_nat (nat_of_ascii c - 32) else c.

Fixpoint map_chars (f : ascii -> ascii) (s : string) : string :=
  match s with
  | String c r => String (f c) (map_chars f r)
  | EmptyString => EmptyString
  end.

(** The UTF-8 forms of the white space code points. *)
Definition white_texts : list string := List.map encode white_points.

(** A text made of white space only. *)
Inductive blank : string -> Prop :=
  | blank_nil : blank EmptyString
  | blank_cons : forall w s : string,
      List.In w white_texts -> blank s -> blank (w ++ s).

(** The text starts, or ends, with a white space code point. *)
Definition starts_white (t : string) : Prop :=
  exists w r : string, List.In w white_texts /\ t = (w ++ r)%string.

Definition ends_white (t : string) : Prop :=
  exists w l : string, List.In w white_texts /\ t = (l ++ w)%string.

(** [t] is [s] without a blank front and a blank tail, and neither starts
    nor ends with white space. *)
Definition trimmed (s t : string) : Prop :=
  exists l r : string,
    s = (l ++ t ++ r)%string /\ blank l /\ blank r
    /\ ~ starts_white t /\ ~ ends_white t.

(** Every byte of [s] is an ASCII character. *)
Definition ascii_text (s : string) : Prop :=
  forall c : ascii, List.In c (list_ascii_of_string s) -> code c < 128.

(** Two ASCII characters that are equal or the two cases of a letter. *)
Definition letters_agree (a b : ascii) : Prop :=
  code a < 128 /\ code b < 128
  /\ (a = b
      \/ (65 <= code a <= 90 /\ code b = code a + 32)
      \/ (65 <= code b <= 90 /\ code a = code b + 32)).

(** Two ASCII texts that differ in the case of letters at most. *)
Inductive same_letters : string -> string -> Prop :=
  | same_letters_nil : same_letters EmptyString EmptyString
  | same_letters_cons : forall (a b : ascii) (s t : string),
      letters_agree a b -> same_letters s t ->
      same_letters (String a s) (String b t).

(** [w] occurs in [s]. *)
Definition occurs_in (w s : string) : Prop :=
  exists a b : string, s = (a ++ w ++ b)%string.

(** [q] occurs in [s] up to the case of ASCII letters: some piece of [s]
    folds to the same text as [q]. *)
Definition occurs_ignoring_case (q s : string) : Prop :=
  exists w : string, occurs_in w s /\ toLowerCase w = toLowerCase q.

(** [l1] is [l2] with some elements left out, the order kept. *)
Inductive Subseq {A : Type} : list A -> list A -> Prop :=
  | Subseq_nil : Subseq [] []
  | Subseq_skip : forall x l1 l2, Subseq l1 l2 -> Subseq l1 (x :: l2)
  | Subseq_keep : forall x l1 l2, Subseq l1 l2 -> Subseq (x :: l1) (x :: l2).

(** The query as the filter uses it: trimmed, then folded. *)
Definition folded (query : string) : string := toLowerCase (trim query).

(** The texts of the registry that the filter searches. *)
Definition registry_texts : list string :=
  List.flat_map (fun c => [Entry.title c; Entry.keywords c]) CALC_REGISTRY.

(** The pieces of [s]: its substrings, by start and length. *)
Definition pieces (s : string) : list string :=
  List.flat_map
    (fun i => List.map (fun n => substring i n s)
                (List.seq 0 (S (String.length s))))
    (List.seq 0 (S (String.length s))).

(** Folding any piece of [s] to lower case maps it byte by byte. *)
Definition folds_bytewise (s : string) : bool :=
  forallb (fun w => String.eqb (toLowerCase w) (map_chars lower_char w))
    (pieces s).

(** The name of the unit a domain routes its conversions through. *)
Definition canonical_id (d : domain) : string :=
  match d with
  | Length => "m"
  | Weight => "kg"
  | Time => "sec"
  | Speed => "m/s"
  | Area => "sq m"
  end.

(** The body of [out] once the input was read by [toNum]: the conversion
    of [v] between two named units of a domain, [None] where [out] answers
    [NaN] because a name is unknown. *)
Definition convert {N : Type} `{Arith N} (d : domain) (v : N) (from to : string)
  : option N :=
  match Unit.find (units_of d) from, Unit.find (units_of d) to with
  | Some f, Some t => Some (Unit.fromCanonical t (Unit.toCanonical f v))
  | _, _ => None
  end.

(** The string [s] is nothing but digits of radix [R], which denote [z]. *)
Definition reads_as (R : Z) (s : string) (z : Z) : Prop :=
  s <> EmptyString
  /\ read_digits R 0 0 s = (z, Z.of_nat (String.length s), EmptyString).

(** [ds] is the numeral of [z >= 0] in radix [R] with upper-case digits:
    every character is a radix-[R] digit, they add up to [z], no letter is
    lower-case and there is no leading zero. *)
Definition numeral_of (R z : Z) (ds : string) : Prop :=
  read_digits R 0 0 ds = (z, Z.of_nat (String.length ds), EmptyString)
  /\ ds <> EmptyString
  /\ toUpperCase ds = ds
  /\ (startsWith ds "0" = true -> ds = "0").

(** The character [c] is no digit of radix [R]. *)
Definition no_digit (R : Z) (c : ascii) : Prop :=
  forall d : Z, digit_value c = Some d -> R <= d.

(** Reading digits of radix [R] stops in front of [rest]: it is empty or
    starts with a character that is no digit of the radix. *)
Definition stops (R : Z) (rest : string) : Prop :=
  match rest with
  | EmptyString => True
  | String c _ => no_digit R c
  end.

(** [body] is what follows the white space and the sign in front of
    [val], and [neg] tells whether the sign was a minus.  Without a sign,
    [body] starts neither with white space nor with a sign. *)
Definition after_sign (val : string) (neg : bool) (body : string) : Prop :=
  exists ws : string,
    blank ws
    /\ ((val = (ws ++ String "-" body)%string /\ neg = true)
        \/ (val = (ws ++ String "+" body)%string /\ neg = false)
        \/ (val = (ws ++ body)%string /\ neg = false
            /\ ~ starts_white body
            /\ startsWith body "-" = false /\ startsWith body "+" = false)).

(** [text] is where [parseInt] looks for digits of radix [R]: [body], past
    its [0x] or [0X] when the radix is 16. *)
Definition after_prefix (R : Z) (body text : string) : Prop :=
  (R = 16 /\ (body = ("0x" ++ text)%string \/ body = ("0X" ++ text)%string))
  \/ ((R <> 16
       \/ (startsWith body "0x" = false /\ startsWith body "0X" = false))
      /\ text = body).

(** An engine to put where none is asked: it answers [NaN] and the empty
    text. *)
Definition idle_engine : engine := {|
  approximate_integer := fun _ _ => NaN;
  approximate_digits := fun _ _ => EmptyString
|}.



(** The rational a finite Number stands for. *)
Definition to_Q (x : number) : Q :=
  match x with
  | S754_finite s m e =>
      let v := if s then Z.neg m else Z.pos m in
      if 0 <=? e then inject_Z (v * 2 ^ e) else Qmake v (Z.to_pos (2 ^ (- e)))
  | _ => 0%Q
  end.

(** [x] and [y] are finite and [|x - y| <= tol * |y|]. *)
Definition within (tol : Q) (x y : number) : bool :=
  isFinite x && isFinite y
  && Qle_bool (Qabs (to_Q x - to_Q y)) (tol * Qabs (to_Q y)).

(** The whole numbers from 0 to [k]. *)
Definition range (k : nat) : list Z := List.map Z.of_nat (List.seq 0 (S k)).

(** On binary64: every conversion of a whole number up to [k] between two
    listed units of the domain and back stays within [tol] of it. *)
Definition sample_round_trips (d : domain) (tol : Q) (k : nat) : bool :=
  let ids := List.map Unit.id (units_of (N := number) d) in
  forallb (fun from =>
    forallb (fun to =>
      forallb (fun n =>
        within tol
          (out_of d (JNumber (out_of d (JNumber (of_Z n)) from to)) to from)
          (of_Z n))
        (range k)) ids) ids.

(** On binary64: adding the tax to a whole amount up to [ka] at a whole
    rate up to [kr] percent and removing it again stays within [tol]. *)
Definition sample_gst (tol : Q) (ka kr : nat) : bool :=
  forallb (fun a =>
    forallb (fun r =>
      within tol
        (GSTCalculator.total
           (GSTCalculator.calc
              (JNumber (GSTCalculator.total
                          (GSTCalculator.calc (JNumber (of_Z a))
                             (JNumber (of_Z r)) "Add GST")))
              (JNumber (of_Z r)) "Remove GST"))
        (of_Z a))
      (range kr)) (range ka).

(** The scales of the temperature converter. *)
Definition scales : list string := ["Celsius"; "Fahrenheit"; "Kelvin"].

(** [x] is not [NaN] and its sign is not negative. *)
Definition nonnegative (x : number) : bool :=
  match x with
  | S754_zero s | S754_infinity s | S754_finite s _ _ => negb s
  | S754_nan => false
  end.

(** ** Facts about the runtime *)

Lemma string_app_assoc (a b c : string) :
  ((a ++ b) ++ c = a ++ (b ++ c))%string.
Proof. induction a as [|x a IH]; simpl; [reflexivity | now rewrite IH]. Qed.

Lemma string_app_nil_r (a : string) : (a ++ "")%string = a.
Proof. induction a as [|x a IH]; simpl; [reflexivity | now rewrite IH]. Qed.

Lemma string_app_length (a b : string) :
  String.length (a ++ b) = (String.length a + String.length b)%nat.
Proof. induction a as [|x a IH]; simpl; [reflexivity | now rewrite IH]. Qed.

(** *** Bytes *)

Lemma code_range (c : ascii) : 0 <= code c < 256.
Proof. unfold code. pose proof (nat_ascii_bounded c). lia. Qed.

Lemma byte_code (c : ascii) : byte (code c) = c.
Proof. unfold byte, code. rewrite Nat2Z.id. apply ascii_nat_embedding. Qed.

Lemma code_byte (n : Z) : 0 <= n < 256 -> code (byte n) = n.
Proof.
  intros Hn. unfold byte, code. rewrite nat_ascii_embedding by lia. lia.
Qed.

Lemma code_inj (a b : ascii) : code a = code b -> a = b.
Proof. intros H. rewrite <- (byte_code a), <- (byte_code b). now rewrite H. Qed.

(** *** Code points *)

Lemma head_ascii (b : ascii) (r : string) :
  code b < 128 -> head b r = (code b, 1%nat).
Proof.
  intros H. unfold head. now apply Z.ltb_lt in H as ->.
Qed.

Lemma decode_eq (b1 : ascii) (r1 : string) :
  decode (String b1 r1)
  = fst (head b1 r1) :: decode (advance (snd (head b1 r1)) r1).
Proof.
  cbn [decode]. destruct (head b1 r1) as [cp k]. cbn [fst snd].
  f_equal. destruct k as [|[|[|[|[|k]]]]]; try reflexivity;
    destruct r1 as [|? [|? [|? ?]]]; reflexivity.
Qed.

Lemma trimStart_eq (b1 : ascii) (r1 : string) :
  trimStart (String b1 r1)
  = if white_space (fst (head b1 r1))
    then trimStart (advance (snd (head b1 r1)) r1)
    else String b1 r1.
Proof.
  cbn [trimStart]. destruct (head b1 r1) as [cp k]. cbn [fst snd].
  destruct (white_space cp); [|reflexivity].
  destruct k as [|[|[|[|[|k]]]]]; try reflexivity;
    destruct r1 as [|? [|? [|? ?]]]; reflexivity.
Qed.

Lemma advance_length (k : nat) (r : string) :
  (String.length (advance k r) <= String.length r)%nat.
Proof.
  destruct k as [|[|[|[|[|k]]]]]; try (simpl; lia);
    destruct r as [|? [|? [|? ?]]]; simpl; lia.
Qed.

Local Ltac bytes_eq :=
  repeat match goal with
         | |- context [byte (?k + (code ?b - ?k))] =>
             replace (k + (code b - k)) with (code b) by lia
         end;
  rewrite ?byte_code; reflexivity.

Local Ltac split_tests :=
  repeat match goal with
         | |- context [Z.leb ?a ?b] =>
             destruct (Z.leb_spec a b); cbn [andb negb]
         end.

(** The bytes of a code point are the ones it was read from. *)
Lemma head_encode (b1 : ascii) (r1 : string) :
  String b1 r1
  = (encode (fst (head b1 r1)) ++ advance (snd (head b1 r1)) r1)%string.
Proof.
  pose proof (code_range b1) as Hb1.
  assert (Hstray : String b1 r1 = (encode (STRAY + code b1) ++ advance 1 r1)%string).
  { unfold encode, STRAY.
    repeat match goal with
           | |- context [?a <? ?b] => destruct (Z.ltb_spec a b); try lia
           end.
    cbn [advance append]. f_equal.
    replace (1114112 + code b1 - 1114112) with (code b1) by lia.
    now rewrite byte_code. }
  unfold head. cbv zeta.
  destruct (Z.ltb_spec (code b1) 128) as [Hlt|Hge].
  { cbn [fst snd]. unfold encode.
    apply Z.ltb_lt in Hlt as ->. cbn [advance append].
    now rewrite byte_code. }
  destruct r1 as [|b2 r2]; [exact Hstray|].
  pose proof (code_range b2) as Hb2.
  unfold continuation.
  destruct (Z.leb_spec 128 (code b2)); cbn [andb negb]; [|exact Hstray].
  destruct (Z.leb_spec (code b2) 191); cbn [andb negb]; [|exact Hstray].
  destruct (Z.leb_spec 194 (code b1)); cbn [andb negb].
  - destruct (Z.leb_spec (code b1) 223); cbn [andb negb].
    + cbn [fst snd advance]. unfold encode.
      set (cp := (code b1 - 192) * 64 + (code b2 - 128)).
      assert (Hd : cp / 64 = code b1 - 192 /\ cp mod 64 = code b2 - 128)
        by (subst cp; split; Z.div_mod_to_equations; lia).
      destruct Hd as [Hd Hm].
      destruct (Z.ltb_spec cp 128); [subst cp; lia|].
      destruct (Z.ltb_spec cp 2048); [|subst cp; lia].
      rewrite Hd, Hm. cbn [append]. bytes_eq.
    + destruct r2 as [|b3 r3]; [exact Hstray|].
      pose proof (code_range b3) as Hb3.
      destruct (Z.leb_spec 128 (code b3)); cbn [andb negb]; [|exact Hstray].
      destruct (Z.leb_spec (code b3) 191); cbn [andb negb]; [|exact Hstray].
      destruct (Z.leb_spec 224 (code b1)); cbn [andb negb].
      * destruct (Z.leb_spec (code b1) 239); cbn [andb negb].
        -- set (cp := (code b1 - 224) * 4096 + (code b2 - 128) * 64 + (code b3 - 128)).
           destruct (Z.leb_spec 2048 cp); cbn [andb negb]; [|exact Hstray].
           destruct ((55296 <=? cp) && (cp <=? 57343)); cbn [negb]; [exact Hstray|].
           cbn [fst snd advance]. unfold encode.
           assert (Hd : cp / 4096 = code b1 - 224
                        /\ cp / 64 mod 64 = code b2 - 128
                        /\ cp mod 64 = code b3 - 128)
             by (subst cp; repeat split; Z.div_mod_to_equations; lia).
           destruct Hd as (Hd1 & Hd2 & Hd3).
           destruct (Z.ltb_spec cp 128); [lia|].
           destruct (Z.ltb_spec cp 2048); [lia|].
           destruct (Z.ltb_spec cp 65536); [|subst cp; lia].
           rewrite Hd1, Hd2, Hd3. cbn [append]. bytes_eq.
        -- destruct r3 as [|b4 r4]; [exact Hstray|].
           pose proof (code_range b4) as Hb4.
           set (cp := (code b1 - 240) * 262144 + (code b2 - 128) * 4096
                      + (code b3 - 128) * 64 + (code b4 - 128)).
           destruct (Z.leb_spec 128 (code b4)); cbn [andb negb]; [|exact Hstray].
           destruct (Z.leb_spec (code b4) 191); cbn [andb negb]; [|exact Hstray].
           destruct (Z.leb_spec 240 (code b1)); cbn [andb negb]; [|exact Hstray].
           destruct (Z.leb_spec (code b1) 244); cbn [andb negb]; [|exact Hstray].
           destruct (Z.leb_spec 65536 cp); cbn [andb negb]; [|exact Hstray].
           destruct (Z.leb_spec cp 1114111); cbn [andb negb]; [|exact Hstray].
           cbn [fst snd advance]. unfold encode, STRAY.
           assert (Hd : cp / 262144 = code b1 - 240
                        /\ cp / 4096 mod 64 = code b2 - 128
                        /\ cp / 64 mod 64 = code b3 - 128
                        /\ cp mod 64 = code b4 - 128)
             by (subst cp; repeat split; Z.div_mod_to_equations; lia).
           destruct Hd as (Hd1 & Hd2 & Hd3 & Hd4).
           destruct (Z.ltb_spec cp 128); [lia|].
           destruct (Z.ltb_spec cp 2048); [lia|].
           destruct (Z.ltb_spec cp 65536); [lia|].
           destruct (Z.ltb_spec cp 1114112); [|lia].
           rewrite Hd1, Hd2, Hd3, Hd4. cbn [append]. bytes_eq.
      * destruct r3 as [|b4 r4]; [exact Hstray|].
        split_tests; first [lia | exact Hstray].
  - destruct r2 as [|b3 r3]; [exact Hstray|].
    split_tests; try lia; try exact Hstray.
    destruct r3 as [|b4 r4]; [exact Hstray|].
    split_tests; first [lia | exact Hstray].
Qed.

(** *** White space *)

Lemma white_text_of (cp : Z) :
  white_space cp = true -> List.In (encode cp) white_texts.
Proof.
  unfold white_space. intros H. apply List.existsb_exists in H.
  destruct H as (x & Hin & Hx). apply Z.eqb_eq in Hx. subst x.
  now apply List.in_map.
Qed.

Lemma white_text_cases (w : string) :
  List.In w white_texts ->
  exists (c : ascii) (u : string), w = String c u.
Proof.
  intros H. vm_compute in H.
  repeat (destruct H as [<-|H]; [eexists; eexists; reflexivity|]).
  contradiction.
Qed.

Lemma trimStart_white (w r : string) :
  List.In w white_texts -> trimStart (w ++ r) = trimStart r.
Proof.
  intros H. vm_compute in H.
  repeat (destruct H as [<-|H];
          [cbn [append]; rewrite trimStart_eq; cbv -[trimStart]; reflexivity|]).
  contradiction.
Qed.

Lemma trimStart_length (n : nat) :
  forall s : string, (String.length s <= n)%nat ->
    (String.length (trimStart s) <= String.length s)%nat.
Proof.
  induction n as [|n IH]; intros s Hs.
  - destruct s; [simpl; lia | simpl in Hs; lia].
  - destruct s as [|b1 r1]; [simpl; lia|].
    rewrite trimStart_eq.
    destruct (white_space (fst (head b1 r1))); [|lia].
    pose proof (advance_length (snd (head b1 r1)) r1) as Ha.
    cbn [String.length] in Hs |- *.
    specialize (IH (advance (snd (head b1 r1)) r1)). lia.
Qed.

Lemma not_starts_white (b1 : ascii) (r1 : string) :
  white_space (fst (head b1 r1)) = false -> ~ starts_white (String b1 r1).
Proof.
  intros Hw (w & r & Hin & Heq).
  pose proof (trimStart_eq b1 r1) as He. rewrite Hw in He.
  rewrite Heq in He at 1. rewrite (trimStart_white w r Hin) in He.
  pose proof (trimStart_length (String.length r) r (Nat.le_refl _)) as Hl.
  rewrite He, Heq, string_app_length in Hl.
  destruct (white_text_cases w Hin) as (c & u & ->). simpl in Hl. lia.
Qed.

(** [trimStart] takes a blank front off and leaves a text that does not
    start with white space. *)
Lemma trimStart_spec_aux (n : nat) :
  forall s : string, (String.length s <= n)%nat ->
    exists l : string,
      s = (l ++ trimStart s)%string /\ blank l /\ ~ starts_white (trimStart s).
Proof.
  induction n as [|n IH]; intros s Hs.
  - destruct s; [|simpl in Hs; lia].
    exists EmptyString. split; [reflexivity|]. split; [constructor|].
    intros (w & r & Hin & Heq).
    destruct (white_text_cases w Hin) as (c & u & ->). discriminate Heq.
  - destruct s as [|b1 r1].
    + apply IH. simpl. lia.
    + rewrite trimStart_eq.
      destruct (white_space (fst (head b1 r1))) eqn:Ew.
      * pose proof (advance_length (snd (head b1 r1)) r1) as Ha.
        destruct (IH (advance (snd (head b1 r1)) r1)) as (l & Hl & Hb & Hn).
        { cbn [String.length] in Hs. lia. }
        exists (encode (fst (head b1 r1)) ++ l)%string.
        split; [|split; [|exact Hn]].
        -- rewrite string_app_assoc, <- Hl. apply head_encode.
        -- constructor; [now apply white_text_of | exact Hb].
      * exists EmptyString. split; [reflexivity|]. split; [constructor|].
        now apply not_starts_white.
Qed.

Lemma trimStart_spec (s : string) :
  exists l : string,
    s = (l ++ trimStart s)%string /\ blank l /\ ~ starts_white (trimStart s).
Proof. exact (trimStart_spec_aux (String.length s) s (Nat.le_refl _)). Qed.

Lemma blank_trimStart (s : string) : blank s -> trimStart s = EmptyString.
Proof.
  induction 1 as [|w s Hin _ IH]; [reflexivity|].
  now rewrite trimStart_white.
Qed.

Lemma trimStart_blank (s : string) : trimStart s = EmptyString -> blank s.
Proof.
  intros H. destruct (trimStart_spec s) as (l & Hl & Hb & _).
  rewrite H, string_app_nil_r in Hl. now subst l.
Qed.

Lemma blank_app (a b : string) : blank a -> blank b -> blank (a ++ b).
Proof.
  induction 1 as [|w s Hin _ IH]; intros Hb; [exact Hb|].
  rewrite string_app_assoc. constructor; [exact Hin | now apply IH].
Qed.

(** Skipping a blank front: what follows is kept when it does not start
    with white space. *)
Lemma trimStart_skips (ws t : string) :
  blank ws -> ~ starts_white t -> trimStart (ws ++ t) = t.
Proof.
  intros Hb Ht. induction Hb as [|w s Hin _ IH].
  - destruct (trimStart_spec t) as (l & Hl & Hbl & _).
    destruct Hbl as [|w l' Hin Hbl']; [exact (eq_sym Hl)|].
    exfalso. apply Ht. exists w, (l' ++ trimStart t)%string.
    split; [exact Hin|]. now rewrite <- string_app_assoc.
  - rewrite string_app_assoc, trimStart_white by exact Hin. exact IH.
Qed.

Lemma trimEnd_eq (c : ascii) (r : string) :
  trimEnd (String c r)
  = match trimStart (String c r) with
    | EmptyString => EmptyString
    | _ => String c (trimEnd r)
    end.
Proof. reflexivity. Qed.

Lemma trimEnd_split (s : string) :
  exists r : string, s = (trimEnd s ++ r)%string /\ blank r.
Proof.
  induction s as [|c s IH].
  - exists EmptyString. split; [reflexivity | constructor].
  - rewrite trimEnd_eq.
    destruct (trimStart (String c s)) eqn:E.
    + exists (String c s). split; [reflexivity | now apply trimStart_blank].
    + destruct IH as (r & Hr & Hb). exists r.
      split; [|exact Hb]. cbn [append]. now rewrite <- Hr.
Qed.

Lemma trimEnd_not_ends_white (s : string) : ~ ends_white (trimEnd s).
Proof.
  induction s as [|c s IH]; intros (w & l & Hin & Heq).
  - destruct (white_text_cases w Hin) as (c & u & ->).
    destruct l; discriminate Heq.
  - rewrite trimEnd_eq in Heq.
    destruct (trimStart (String c s)) eqn:E.
    + destruct (white_text_cases w Hin) as (c' & u & ->).
      destruct l; discriminate Heq.
    + destruct l as [|c' l].
      * (* the kept text is one white space: the whole of it was blank *)
        destruct (trimEnd_split (String c s)) as (r & Hr & Hb).
        rewrite trimEnd_eq, E, Heq in Hr. cbn [append] in Hr.
        assert (Hbl : blank (String c s))
          by (rewrite Hr; now constructor).
        apply blank_trimStart in Hbl. rewrite Hbl in E. discriminate E.
      * cbn [append] in Heq. injection Heq as _ Heq.
        apply IH. now exists w, l.
Qed.

(** [trim] takes a blank front and a blank tail off, and what is left
    neither starts nor ends with white space. *)
Lemma trim_trimmed (s : string) : trimmed s (trim s).
Proof.
  unfold trimmed, trim.
  destruct (trimStart_spec s) as (l & Hl & Hbl & Hn).
  destruct (trimEnd_split (trimStart s)) as (r & Hr & Hbr).
  exists l, r. split; [|split; [exact Hbl|split; [exact Hbr|split]]].
  - now rewrite <- Hr.
  - intros (w & x & Hin & Heq). apply Hn.
    exists w, (x ++ r)%string. split; [exact Hin|].
    now rewrite Hr, Heq, string_app_assoc.
  - apply trimEnd_not_ends_white.
Qed.

Lemma trimEnd_empty (s : string) :
  trimEnd s = EmptyString <-> trimStart s = EmptyString.
Proof.
  destruct s as [|c s]; [tauto|].
  rewrite trimEnd_eq. destruct (trimStart (String c s)); split; congruence.
Qed.

Lemma trimStart_idempotent (s : string) : trimStart (trimStart s) = trimStart s.
Proof.
  destruct (trimStart_spec s) as (_ & _ & _ & Hn).
  exact (trimStart_skips EmptyString _ blank_nil Hn).
Qed.

Lemma trim_empty (s : string) : trim s = EmptyString <-> blank s.
Proof.
  unfold trim. rewrite trimEnd_empty, trimStart_idempotent.
  split; [apply trimStart_blank | apply blank_trimStart].
Qed.

(** The first byte of a white space text starts a code point and the
    others continue it. *)
Lemma white_text_bytes (w : string) :
  List.In w white_texts ->
  exists (c : ascii) (u : string),
    w = String c u /\ continuation c = false
    /\ forall c' : ascii, List.In c' (list_ascii_of_string u) ->
                          continuation c' = true.
Proof.
  intros H. vm_compute in H.
  repeat (destruct H as [<-|H];
          [eexists; eexists; split; [reflexivity|]; split; [reflexivity|];
           cbn [list_ascii_of_string List.In]; intros c' Hc';
           repeat (destruct Hc' as [<-|Hc']; [reflexivity|]); contradiction|]).
  contradiction.
Qed.

Lemma blank_first (c : ascii) (s : string) :
  blank (String c s) -> continuation c = false.
Proof.
  intros H. inversion H as [|w s' Hin Hs' Heq].
  destruct (white_text_bytes w Hin) as (c0 & u & -> & Hc0 & _).
  cbn [append] in Heq. now injection Heq as <- _.
Qed.

Lemma string_app_inv_head (a b c : string) :
  (a ++ b)%string = (a ++ c)%string -> b = c.
Proof.
  induction a as [|x a IH]; cbn [append]; intros H; [exact H|].
  injection H as H. now apply IH.
Qed.

(** Continuation bytes in front of a blank text belong to what precedes
    it. *)
Lemma continuation_split (u : string) :
  (forall c : ascii, List.In c (list_ascii_of_string u) -> continuation c = true) ->
  forall t r x : string,
    blank r -> (t ++ r)%string = (u ++ x)%string ->
    exists t' : string, t = (u ++ t')%string.
Proof.
  induction u as [|c u IH]; intros Hu t r x Hr H.
  - now exists t.
  - destruct t as [|b t].
    + cbn [append] in H. rewrite H in Hr. apply blank_first in Hr.
      rewrite Hu in Hr by now left. discriminate Hr.
    + cbn [append] in H. injection H as -> H.
      destruct (IH (fun c' Hc' => Hu c' (or_intror Hc')) t r x Hr H) as (t' & ->).
      now exists t'.
Qed.

Lemma white_split (w t r x : string) :
  List.In w white_texts -> t <> EmptyString -> blank r ->
  (t ++ r)%string = (w ++ x)%string ->
  exists t' : string, t = (w ++ t')%string.
Proof.
  intros Hin Ht Hr H.
  destruct (white_text_bytes w Hin) as (c & u & -> & _ & Hu).
  destruct t as [|b t]; [contradiction|].
  cbn [append] in H. injection H as -> H.
  destruct (continuation_split u Hu t r x Hr H) as (t' & ->).
  now exists t'.
Qed.

Lemma blank_tail (t r : string) :
  blank r -> t <> EmptyString -> blank (t ++ r) -> ends_white t.
Proof.
  intros Hr Ht H. remember (t ++ r)%string as s eqn:Es.
  revert t Ht Es. induction H as [|w s Hin Hs IH]; intros t Ht Es.
  - destruct t; [contradiction | discriminate Es].
  - destruct (white_split w t r s Hin Ht Hr (eq_sym Es)) as (t' & ->).
    rewrite string_app_assoc in Es. apply string_app_inv_head in Es.
    destruct t' as [|c t'].
    + exists w, EmptyString. split; [exact Hin|].
      now rewrite string_app_nil_r.
    + destruct (IH (String c t') ltac:(discriminate) Es) as (w' & l & Hw' & Hl).
      exists w', (w ++ l)%string. split; [exact Hw'|].
      now rewrite Hl, string_app_assoc.
Qed.

Lemma trimEnd_skips (t r : string) :
  blank r -> ~ ends_white t -> trimEnd (t ++ r) = t.
Proof.
  intros Hr. induction t as [|c t IH]; intros Ht.
  - cbn [append]. apply trimEnd_empty. now apply blank_trimStart.
  - cbn [append]. rewrite trimEnd_eq.
    destruct (trimStart (String c (t ++ r))) eqn:E.
    + exfalso. apply Ht. apply (blank_tail _ r Hr); [discriminate|].
      now apply trimStart_blank.
    + rewrite IH; [reflexivity|].
      intros (w & l & Hin & ->). apply Ht.
      now exists w, (String c l).
Qed.

(** The trimmed form of a text is the one [trim] computes. *)
Lemma trimmed_unique (s t : string) : trimmed s t -> t = trim s.
Proof.
  intros (l & r & -> & Hl & Hr & Hs & He). unfold trim.
  destruct t as [|c t].
  - cbn [append]. rewrite blank_trimStart by now apply blank_app.
    reflexivity.
  - rewrite trimStart_skips; [now rewrite trimEnd_skips | exact Hl |].
    intros (w & x & Hin & Heq). apply Hs.
    destruct (white_split w (String c t) r x Hin ltac:(discriminate) Hr Heq)
      as (t' & Ht').
    now exists w, t'.
Qed.

(** *** Case mapping of ASCII text *)

Lemma encode_ascii (c : ascii) :
  code c < 128 -> encode (code c) = String c EmptyString.
Proof.
  intros H. unfold encode. apply Z.ltb_lt in H as ->. now rewrite byte_code.
Qed.

Lemma lower_point_ascii (c : ascii) (before after : list Z) :
  (code c <? 128) = true ->
  lower_point before (code c) after = [code (lower_char c)].
Proof.
  destruct c as [[] [] [] [] [] [] [] []]; intros H;
    first [discriminate H | vm_compute; reflexivity].
Qed.

Lemma upper_point_ascii (c : ascii) :
  (code c <? 128) = true -> upper_point (code c) = [code (upper_char c)].
Proof.
  destruct c as [[] [] [] [] [] [] [] []]; intros H;
    first [discriminate H | vm_compute; reflexivity].
Qed.

Lemma case_char_ascii (c : ascii) :
  (code c <? 128) = true ->
  code (lower_char c) < 128 /\ code (upper_char c) < 128.
Proof.
  destruct c as [[] [] [] [] [] [] [] []]; intros H;
    first [discriminate H | split; reflexivity].
Qed.

Lemma lower_points_ascii (s : string) :
  ascii_text s ->
  forall before : list Z,
    encode_all (lower_points before (decode s)) = map_chars lower_char s.
Proof.
  induction s as [|c s IH]; intros Hs before; [reflexivity|].
  assert (Hc : code c < 128) by (apply Hs; now left).
  assert (Hc' : (code c <? 128) = true) by now apply Z.ltb_lt.
  rewrite decode_eq, head_ascii by exact Hc.
  cbn [fst snd advance lower_points map_chars].
  rewrite lower_point_ascii by exact Hc'.
  cbn [app encode_all].
  rewrite encode_ascii by apply (case_char_ascii c Hc').
  cbn [append]. f_equal. apply IH. intros c' Hin. apply Hs. now right.
Qed.

Lemma toLowerCase_ascii (s : string) :
  ascii_text s -> toLowerCase s = map_chars lower_char s.
Proof. intros Hs. now apply lower_points_ascii. Qed.

Lemma toUpperCase_ascii (s : string) :
  ascii_text s -> toUpperCase s = map_chars upper_char s.
Proof.
  unfold toUpperCase. induction s as [|c s IH]; intros Hs; [reflexivity|].
  assert (Hc : code c < 128) by (apply Hs; now left).
  assert (Hc' : (code c <? 128) = true) by now apply Z.ltb_lt.
  rewrite decode_eq, head_ascii by exact Hc.
  cbn [fst snd advance List.flat_map map_chars].
  rewrite upper_point_ascii by exact Hc'.
  cbn [app encode_all].
  rewrite encode_ascii by apply (case_char_ascii c Hc').
  cbn [append]. f_equal. apply IH. intros c' Hin. apply Hs. now right.
Qed.

Lemma encode_nonempty (cp : Z) : encode cp <> EmptyString.
Proof.
  unfold encode.
  repeat match goal with
         | |- context [?a <? ?b] => destruct (a <? b)
         end; discriminate.
Qed.

Lemma toLowerCase_empty (s : string) :
  toLowerCase s = EmptyString <-> s = EmptyString.
Proof.
  split; [|intros ->; reflexivity].
  destruct s as [|c s]; [reflexivity|].
  unfold toLowerCase. rewrite decode_eq. cbn [lower_points].
  set (cp := fst (head c s)). set (l := lower_points _ _).
  set (after := decode _).
  intros H. exfalso.
  assert (Hp : exists x r, lower_point [] cp after = x :: r).
  { unfold lower_point.
    destruct (cp =? 931); [destruct (final_sigma [] after)|destruct (cp =? 304)];
      eexists; eexists; reflexivity. }
  destruct Hp as (x & r & Hp). rewrite Hp in H.
  cbn [app encode_all] in H.
  pose proof (encode_nonempty x) as Hx.
  destruct (encode x); [congruence | discriminate H].
Qed.

Lemma map_chars_app (f : ascii -> ascii) (s1 s2 : string) :
  map_chars f (s1 ++ s2) = (map_chars f s1 ++ map_chars f s2)%string.
Proof. induction s1 as [|c s1 IH]; simpl; [reflexivity | now rewrite IH]. Qed.

Lemma map_chars_split (f : ascii -> ascii) (s x y : string) :
  map_chars f s = (x ++ y)%string ->
  exists s1 s2 : string,
    s = (s1 ++ s2)%string /\ map_chars f s1 = x /\ map_chars f s2 = y.
Proof.
  revert s. induction x as [|c x IH]; intros s H.
  - now exists EmptyString, s.
  - destruct s as [|c' s]; [discriminate H|].
    simpl in H. injection H as Hc H.
    destruct (IH s H) as (s1 & s2 & -> & H1 & H2).
    exists (String c' s1), s2. simpl. now rewrite Hc, H1.
Qed.

Lemma code_lower_char (c : ascii) :
  code (lower_char c)
  = if (65 <=? code c) && (code c <=? 90) then code c + 32 else code c.
Proof.
  unfold lower_char.
  destruct ((65 <=? code c) && (code c <=? 90)) eqn:E; [|reflexivity].
  apply andb_true_iff in E. rewrite !Z.leb_le in E.
  unfold code in *. rewrite nat_ascii_embedding by lia. lia.
Qed.

Lemma letters_agree_lower (a b : ascii) :
  letters_agree a b -> lower_char a = lower_char b.
Proof.
  intros (Ha & Hb & H). apply code_inj. rewrite !code_lower_char.
  destruct H as [->|[[H1 H2]|[H1 H2]]]; [reflexivity| |];
    repeat match goal with
           | |- context [Z.leb ?x ?y] => destruct (Z.leb_spec x y); cbn [andb]
           end; lia.
Qed.

Lemma lower_agree (a b : ascii) :
  code b < 128 -> lower_char a = lower_char b -> letters_agree a b.
Proof.
  intros Hb H. apply (f_equal code) in H. rewrite !code_lower_char in H.
  pose proof (code_range a) as Ra.
  unfold letters_agree.
  repeat match type of H with
         | context [Z.leb ?x ?y] => destruct (Z.leb_spec x y); cbn [andb] in H
         end;
    (split; [lia|]; split; [lia|]);
    first [ left; apply code_inj; lia
          | right; left; lia
          | right; right; lia ].
Qed.

Lemma same_letters_lower (w t : string) :
  same_letters w t -> map_chars lower_char w = map_chars lower_char t.
Proof.
  induction 1 as [|a b s t Hab _ IH]; [reflexivity|].
  cbn [map_chars]. now rewrite (letters_agree_lower a b Hab), IH.
Qed.

Lemma same_letters_ascii (w t : string) :
  same_letters w t -> ascii_text w /\ ascii_text t.
Proof.
  induction 1 as [|a b s t (Ha & Hb & _) _ [IH1 IH2]].
  - split; intros c [].
  - split; intros c [<-|Hin]; auto.
Qed.

Lemma lower_same_letters (w t : string) :
  ascii_text t ->
  map_chars lower_char w = map_chars lower_char t -> same_letters w t.
Proof.
  revert t. induction w as [|a w IH]; intros [|b t] Ht H;
    try discriminate H; [constructor|].
  cbn [map_chars] in H. injection H as Hab H.
  constructor.
  - apply lower_agree; [apply Ht; now left | exact Hab].
  - apply IH; [|exact H]. intros c Hin. apply Ht. now right.
Qed.

(** Texts that differ in the case of ASCII letters only have the same
    lower-case form. *)
Lemma same_letters_folded (w t : string) :
  same_letters w t -> toLowerCase w = toLowerCase t.
Proof.
  intros H. destruct (same_letters_ascii w t H) as [Hw Ht].
  rewrite !toLowerCase_ascii by assumption. now apply same_letters_lower.
Qed.


Lemma remove_commas_clean (s : string) :
  ~ List.In ","%char (list_ascii_of_string (remove_commas s)).
Proof.
  induction s as [|c s IH]; simpl; [tauto|].
  destruct (Ascii.eqb_spec c ","%char) as [->|Hc]; simpl; [exact IH|].
  intros [Heq|Hin]; [congruence | contradiction].
Qed.

Lemma parseFloat_undefined : parseFloat (remove_commas "undefined") = NaN.
Proof. reflexivity. Qed.

Lemma parseFloat_null : parseFloat (remove_commas "null") = NaN.
Proof. reflexivity. Qed.

Lemma toNum_unfold (v : value) (def : number) :
  toNum v def = if isFinite (parsed v) then parsed v else def.
Proof. destruct v; reflexivity. Qed.

Lemma range_in (k : nat) (n : Z) :
  0 <= n <= Z.of_nat k -> List.In n (range k).
Proof.
  intros Hn. unfold range. rewrite <- (Z2Nat.id n) by lia.
  apply List.in_map, List.in_seq. lia.
Qed.

(** ** The numeric utilities *)

(** C7. [fmt] answers ["-"] for [undefined], for [null] and for [NaN],
    whatever the number of decimals and the locale. *)
Theorem fmt_placeholder (toLocaleString : number -> Z -> string) (d : Z) :
  fmt toLocaleString JUndefined d = "-"
  /\ fmt toLocaleString JNull d = "-"
  /\ fmt toLocaleString (JNumber NaN) d = "-".
Proof. repeat split. Qed.

(** C10. [fmt] answers ["-"] for both infinities, and more generally the
    locale rendering is reached only with a finite number: the result is
    either ["-"] or the rendering of a finite [Number(n)]. *)
Theorem fmt_infinite (toLocaleString : number -> Z -> string) (d : Z) :
  fmt toLocaleString (JNumber (S754_infinity false)) d = "-"
  /\ fmt toLocaleString (JNumber (S754_infinity true)) d = "-"
  /\ (forall n : value,
        fmt toLocaleString n d = "-"
        \/ (isFinite (Number_ n) = true
            /\ fmt toLocaleString n d = toLocaleString (Number_ n) d)).
Proof.
  repeat split.
  intros [| |x|s]; simpl; try (left; reflexivity).
  - destruct x; simpl; auto.
  - destruct (isFinite (StringToNumber s)) eqn:E; auto.
Qed.

(** ** Converters: unknown units *)

Lemma find_unknown {N : Type} (units : list (Unit.t N)) (name : string) :
  ~ List.In name (List.map Unit.id units) -> Unit.find units name = None.
Proof.
  unfold Unit.find.
  induction units as [|u us IH]; simpl; intros Hn; [reflexivity|].
  destruct (String.eqb_spec (Unit.id u) name) as [E|E].
  - exfalso. apply Hn. now left.
  - apply IH. intros Hin. apply Hn. now right.
Qed.

Lemma find_known {N : Type} (units : list (Unit.t N)) (name : string) (u : Unit.t N) :
  Unit.find units name = Some u -> List.In u units /\ Unit.id u = name.
Proof.
  unfold Unit.find. intros Hf.
  apply List.find_some in Hf. destruct Hf as [Hin He].
  split; [exact Hin | now apply String.eqb_eq].
Qed.

Lemma out_of_unfold (d : domain) (val : value) (from to : string) :
  out_of d val from to =
  match Unit.find (units_of d) from, Unit.find (units_of d) to with
  | Some f, Some t => Unit.fromCanonical t (Unit.toCanonical f (toNum val zero))
  | _, _ => NaN
  end.
Proof. destruct d; reflexivity. Qed.

(** C8. In each of the five converters, when the name of the unit to
    convert from or the name of the unit to convert to is not in the table
    of the domain, the result is [NaN], a value. *)
Theorem unknown_unit_is_NaN (d : domain) (val : value) (from to : string) :
  ~ List.In from (List.map Unit.id (units_of (N := number) d))
  \/ ~ List.In to (List.map Unit.id (units_of (N := number) d)) ->
  out_of d val from to = NaN.
Proof.
  intros H. rewrite out_of_unfold.
  destruct H as [Hf|Ht].
  - now rewrite (find_unknown _ _ Hf).
  - rewrite (find_unknown _ _ Ht).
    now destruct (Unit.find (units_of d) from).
Qed.

Lemma unknown_unit_is_NaN_witness :
  out_of Time (JString "5") "min" "fortnight" = NaN.
Proof.
  apply unknown_unit_is_NaN. right. simpl.
  intros H. repeat (destruct H as [H|H]; [discriminate H|]). exact H.
Defined.

(** ** Loan EMI at rate zero *)

(** C2. When the monthly rate [toNum(r)/12/100] is zero and the number of
    months is positive, the instalment is the principal divided by the
    months, the total is the principal and the interest is 0. *)
Theorem EMI_zero_rate (Math_pow : number -> number -> number)
    (p r t : value) (tenureType : string) :
  strict_eq (EMI.monthlyR r) (int 0) = true ->
  lt (int 0) (EMI.months_of t tenureType) = true ->
  let o := EMI.out Math_pow p r t tenureType in
  EMI.emi o = JS.div (toNum p zero) (EMI.months_of t tenureType)
  /\ EMI.total o = toNum p zero
  /\ EMI.interest o = zero
  /\ EMI.months o = EMI.months_of t tenureType.
Proof.
  intros Hrate _. unfold EMI.out. rewrite Hrate. simpl. repeat split.
Qed.

Lemma EMI_zero_rate_witness :
  let o := EMI.out (fun _ _ => NaN) (JString "1,200") (JNumber zero)
             (JNumber (of_Z 1)) "Years" in
  EMI.emi o = of_Z 100 /\ EMI.total o = of_Z 1200
  /\ EMI.interest o = zero /\ EMI.months o = of_Z 12.
Proof.
  exact (EMI_zero_rate (fun _ _ => NaN) (JString "1,200") (JNumber zero)
           (JNumber (of_Z 1)) "Years" eq_refl eq_refl).
Defined.

(** ** Selection of the displayed entry *)

Lemma find_absent (f : list Entry.t) (active : string) :
  (forall c, List.In c f -> Entry.id c <> active) ->
  List.find (fun c => String.eqb (Entry.id c) active) f = None.
Proof.
  intros Hno. induction f as [|c f IH]; simpl; [reflexivity|].
  destruct (String.eqb_spec (Entry.id c) active) as [E|E].
  - exfalso. apply (Hno c); [now left | exact E].
  - apply IH. intros c' Hin. apply Hno. now right.
Qed.

Lemma find_present (f : list Entry.t) (active : string) (c : Entry.t) :
  List.In c f -> Entry.id c = active ->
  exists c', List.find (fun c => String.eqb (Entry.id c) active) f = Some c'
             /\ List.In c' f /\ Entry.id c' = active
             /\ (List.NoDup (List.map Entry.id f) -> c' = c).
Proof.
  induction f as [|x f IH]; simpl; [tauto|].
  intros Hin Hid.
  destruct (String.eqb_spec (Entry.id x) active) as [E|E].
  - exists x. repeat split; auto.
    intros Hnd. destruct Hin as [->|Hin]; [reflexivity|].
    exfalso. apply List.NoDup_cons_iff in Hnd. destruct Hnd as [Hnotin _].
    apply Hnotin. rewrite E, <- Hid. now apply List.in_map.
  - destruct Hin as [->|Hin]; [contradiction|].
    destruct (IH Hin Hid) as (c' & Hf & Hin' & Hid' & Hu).
    exists c'. repeat split; auto.
    intros Hnd. apply Hu. now apply List.NoDup_cons_iff in Hnd.
Qed.

(** C5. The displayed entry is the entry of the filtered list whose id is
    the active one when there is one (the first such, which is the only one
    when ids are distinct); otherwise the first entry of the filtered list;
    otherwise the first entry of the registry.  The registry is not empty,
    so the displayed entry is always defined. *)
Theorem current_resolved (f : list Entry.t) (active : string) :
  (forall c, List.In c f -> Entry.id c = active ->
     exists c', WorldCalcHub.current f active = Some c'
                /\ List.In c' f /\ Entry.id c' = active
                /\ (List.NoDup (List.map Entry.id f) -> c' = c))
  /\ ((forall c, List.In c f -> Entry.id c <> active) ->
      WorldCalcHub.current f active = List.hd_error (f ++ CALC_REGISTRY))
  /\ WorldCalcHub.current f active <> None.
Proof.
  split; [|split].
  - intros c Hin Hid.
    destruct (find_present f active c Hin Hid) as (c' & Hf & H').
    exists c'. split; [|exact H'].
    unfold WorldCalcHub.current. now rewrite Hf.
  - intros Hno. unfold WorldCalcHub.current.
    rewrite (find_absent f active Hno). now destruct f.
  - unfold WorldCalcHub.current.
    destruct (List.find _ f); [discriminate|].
    destruct f; discriminate.
Qed.

Lemma current_resolved_witness :
  WorldCalcHub.current (WorldCalcHub.filtered "age") "basic"
  = List.hd_error (WorldCalcHub.filtered "age" ++ CALC_REGISTRY).
Proof.
  apply (proj1 (proj2 (current_resolved (WorldCalcHub.filtered "age") "basic"))).
  intros c Hin. vm_compute in Hin.
  repeat (destruct Hin as [<-|Hin]; [discriminate|]). contradiction.
Defined.

(** ** Search *)

Lemma startsWith_spec (s q : string) :
  startsWith s q = true <-> exists b : string, s = (q ++ b)%string.
Proof.
  revert s. induction q as [|a q IH]; intros s; simpl.
  - split; [intros _; now exists s | intros _; now destruct s].
  - destruct s as [|b s]; simpl.
    + split; [discriminate | intros [r Hr]; discriminate Hr].
    + rewrite andb_true_iff, IH. split.
      * intros [Hab [r ->]]. apply Ascii.eqb_eq in Hab. subst b. now exists r.
      * intros [r Hr]. injection Hr as -> ->.
        split; [apply Ascii.eqb_refl | now exists r].
Qed.

Lemma includes_unfold (s q : string) :
  includes s q =
  startsWith s q
  || match s with String _ r => includes r q | EmptyString => false end.
Proof. destruct s; reflexivity. Qed.

Lemma includes_spec (s q : string) :
  includes s q = true <-> occurs_in q s.
Proof.
  unfold occurs_in. induction s as [|c s IH];
    rewrite includes_unfold, orb_true_iff, startsWith_spec.
  - split.
    + intros [[b Hb] | H]; [now exists EmptyString, b | discriminate H].
    + intros (a & b & H). left. destruct a; [now exists b | discriminate H].
  - rewrite IH. split.
    + intros [[b Hb] | (a & b & ->)].
      * now exists EmptyString, b.
      * now exists (String c a), b.
    + intros (a & b & H). destruct a as [|c' a].
      * left. now exists b.
      * right. injection H as -> ->. now exists a, b.
Qed.

Lemma substring_piece (a w b : string) :
  substring (String.length a) (String.length w) (a ++ w ++ b) = w.
Proof.
  induction a as [|c a IH]; [|exact IH].
  cbn [append String.length].
  induction w as [|c w IH]; [now destruct b|].
  cbn [append String.length substring]. now rewrite IH.
Qed.

Lemma occurs_in_pieces (w s : string) : occurs_in w s -> List.In w (pieces s).
Proof.
  intros (a & b & ->). unfold pieces.
  apply List.in_flat_map. exists (String.length a). split.
  - apply List.in_seq. rewrite !string_app_length. lia.
  - apply List.in_map_iff. exists (String.length w). split.
    + apply substring_piece.
    + apply List.in_seq. rewrite !string_app_length. lia.
Qed.

Lemma folds_bytewise_sound (l : list string) :
  forallb folds_bytewise l = true ->
  forall s w : string, List.In s l -> occurs_in w s ->
    toLowerCase w = map_chars lower_char w.
Proof.
  intros H s w Hs Hw.
  rewrite List.forallb_forall in H. specialize (H s Hs).
  unfold folds_bytewise in H. rewrite List.forallb_forall in H.
  apply String.eqb_eq, H. now apply occurs_in_pieces.
Qed.

Lemma registry_folds_checked : forallb folds_bytewise registry_texts = true.
Proof. vm_compute. reflexivity. Qed.

(** The texts of the registry hold ASCII characters and one arrow, which
    has no case: folding a piece of them maps it byte by byte. *)
Lemma piece_folded (s w : string) :
  List.In s registry_texts -> occurs_in w s ->
  toLowerCase w = map_chars lower_char w.
Proof. exact (folds_bytewise_sound registry_texts registry_folds_checked s w). Qed.

Lemma occurs_in_refl (s : string) : occurs_in s s.
Proof. exists EmptyString, EmptyString. cbn [append]. now rewrite string_app_nil_r. Qed.

Lemma entry_texts (c : Entry.t) :
  List.In c CALC_REGISTRY ->
  List.In (Entry.title c) registry_texts
  /\ List.In (Entry.keywords c) registry_texts.
Proof.
  intros H. unfold registry_texts.
  split; apply List.in_flat_map; exists c; (split; [exact H|]);
    cbn [List.In]; tauto.
Qed.

(** Looking for the folded query in a folded text of the registry is
    looking for the query in the text up to case. *)
Lemma occurs_folded (q s : string) :
  List.In s registry_texts ->
  occurs_in (toLowerCase q) (toLowerCase s) <-> occurs_ignoring_case q s.
Proof.
  intros Hs.
  rewrite (piece_folded s s Hs (occurs_in_refl s)).
  unfold occurs_ignoring_case. split.
  - intros (a & b & H).
    apply map_chars_split in H. destruct H as (sa & r & -> & <- & H).
    apply map_chars_split in H. destruct H as (w & sb & -> & Hw & <-).
    assert (Hocc : occurs_in w (sa ++ w ++ sb)) by now exists sa, sb.
    exists w. split; [exact Hocc|].
    now rewrite (piece_folded _ w Hs Hocc).
  - intros (w & Hocc & Hw).
    rewrite <- Hw, (piece_folded s w Hs Hocc).
    destruct Hocc as (a & b & ->).
    exists (map_chars lower_char a), (map_chars lower_char b).
    now rewrite !map_chars_app.
Qed.

Lemma filter_Subseq {A : Type} (f : A -> bool) (l : list A) :
  Subseq (List.filter f l) l.
Proof.
  induction l as [|x l IH]; simpl; [constructor|].
  destruct (f x); now constructor.
Qed.

Lemma Subseq_refl {A : Type} (l : list A) : Subseq l l.
Proof. induction l; now constructor. Qed.

Lemma matches_spec (query : string) (c : Entry.t) :
  List.In c CALC_REGISTRY ->
  WorldCalcHub.matches (folded query) c = true <->
  occurs_ignoring_case (trim query) (Entry.title c)
  \/ occurs_ignoring_case (trim query) (Entry.keywords c).
Proof.
  intros Hc. destruct (entry_texts c Hc) as [Ht Hk].
  unfold WorldCalcHub.matches, folded.
  now rewrite orb_true_iff, !includes_spec, !occurs_folded.
Qed.

Lemma truthy_false (s : string) : truthy s = false <-> s = EmptyString.
Proof. destruct s; simpl; split; congruence. Qed.

Lemma folded_empty (query : string) :
  folded query = EmptyString <-> blank query.
Proof. unfold folded. now rewrite toLowerCase_empty, trim_empty. Qed.

Lemma filtered_unfold (query : string) :
  WorldCalcHub.filtered query =
  if truthy (folded query)
  then List.filter (WorldCalcHub.matches (folded query)) CALC_REGISTRY
  else CALC_REGISTRY.
Proof.
  unfold WorldCalcHub.filtered, folded.
  now destruct (truthy (toLowerCase (trim query))).
Qed.

(** Up to the case of ASCII letters: for a query of ASCII characters,
    matching up to case is matching a piece that differs from the query in
    the case of letters at most. *)
Lemma occurs_same_letters (q s : string) :
  List.In s registry_texts -> ascii_text q ->
  occurs_ignoring_case q s <->
  exists w : string, same_letters w q /\ occurs_in w s.
Proof.
  intros Hs Hq. unfold occurs_ignoring_case. split.
  - intros (w & Hocc & Hw). exists w. split; [|exact Hocc].
    rewrite (piece_folded s w Hs Hocc), (toLowerCase_ascii q Hq) in Hw.
    now apply lower_same_letters.
  - intros (w & Hsame & Hocc). exists w. split; [exact Hocc|].
    now apply same_letters_folded.
Qed.

(** C4. [trim] takes the white space off both ends of the query.  When
    nothing but white space was typed, the filter returns the registry as
    it is.  Otherwise it returns the entries of the registry, in their
    order, whose title or keywords contain the trimmed query up to case,
    and only those; so it is empty when no entry does.  For a query of
    ASCII characters, up to case means that a piece of the title or of the
    keywords differs from the trimmed query in the case of letters at
    most.  The empty query gives the whole registry and ["zzz-no-match"]
    gives the empty list. *)
Theorem filtered_spec (query : string) :
  trimmed query (trim query)
  /\ (blank query -> WorldCalcHub.filtered query = CALC_REGISTRY)
  /\ (~ blank query ->
      Subseq (WorldCalcHub.filtered query) CALC_REGISTRY
      /\ (forall c : Entry.t,
            List.In c (WorldCalcHub.filtered query) <->
            List.In c CALC_REGISTRY
            /\ (occurs_ignoring_case (trim query) (Entry.title c)
                \/ occurs_ignoring_case (trim query) (Entry.keywords c)))
      /\ (ascii_text (trim query) ->
          forall c : Entry.t,
            List.In c (WorldCalcHub.filtered query) <->
            List.In c CALC_REGISTRY
            /\ exists w : string,
                 same_letters w (trim query)
                 /\ (occurs_in w (Entry.title c)
                     \/ occurs_in w (Entry.keywords c)))
      /\ ((forall c : Entry.t, List.In c CALC_REGISTRY ->
             ~ (occurs_ignoring_case (trim query) (Entry.title c)
                \/ occurs_ignoring_case (trim query) (Entry.keywords c))) ->
          WorldCalcHub.filtered query = []))
  /\ WorldCalcHub.filtered "" = CALC_REGISTRY
  /\ WorldCalcHub.filtered "zzz-no-match" = [].
Proof.
  split; [apply trim_trimmed|].
  split; [|split; [|split; vm_compute; reflexivity]].
  - intros Hq. apply folded_empty in Hq.
    rewrite filtered_unfold, Hq. reflexivity.
  - intros Hq.
    assert (Hf : WorldCalcHub.filtered query
                 = List.filter (WorldCalcHub.matches (folded query)) CALC_REGISTRY).
    { rewrite filtered_unfold.
      destruct (truthy (folded query)) eqn:E; [reflexivity|].
      apply truthy_false, folded_empty in E. contradiction. }
    assert (Hin : forall c : Entry.t,
              List.In c (WorldCalcHub.filtered query) <->
              List.In c CALC_REGISTRY
              /\ (occurs_ignoring_case (trim query) (Entry.title c)
                  \/ occurs_ignoring_case (trim query) (Entry.keywords c))).
    { intros c. rewrite Hf, List.filter_In. split.
      - intros [Hc Hm]. split; [exact Hc | now apply matches_spec].
      - intros [Hc Hm]. split; [exact Hc | now apply matches_spec]. }
    split; [rewrite Hf; apply filter_Subseq|].
    split; [exact Hin|]. split.
    + intros Hascii c. rewrite Hin. split.
      * intros [Hc Hm]. split; [exact Hc|].
        destruct (entry_texts c Hc) as [Ht Hk].
        destruct Hm as [Hm|Hm].
        -- apply (proj1 (occurs_same_letters _ _ Ht Hascii)) in Hm.
           destruct Hm as (w & Hw & Hocc). exists w. split; [exact Hw | now left].
        -- apply (proj1 (occurs_same_letters _ _ Hk Hascii)) in Hm.
           destruct Hm as (w & Hw & Hocc). exists w. split; [exact Hw | now right].
      * intros [Hc (w & Hw & Hocc)]. split; [exact Hc|].
        destruct (entry_texts c Hc) as [Ht Hk].
        destruct Hocc as [Hocc|Hocc].
        -- left. apply (proj2 (occurs_same_letters _ _ Ht Hascii)).
           exists w. split; assumption.
        -- right. apply (proj2 (occurs_same_letters _ _ Hk Hascii)).
           exists w. split; assumption.
    + intros Hnone.
      destruct (WorldCalcHub.filtered query) as [|c l] eqn:E; [reflexivity|].
      exfalso.
      destruct (proj1 (Hin c) (or_introl eq_refl)) as [Hc Hm].
      exact (Hnone c Hc Hm).
Qed.

Lemma filtered_spec_witness :
  List.In {| Entry.id := "age"; Entry.title := "Age";
             Entry.keywords := "age years months days";
             Entry.el := AgeCalculator_el |}
    (WorldCalcHub.filtered (utf8 [194; 160] ++ "aGe  "))
  /\ List.In {| Entry.id := "temp"; Entry.title := "Temperature";
                Entry.keywords := "celsius fahrenheit kelvin";
                Entry.el := TemperatureConverter_el |}
       (WorldCalcHub.filtered (utf8 [226; 132; 170] ++ "ELVIN")).
Proof.
  split.
  - destruct (filtered_spec (utf8 [194; 160] ++ "aGe  ")) as (_ & _ & H & _).
    assert (Hnb : ~ blank (utf8 [194; 160] ++ "aGe  ")).
    { intros Hb. apply trim_empty in Hb. revert Hb.
      replace (trim (utf8 [194; 160] ++ "aGe  ")) with "aGe"
        by (vm_compute; reflexivity).
      discriminate. }
    destruct (H Hnb) as (_ & _ & Ha & _).
    assert (Hascii : ascii_text (trim (utf8 [194; 160] ++ "aGe  "))).
    { replace (trim (utf8 [194; 160] ++ "aGe  ")) with "aGe"
        by (vm_compute; reflexivity).
      intros c Hin. cbn [list_ascii_of_string List.In] in Hin.
      repeat (destruct Hin as [<-|Hin]; [reflexivity|]). contradiction. }
    apply (proj2 (Ha Hascii _)).
    split; [vm_compute; do 5 right; left; reflexivity|].
      exists "Age". split; [|left; exists EmptyString, EmptyString; reflexivity].
      replace (trim (utf8 [194; 160] ++ "aGe  ")) with "aGe"
        by (vm_compute; reflexivity).
      apply same_letters_cons; [|apply same_letters_cons;
        [|apply same_letters_cons; [|apply same_letters_nil]]];
        (split; [reflexivity|split; [reflexivity|]]).
      * right. left. vm_compute. repeat split; discriminate.
      * right. right. vm_compute. repeat split; discriminate.
      * left. reflexivity.
  - destruct (filtered_spec (utf8 [226; 132; 170] ++ "ELVIN")) as (_ & _ & H & _).
    assert (Hnb : ~ blank (utf8 [226; 132; 170] ++ "ELVIN")).
    { intros Hb. apply trim_empty in Hb. revert Hb.
      replace (trim (utf8 [226; 132; 170] ++ "ELVIN"))
        with (utf8 [226; 132; 170] ++ "ELVIN")%string
        by (vm_compute; reflexivity).
      discriminate. }
    destruct (H Hnb) as (_ & Hin & _).
    apply (proj2 (Hin _)).
    split; [vm_compute; do 7 right; left; reflexivity|].
    right. exists "kelvin". split.
    + exists "celsius fahrenheit ", EmptyString. reflexivity.
    + vm_compute. reflexivity.
Defined.

(** ** Round trips of the converters *)

Local Ltac unit_cases H :=
  repeat (destruct H as [H|H]; [subst|]); [..|contradiction H].

Local Ltac exact_arith :=
  cbv [Unit.toCanonical Unit.fromCanonical plus minus times over literal
       int dec exact];
  cbn [Z.leb Z.compare Z.opp];
  repeat match goal with
         | |- context [Z.to_pos ?z] =>
             let p := eval vm_compute in (Z.to_pos z) in
             change (Z.to_pos z) with p
         | |- context [inject_Z ?z] =>
             let q := eval vm_compute in (inject_Z z) in
             change (inject_Z z) with q
         end;
  try (field; discriminate).

(** In exact arithmetic the two functions of a unit are inverse to each
    other. *)
Lemma unit_round_trip_exact (d : domain) (u : Unit.t Q) (x : Q) :
  List.In u (units_of d) ->
  Qeq (Unit.fromCanonical u (Unit.toCanonical u x)) x
  /\ Qeq (Unit.toCanonical u (Unit.fromCanonical u x)) x.
Proof.
  intros Hu.
  destruct d; cbn [units_of] in Hu;
    cbv [LengthConverter.units WeightConverter.units TimeConverter.units
         SpeedConverter.units AreaConverter.units] in Hu;
    unit_cases Hu; split; exact_arith; reflexivity.
Qed.

Lemma out_of_convert (d : domain) (val : value) (from to : string) :
  out_of d val from to =
  match convert d (toNum val zero) from to with Some y => y | None => NaN end.
Proof.
  rewrite out_of_unfold. unfold convert.
  now destruct (Unit.find (units_of d) from), (Unit.find (units_of d) to).
Qed.

Lemma find_listed {N : Type} (units : list (Unit.t N)) (name : string) :
  List.In name (List.map Unit.id units) ->
  exists u, Unit.find units name = Some u.
Proof.
  unfold Unit.find.
  induction units as [|u us IH]; simpl; [tauto|].
  intros Hin. destruct (String.eqb_spec (Unit.id u) name) as [E|E].
  - now exists u.
  - destruct Hin as [Hin|Hin]; [contradiction | now apply IH].
Qed.

(** The functions of the units respect equality of rationals. *)
Lemma unit_functions_proper (d : domain) (u : Unit.t Q) (x y : Q) :
  List.In u (units_of d) -> Qeq x y ->
  Qeq (Unit.toCanonical u x) (Unit.toCanonical u y)
  /\ Qeq (Unit.fromCanonical u x) (Unit.fromCanonical u y).
Proof.
  intros Hu Hxy.
  destruct d; cbn [units_of] in Hu;
    cbv [LengthConverter.units WeightConverter.units TimeConverter.units
         SpeedConverter.units AreaConverter.units] in Hu;
    unit_cases Hu; split;
    cbv [Unit.toCanonical Unit.fromCanonical plus minus times over];
    now rewrite Hxy.
Qed.

(** On binary64 the unit a domain goes through is listed under its name
    and converts to itself without any operation. *)
Lemma canonical_unit_identity (d : domain) :
  exists c : Unit.t number,
    Unit.find (units_of d) (canonical_id d) = Some c
    /\ forall y : number, Unit.fromCanonical c (Unit.toCanonical c y) = y.
Proof.
  destruct d; eexists; (split; [reflexivity | intros y; reflexivity]).
Qed.

Lemma sample_round_trips_sound (d : domain) (tol : Q) (k : nat) :
  sample_round_trips d tol k = true ->
  forall (f t : string) (n : Z),
    List.In f (List.map Unit.id (units_of (N := number) d)) ->
    List.In t (List.map Unit.id (units_of (N := number) d)) ->
    0 <= n <= Z.of_nat k ->
    within tol (out_of d (JNumber (out_of d (JNumber (of_Z n)) f t)) t f)
      (of_Z n) = true.
Proof.
  unfold sample_round_trips. intros H f t n Hf Ht Hn.
  rewrite List.forallb_forall in H. specialize (H f Hf).
  rewrite List.forallb_forall in H. specialize (H t Ht).
  rewrite List.forallb_forall in H. apply H. now apply range_in.
Qed.

Lemma sample_round_trips_checked (d : domain) :
  sample_round_trips d (1 # 2 ^ 51) 100 = true.
Proof. destruct d; vm_compute; reflexivity. Qed.

(** C1, amended.  In exact arithmetic, for every unit of every domain
    [fromCanonical (toCanonical x)] is [x], and converting between two
    listed units and back returns [x].  On binary64 the identity is exact
    for the canonical unit of each domain: converting a finite number from
    that unit to itself returns it; and for the whole numbers from 0 to
    100, converting between any two listed units and back stays within
    the relative error 2^-51. *)
Theorem round_trip_exact (d : domain) (u : Unit.t Q) (from to : string) (x : Q) :
  List.In u (units_of d) ->
  List.In from (List.map Unit.id (units_of (N := Q) d)) ->
  List.In to (List.map Unit.id (units_of (N := Q) d)) ->
  Qeq (Unit.fromCanonical u (Unit.toCanonical u x)) x
  /\ (exists y z : Q,
        convert d x from to = Some y /\ convert d y to from = Some z /\ Qeq z x)
  /\ (forall y : number, isFinite y = true ->
        out_of d (JNumber y) (canonical_id d) (canonical_id d) = y)
  /\ (forall (f t : string) (n : Z),
        List.In f (List.map Unit.id (units_of (N := number) d)) ->
        List.In t (List.map Unit.id (units_of (N := number) d)) ->
        0 <= n <= 100 ->
        within (1 # 2 ^ 51)
          (out_of d (JNumber (out_of d (JNumber (of_Z n)) f t)) t f)
          (of_Z n) = true).
Proof.
  intros Hu Hfrom Hto. split; [apply (unit_round_trip_exact d u x Hu)|].
  split; [|split].
  - destruct (find_listed _ _ Hfrom) as [f Hf].
    destruct (find_listed _ _ Hto) as [t Ht].
    unfold convert. rewrite Hf, Ht.
    do 2 eexists. split; [reflexivity|]. split; [reflexivity|].
    apply find_known in Hf. apply find_known in Ht.
    destruct Hf as [Hf _], Ht as [Ht _].
    transitivity (Unit.fromCanonical f (Unit.toCanonical f x)).
    + apply (unit_functions_proper d f _ _ Hf).
      apply (unit_round_trip_exact d t _ Ht).
    + apply (unit_round_trip_exact d f x Hf).
  - intros y Hy. rewrite out_of_unfold.
    destruct (canonical_unit_identity d) as (c & -> & Hc).
    unfold toNum. rewrite Hy. apply Hc.
  - intros f t n Hf Ht Hn.
    exact (sample_round_trips_sound d _ 100 (sample_round_trips_checked d)
             f t n Hf Ht Hn).
Qed.

Lemma round_trip_exact_witness :
  exists y z : Q,
    convert Length (7 # 1) "cm" "ft" = Some y
    /\ convert Length y "ft" "cm" = Some z /\ Qeq z (7 # 1).
Proof.
  refine (proj1 (proj2 (round_trip_exact Length
            {| Unit.id := "cm";
               Unit.toCanonical := fun v => (v / int 100)%num;
               Unit.fromCanonical := fun v => (v * int 100)%num |}
            "cm" "ft" (7 # 1) _ _ _))).
  - right. left. reflexivity.
  - right. left. reflexivity.
  - do 5 right. left. reflexivity.
Defined.

(** C1 as stated fails on binary64: 7 cm goes to 7/100 m and comes back as
    7.000000000000001 cm; and 1e308 km to mm overflows, after which the way
    back yields 0. *)
Lemma round_trip_binary64_inexact :
  isFinite (of_Z 7) = true
  /\ (exists u : Unit.t number,
        Unit.find LengthConverter.units "cm" = Some u
        /\ Unit.fromCanonical u (Unit.toCanonical u (of_Z 7))
           = decimal false 7000000000000001 (-15)
        /\ strict_eq (Unit.fromCanonical u (Unit.toCanonical u (of_Z 7)))
                     (of_Z 7) = false)
  /\ isFinite (decimal false 1 308) = true
  /\ LengthConverter.out (JNumber (decimal false 1 308)) "km" "mm" = Infinity
  /\ LengthConverter.out (JNumber Infinity) "mm" "km" = zero.
Proof.
  split; [reflexivity|]. split.
  - eexists. split; [reflexivity|]. split; vm_compute; reflexivity.
  - repeat split; vm_compute; reflexivity.
Qed.

(** ** GST: add, then remove *)

Lemma gst_exact_unfold (a rate : Q) :
  Qeq (GSTCalculator.total
         (GSTCalculator.formula
            (GSTCalculator.total (GSTCalculator.formula a rate "Add GST"))
            rate "Remove GST"))
      ((a + a * (rate / 100)) / (1 + rate / 100))%Q.
Proof. reflexivity. Qed.

Lemma sample_gst_sound (tol : Q) (ka kr : nat) :
  sample_gst tol ka kr = true ->
  forall n r : Z,
    0 <= n <= Z.of_nat ka -> 0 <= r <= Z.of_nat kr ->
    within tol
      (GSTCalculator.total
         (GSTCalculator.calc
            (JNumber (GSTCalculator.total
                        (GSTCalculator.calc (JNumber (of_Z n))
                           (JNumber (of_Z r)) "Add GST")))
            (JNumber (of_Z r)) "Remove GST"))
      (of_Z n) = true.
Proof.
  unfold sample_gst. intros H n r Hn Hr.
  rewrite List.forallb_forall in H. specialize (H n (range_in ka n Hn)).
  rewrite List.forallb_forall in H. exact (H r (range_in kr r Hr)).
Qed.

Lemma sample_gst_checked : sample_gst (1 # 2 ^ 51) 100 100 = true.
Proof. vm_compute. reflexivity. Qed.

(** C3, amended.  In exact arithmetic, for every amount and every rate
    other than -100 percent, removing the tax from the total that adding
    it gave returns the amount.  On binary64, for whole amounts from 0 to
    100 at whole rates from 0 to 100 percent, the result stays within the
    relative error 2^-51 of the amount. *)
Theorem gst_add_then_remove (a rate : Q) :
  ~ Qeq rate (-100 # 1) ->
  Qeq (GSTCalculator.total
         (GSTCalculator.formula
            (GSTCalculator.total (GSTCalculator.formula a rate "Add GST"))
            rate "Remove GST"))
      a
  /\ (forall n r : Z,
        0 <= n <= 100 -> 0 <= r <= 100 ->
        within (1 # 2 ^ 51)
          (GSTCalculator.total
             (GSTCalculator.calc
                (JNumber (GSTCalculator.total
                            (GSTCalculator.calc (JNumber (of_Z n))
                               (JNumber (of_Z r)) "Add GST")))
                (JNumber (of_Z r)) "Remove GST"))
          (of_Z n) = true).
Proof.
  intros Hrate. split.
  - rewrite gst_exact_unfold. field.
    intros H. apply Hrate.
    setoid_replace rate with ((100 + rate) - 100)%Q by ring.
    rewrite H. reflexivity.
  - intros n r Hn Hr.
    exact (sample_gst_sound _ 100 100 sample_gst_checked n r Hn Hr).
Qed.

Lemma gst_add_then_remove_witness :
  Qeq (GSTCalculator.total
         (GSTCalculator.formula
            (GSTCalculator.total
               (GSTCalculator.formula (1000 # 1) (18 # 1) "Add GST"))
            (18 # 1) "Remove GST"))
      (1000 # 1).
Proof.
  refine (proj1 (gst_add_then_remove (1000 # 1) (18 # 1) _)).
  discriminate.
Defined.

(** C3 as stated fails at the rate -100 percent: adding the tax to 1000
    gives the total 0, and removing it again divides 0 by 0. *)
Lemma gst_round_trip_minus_100 :
  GSTCalculator.total
    (GSTCalculator.calc (JNumber (of_Z 1000)) (JString "-100") "Add GST")
  = zero
  /\ GSTCalculator.total
       (GSTCalculator.calc
          (JNumber (GSTCalculator.total
                      (GSTCalculator.calc (JNumber (of_Z 1000))
                         (JString "-100") "Add GST")))
          (JString "-100") "Remove GST")
     = NaN.
Proof. split; vm_compute; reflexivity. Qed.

(** ** Integers that binary64 holds exactly *)

Lemma digits2_bounds (p : positive) :
  2 ^ (Z.pos (digits2_pos p) - 1) <= Z.pos p < 2 ^ Z.pos (digits2_pos p).
Proof.
  induction p as [p IH|p IH|]; cbn [digits2_pos]; [| |simpl; lia];
    rewrite Pos2Z.inj_succ;
    replace (Z.succ (Z.pos (digits2_pos p)) - 1)
      with (Z.succ (Z.pos (digits2_pos p) - 1)) by lia;
    rewrite !Z.pow_succ_r by lia; lia.
Qed.

Lemma iter_xO_value (p k : positive) :
  Z.pos (Pos.iter xO p k) = Z.pos p * 2 ^ Z.pos k.
Proof.
  induction k as [|k IH] using Pos.peano_ind.
  - simpl. lia.
  - rewrite Pos.iter_succ, Pos2Z.inj_xO, IH, Pos2Z.inj_succ, Z.pow_succ_r; lia.
Qed.

Lemma iter_xO_digits (p k : positive) :
  Z.pos (digits2_pos (Pos.iter xO p k)) = Z.pos (digits2_pos p) + Z.pos k.
Proof.
  induction k as [|k IH] using Pos.peano_ind.
  - simpl. lia.
  - rewrite Pos.iter_succ. cbn [digits2_pos].
    rewrite Pos2Z.inj_succ, IH, Pos2Z.inj_succ. lia.
Qed.

(** A mantissa of full width with an exponent in range is left as it is by
    rounding. *)
Lemma binary_round_aux_full (s : bool) (m : positive) (e : Z) :
  Z.pos (digits2_pos m) = prec -> -1074 <= e <= 971 ->
  binary_round_aux prec emax s (Z.pos m) e loc_Exact = S754_finite s m e.
Proof.
  intros Hd He.
  assert (Hshift : fexp prec emax (Zdigits2 (Z.pos m) + e) - e = 0).
  { unfold fexp, emin, Zdigits2. rewrite Hd. unfold prec, emax. lia. }
  unfold binary_round_aux, shr_fexp.
  cbn [shr_record_of_loc]. rewrite Hshift. cbn [shr shr_m loc_of_shr_record round_nearest_even].
  rewrite Hshift. cbn [shr shr_m].
  replace (e <=? emax - prec) with true; [reflexivity|].
  symmetry. apply Z.leb_le. unfold emax, prec. lia.
Qed.

Lemma binary_round_small (s : bool) (p : positive) :
  Z.pos p < 2 ^ 53 ->
  exists (m : positive) (e : Z),
    binary_round prec emax s p 0 = S754_finite s m e
    /\ e <= 0 /\ Z.pos m = Z.pos p * 2 ^ (- e).
Proof.
  intros Hp.
  pose proof (digits2_bounds p) as [Hlo Hhi].
  assert (Hd : 1 <= Z.pos (digits2_pos p) <= 53).
  { split; [lia|].
    destruct (Z.le_gt_cases (Z.pos (digits2_pos p)) 53) as [H|H]; [exact H|].
    exfalso.
    assert (2 ^ 53 <= 2 ^ (Z.pos (digits2_pos p) - 1))
      by (apply Z.pow_le_mono_r; lia).
    lia. }
  unfold binary_round.
  assert (Hf : fexp prec emax (Z.pos (digits2_pos p) + 0)
               = Z.pos (digits2_pos p) - 53).
  { unfold fexp, emin, prec, emax. lia. }
  rewrite Hf. unfold shl_align.
  destruct (Z.pos (digits2_pos p) - 53 - 0) as [|k|k] eqn:Ek; [|lia|].
  - exists p, 0. split.
    + apply binary_round_aux_full; [unfold prec|]; lia.
    + split; [lia|]. simpl. lia.
  - exists (Pos.iter xO p k), (Z.pos (digits2_pos p) - 53). split.
    + apply binary_round_aux_full.
      * rewrite iter_xO_digits. unfold prec. lia.
      * lia.
    + split; [lia|]. rewrite iter_xO_value. f_equal. f_equal. lia.
Qed.

(** Every integer from 1 to 2^53 is a Number, with either sign. *)
Lemma of_Z_exact (neg : bool) (z : Z) :
  0 < z <= MAX_EXACT ->
  exists (m : positive) (e : Z),
    of_Z (if neg then - z else z) = S754_finite neg m e
    /\ floor_Z (S754_finite false m e) = z.
Proof.
  intros [Hpos Hle].
  destruct (Z.eq_dec z MAX_EXACT) as [->|Hne].
  - exists (2 ^ 52)%positive, 1. destruct neg; split; vm_compute; reflexivity.
  - destruct z as [|p|p]; try lia.
    assert (Hp : Z.pos p < 2 ^ 53) by (unfold MAX_EXACT in *; lia).
    destruct (binary_round_small neg p Hp) as (m & e & Hr & He & Hm).
    exists m, e. split.
    + unfold of_Z, binary_normalize. destruct neg; exact Hr.
    + unfold floor_Z. destruct (0 <=? e) eqn:E.
      * apply Z.leb_le in E. replace e with 0 in * by lia.
        simpl in Hm. lia.
      * rewrite Hm. apply Z.div_mul.
        apply Z.pow_nonzero; lia.
Qed.

(** ** What [parseInt] returns *)

Lemma shr_exponent (mrs : shr_record) (e n : Z) :
  e <= snd (shr mrs e n).
Proof. destruct n; simpl; lia. Qed.

(** Rounding never lowers the exponent it is given. *)
Lemma binary_round_aux_exponent (s : bool) (mx ex : Z) (lx : location)
    (s' : bool) (m : positive) (e : Z) :
  binary_round_aux prec emax s mx ex lx = S754_finite s' m e -> ex <= e.
Proof.
  unfold binary_round_aux, shr_fexp.
  set (n1 := fexp prec emax (Zdigits2 mx + ex) - ex).
  pose proof (shr_exponent (shr_record_of_loc mx lx) ex n1) as H1.
  destruct (shr (shr_record_of_loc mx lx) ex n1) as [mrs' e'].
  set (m1 := round_nearest_even (shr_m mrs') (loc_of_shr_record mrs')).
  set (n2 := fexp prec emax (Zdigits2 m1 + e') - e').
  pose proof (shr_exponent (shr_record_of_loc m1 loc_Exact) e' n2) as H2.
  destruct (shr (shr_record_of_loc m1 loc_Exact) e' n2) as [mrs'' e''].
  simpl in H1, H2.
  destruct (shr_m mrs''); try discriminate.
  destruct (e'' <=? emax - prec); [|discriminate].
  intros H. injection H as _ _ <-. lia.
Qed.


Lemma binary_round_integer (s : bool) (p : positive) :
  match binary_round prec emax s p 0 with
  | S754_finite s' m e => is_integer (S754_finite s' m e) = true
  | _ => True
  end.
Proof.
  destruct (Z_lt_le_dec (Z.pos p) (2 ^ 53)) as [Hsmall|Hbig].
  - destruct (binary_round_small s p Hsmall) as (m & e & -> & He & Hm).
    unfold is_integer. rewrite Hm, Z.mod_mul by (apply Z.pow_nonzero; lia).
    apply orb_true_r.
  - destruct (binary_round prec emax s p 0) as [| | |s' m e] eqn:E; try exact I.
    pose proof (digits2_bounds p) as [_ Hhi].
    assert (Hd : 53 < Z.pos (digits2_pos p)).
    { apply (Z.pow_lt_mono_r_iff 2); lia. }
    unfold binary_round in E.
    assert (Hf : fexp prec emax (Z.pos (digits2_pos p) + 0)
                 = Z.pos (digits2_pos p) - 53)
      by (unfold fexp, emin, prec, emax; lia).
    rewrite Hf in E. unfold shl_align in E.
    destruct (Z.pos (digits2_pos p) - 53 - 0) eqn:Ek; try lia.
    apply binary_round_aux_exponent in E.
    unfold is_integer. now apply Z.leb_le in E as ->.
Qed.

Lemma of_Z_integer (z : Z) :
  isFinite (of_Z z) = true -> is_integer (of_Z z) = true.
Proof.
  unfold of_Z, binary_normalize.
  destruct z as [|p|p]; [reflexivity| |].
  - pose proof (binary_round_integer false p) as H.
    destruct (binary_round prec emax false p 0); try discriminate;
      [reflexivity | intros _; exact H].
  - pose proof (binary_round_integer true p) as H.
    destruct (binary_round prec emax true p 0); try discriminate;
      [reflexivity | intros _; exact H].
Qed.

(** ** Numerals *)

Lemma digit_round_trip_nat (n : nat) :
  (n < 36)%nat ->
  digit_value (upper_char (digit_char (Z.of_nat n))) = Some (Z.of_nat n)
  /\ (0 < Z.of_nat n ->
      Ascii.eqb "0" (upper_char (digit_char (Z.of_nat n))) = false).
Proof.
  intros Hn.
  do 36 (destruct n as [|n]; [split; [reflexivity | intros; first [lia | reflexivity]]|]).
  lia.
Qed.

Lemma digit_round_trip (d : Z) :
  0 <= d < 36 ->
  digit_value (upper_char (digit_char d)) = Some d
  /\ (0 < d -> Ascii.eqb "0" (upper_char (digit_char d)) = false).
Proof.
  intros Hd. rewrite <- (Z2Nat.id d) by lia.
  apply digit_round_trip_nat. lia.
Qed.

Lemma read_digits_step (R a n d : Z) (s : string) :
  0 <= d < 36 -> d < R ->
  read_digits R a n (String (upper_char (digit_char d)) s)
  = read_digits R (a * R + d) (n + 1) s.
Proof.
  intros Hd HR. cbn [read_digits].
  destruct (digit_round_trip d Hd) as [-> _].
  now apply Z.ltb_lt in HR as ->.
Qed.

Lemma digits_from_S (fuel : nat) (R z : Z) (acc : string) :
  digits_from (S fuel) R z acc =
  if z / R =? 0 then String (digit_char (z mod R)) acc
  else digits_from fuel R (z / R) (String (digit_char (z mod R)) acc).
Proof. reflexivity. Qed.

(** Reading back what [digits_from] wrote: the digits of [z] are some
    [k >= 1] characters in front of the accumulator. *)
Lemma digits_from_read (R : Z) (fuel : nat) :
  2 <= R <= 36 ->
  forall (z : Z) (acc : string),
    0 <= z < 2 ^ Z.of_nat (S fuel) ->
    exists k : Z,
      1 <= k
      /\ Z.of_nat (String.length (digits_from (S fuel) R z acc))
         = k + Z.of_nat (String.length acc)
      /\ (forall a n : Z,
            read_digits R a n (map_chars upper_char (digits_from (S fuel) R z acc))
            = read_digits R (a * R ^ k + z) (n + k) (map_chars upper_char acc))
      /\ (0 < z ->
          startsWith (map_chars upper_char (digits_from (S fuel) R z acc)) "0" = false)
      /\ (z = 0 -> digits_from (S fuel) R z acc = String "0" acc).
Proof.
  intros HR. induction fuel as [|fuel IH]; intros z acc Hz.
  - (* z < 2 <= R: one digit *)
    assert (Hq : z / R = 0) by (apply Z.div_small; simpl in Hz; lia).
    assert (Hm : z mod R = z) by (apply Z.mod_small; simpl in Hz; lia).
    cbn [digits_from]. rewrite Hq, Hm. cbn [Z.eqb].
    exists 1. split; [lia|]. split; [cbn [String.length]; lia|].
    assert (Hd : 0 <= z < 36) by (simpl in Hz; lia).
    split; [|split].
    + intros a n. cbn [map_chars].
      rewrite read_digits_step by lia. now rewrite Z.pow_1_r.
    + intros Hpos. cbn [map_chars startsWith].
      destruct (digit_round_trip z Hd) as (_ & H0). now rewrite H0.
    + intros ->. reflexivity.
  - assert (Hmod : 0 <= z mod R < R) by (apply Z.mod_pos_bound; lia).
    assert (Hdiv : z = R * (z / R) + z mod R) by (apply Z.div_mod; lia).
    assert (Hq0 : 0 <= z / R) by (apply Z.div_pos; lia).
    rewrite (digits_from_S (S fuel)).
    destruct (z / R =? 0) eqn:E.
    + apply Z.eqb_eq in E. rewrite E in Hdiv.
      exists 1. split; [lia|]. split; [cbn [String.length]; lia|].
      split; [|split].
      * intros a n. cbn [map_chars].
        rewrite read_digits_step by lia. rewrite Z.pow_1_r. f_equal. lia.
      * intros Hpos. cbn [map_chars startsWith].
        destruct (digit_round_trip (z mod R)) as (_ & H0); [lia|].
        rewrite H0; [reflexivity | lia].
      * intros ->. reflexivity.
    + apply Z.eqb_neq in E.
      assert (Hq : 0 <= z / R < 2 ^ Z.of_nat (S fuel)).
      { split; [exact Hq0|].
        apply Z.div_lt_upper_bound; [lia|].
        replace (Z.of_nat (S (S fuel))) with (Z.succ (Z.of_nat (S fuel))) in Hz by lia.
        rewrite Z.pow_succ_r in Hz by lia.
        assert (0 < 2 ^ Z.of_nat (S fuel)) by (apply Z.pow_pos_nonneg; lia).
        nia. }
      destruct (IH (z / R) (String (digit_char (z mod R)) acc) Hq)
        as (k & Hk & Hlen & Hread & Hlead & _).
      exists (k + 1). split; [lia|]. split; [|split; [|split]].
      * rewrite Hlen. cbn [String.length]. lia.
      * intros a n. rewrite Hread. cbn [map_chars].
        rewrite read_digits_step by lia.
        rewrite Z.pow_add_r, Z.pow_1_r by lia.
        f_equal; [|lia].
        remember (z / R) as q. remember (z mod R) as r.
        rewrite Hdiv. ring.
      * intros _. apply Hlead. lia.
      * intros ->. rewrite Z.div_0_l in E by lia. contradiction.
Qed.

Lemma map_chars_length (f : ascii -> ascii) (s : string) :
  String.length (map_chars f s) = String.length s.
Proof. induction s as [|c s IH]; simpl; [reflexivity | now rewrite IH]. Qed.

Lemma upper_chars_idempotent (s : string) :
  (forall c, List.In c (list_ascii_of_string s) -> upper_char (upper_char c) = upper_char c) ->
  map_chars upper_char (map_chars upper_char s) = map_chars upper_char s.
Proof.
  induction s as [|c s IH]; simpl; intros H; [reflexivity|].
  rewrite H by now left. f_equal. apply IH. intros c' Hc'. apply H. now right.
Qed.

Lemma upper_char_idempotent (c : ascii) : upper_char (upper_char c) = upper_char c.
Proof.
  destruct c as [[] [] [] [] [] [] [] []]; reflexivity.
Qed.

Lemma Z_lt_pow2_log2 (z : Z) : 0 <= z -> z < 2 ^ Z.of_nat (S (Z.to_nat (Z.log2 z))).
Proof.
  intros Hz. destruct (Z.eq_dec z 0) as [->|Hne]; [reflexivity|].
  rewrite Nat2Z.inj_succ, Z2Nat.id by apply Z.log2_nonneg.
  apply Z.log2_spec. lia.
Qed.

Lemma map_chars_ascii (f : ascii -> ascii) (s : string) :
  (forall c : ascii, code c < 128 -> code (f c) < 128) ->
  ascii_text s -> ascii_text (map_chars f s).
Proof.
  intros Hf. induction s as [|c s IH]; intros Hs c' Hin; [contradiction|].
  destruct Hin as [<-|Hin].
  - apply Hf, Hs. now left.
  - apply IH; [|exact Hin]. intros c'' H. apply Hs. now right.
Qed.

Lemma upper_char_ascii (c : ascii) : code c < 128 -> code (upper_char c) < 128.
Proof. intros H. apply case_char_ascii. now apply Z.ltb_lt. Qed.

Lemma digit_char_ascii (d : Z) : 0 <= d < 36 -> code (digit_char d) < 128.
Proof.
  intros Hd. unfold digit_char, code.
  destruct (d <? 10); rewrite nat_ascii_embedding; lia.
Qed.

Lemma digits_from_ascii (R : Z) (fuel : nat) :
  2 <= R <= 36 ->
  forall (z : Z) (acc : string),
    ascii_text acc -> ascii_text (digits_from fuel R z acc).
Proof.
  intros HR. induction fuel as [|fuel IH]; intros z acc Hacc; [exact Hacc|].
  assert (Hmod : 0 <= z mod R < R) by (apply Z.mod_pos_bound; lia).
  assert (Hacc' : ascii_text (String (digit_char (z mod R)) acc)).
  { intros c [<-|Hin]; [apply digit_char_ascii; lia | now apply Hacc]. }
  rewrite digits_from_S.
  destruct (z / R =? 0); [exact Hacc' | now apply IH].
Qed.

Lemma to_digits_ascii (R z : Z) : 2 <= R <= 36 -> ascii_text (to_digits R z).
Proof.
  intros HR. unfold to_digits. apply digits_from_ascii; [exact HR|].
  intros c [].
Qed.

(** The digits are ASCII characters, so their upper case is taken byte by
    byte. *)
Lemma to_digits_upper (R z : Z) :
  2 <= R <= 36 ->
  toUpperCase (to_digits R z) = map_chars upper_char (to_digits R z).
Proof. intros HR. apply toUpperCase_ascii. now apply to_digits_ascii. Qed.

(** The upper-case digits of [z] in radix [R] are its numeral. *)
Lemma to_digits_numeral (R z : Z) :
  2 <= R <= 36 -> 0 <= z -> numeral_of R z (toUpperCase (to_digits R z)).
Proof.
  intros HR Hz. rewrite to_digits_upper by exact HR.
  pose proof (to_digits_ascii R z HR) as Hascii.
  unfold to_digits in *.
  destruct (digits_from_read R (Z.to_nat (Z.log2 z)) HR z EmptyString)
    as (k & Hk & Hlen & Hread & Hlead & Hzero).
  { split; [exact Hz | now apply Z_lt_pow2_log2]. }
  set (ds := digits_from (S (Z.to_nat (Z.log2 z))) R z EmptyString) in *.
  assert (Hlen' : Z.of_nat (String.length (map_chars upper_char ds)) = k).
  { rewrite map_chars_length, Hlen. simpl. lia. }
  unfold numeral_of. split; [|split; [|split]].
  - rewrite Hread, Hlen'.
    replace (0 * R ^ k + z) with z by lia. replace (0 + k) with k by lia.
    reflexivity.
  - intros H. rewrite H in Hlen'. simpl in Hlen'. lia.
  - rewrite toUpperCase_ascii
      by (apply map_chars_ascii; [apply upper_char_ascii | exact Hascii]).
    apply upper_chars_idempotent. intros c _. apply upper_char_idempotent.
  - intros H0. destruct (Z.eq_dec z 0) as [E|E].
    + now rewrite (Hzero E).
    + rewrite Hlead in H0 by lia. discriminate.
Qed.

(** ** Base converter *)

Lemma read_digits_grows (R : Z) (s : string) :
  0 <= R ->
  forall acc n z k r,
    read_digits R acc n s = (z, k, r) -> 0 <= acc -> 0 <= n ->
    0 <= z /\ n <= k
    /\ Z.of_nat (String.length s) = (k - n) + Z.of_nat (String.length r).
Proof.
  intros HR. induction s as [|c s IH]; intros acc n z k r H Hacc Hn.
  - injection H as <- <- <-. simpl. lia.
  - cbn [read_digits] in H.
    destruct (digit_value c) as [d|] eqn:Ed.
    + destruct (d <? R) eqn:Elt.
      * assert (0 <= d).
        { unfold digit_value in Ed.
          repeat match type of Ed with
                 | (if ?b then _ else _) = _ => destruct b eqn:?
                 end; try discriminate; injection Ed as <-; lia. }
        apply IH in H; [|nia|lia].
        cbn [String.length]. lia.
      * injection H as <- <- <-. cbn [String.length]. lia.
    + injection H as <- <- <-. cbn [String.length]. lia.
Qed.

Lemma parseInt_math_nonneg (val : string) (R : Z) (neg : bool) (z : Z) :
  parseInt_math val R = Some (neg, z) -> 0 <= z.
Proof.
  unfold parseInt_math.
  destruct (read_sign (trimStart val)) as [sg s1].
  destruct ((R =? 0) || ((2 <=? R) && (R <=? 36))) eqn:ER; [|discriminate].
  match goal with
  | |- match ?p with pair _ _ => _ end = _ -> _ =>
      assert (HR' : 0 <= fst p); [|destruct p as [R' s2]]
  end.
  { destruct ((R =? 0) || (R =? 16)).
    - destruct (strip_hex_prefix s1); simpl; [lia|].
      destruct (R =? 0) eqn:E0; simpl; [lia|]. simpl in ER. lia.
    - simpl. rewrite orb_true_iff, andb_true_iff in ER. lia. }
  simpl in HR'.
  destruct (read_digits R' 0 0 s2) as [[z' n] r] eqn:Erd.
  destruct (n =? 0); [discriminate|].
  intros H. injection H as <- <-.
  apply (read_digits_grows R' s2 HR' 0 0 z' n r Erd); lia.
Qed.

Lemma rounds_exactly_small (radix z : Z) :
  z <= MAX_EXACT -> rounds_exactly radix z = true.
Proof. intros H. unfold rounds_exactly. now apply Z.leb_le in H as ->. Qed.

Lemma out_unparsable (E : engine) (val : string) (from to : Z) :
  parseInt_math val from = None -> BaseConverter.out E val from to = "-".
Proof.
  intros H. unfold BaseConverter.out, parseInt. now rewrite H.
Qed.

(** The text of an integer up to 2^53 is its digits, whatever the engine. *)
Lemma toString_exact (E : engine) (neg : bool) (z to : Z) :
  0 < z <= MAX_EXACT ->
  Number_toString E (of_Z (if neg then - z else z)) to
  = ((if neg then "-" else "") ++ to_digits to z)%string.
Proof.
  intros Hz.
  destruct (of_Z_exact neg z Hz) as (m & e & Hof & Hfl).
  assert (Hint : is_integer (of_Z (if neg then - z else z)) = true)
    by (apply of_Z_integer; now rewrite Hof).
  rewrite Hof in Hint |- *.
  unfold Number_toString. rewrite Hint. cbn [negb SFabs].
  rewrite Hfl, Z.abs_eq by lia.
  now replace (z <=? MAX_EXACT) with true by (symmetry; apply Z.leb_le; lia).
Qed.

Lemma of_Z_not_nan (neg : bool) (z : Z) :
  0 < z <= MAX_EXACT -> isNaN (of_Z (if neg then - z else z)) = false.
Proof.
  intros Hz. destruct (of_Z_exact neg z Hz) as (m & e & -> & _). reflexivity.
Qed.

Lemma upper_signed (neg : bool) (R z : Z) :
  2 <= R <= 36 ->
  toUpperCase ((if neg then "-" else "") ++ to_digits R z)
  = ((if neg then "-" else "") ++ toUpperCase (to_digits R z))%string.
Proof.
  intros HR. destruct neg; [|reflexivity].
  cbn [append]. rewrite toUpperCase_ascii.
  - cbn [map_chars]. now rewrite to_digits_upper.
  - intros c [<-|Hin]; [reflexivity | now apply (to_digits_ascii R z HR)].
Qed.

Lemma out_exact (E : engine) (val : string) (from to : Z) (neg : bool) (z : Z) :
  2 <= to <= 36 ->
  parseInt_math val from = Some (neg, z) -> z <= MAX_EXACT ->
  exists ds : string,
    numeral_of to z ds
    /\ BaseConverter.out E val from to
       = ((if neg && (0 <? z)%Z then "-" else "") ++ ds)%string.
Proof.
  intros Hto Hp Hz.
  pose proof (parseInt_math_nonneg val from neg z Hp) as Hz0.
  exists (toUpperCase (to_digits to z)).
  split; [now apply to_digits_numeral|].
  unfold BaseConverter.out, parseInt. rewrite Hp.
  destruct (z =? 0) eqn:E0.
  - apply Z.eqb_eq in E0. subst z.
    rewrite andb_false_r. reflexivity.
  - apply Z.eqb_neq in E0.
    rewrite rounds_exactly_small by exact Hz.
    rewrite of_Z_not_nan, toString_exact, upper_signed by lia.
    replace (0 <? z) with true by (symmetry; apply Z.ltb_lt; lia).
    now rewrite andb_true_r.
Qed.

Lemma digit_is_plain (c : ascii) (d : Z) :
  digit_value c = Some d ->
  code c < 128 /\ white_space (code c) = false
  /\ c <> "-"%char /\ c <> "+"%char
  /\ (c = "x"%char \/ c = "X"%char -> 16 <= d)
  /\ (c = "I"%char -> 10 <= d).
Proof.
  destruct c as [[] [] [] [] [] [] [] []]; vm_compute; intros H;
    try discriminate H;
    (repeat split; try discriminate;
     try (intros [E|E]; try discriminate E; injection H as <-; discriminate);
     intros E; try discriminate E; injection H as <-; discriminate).
Qed.


Lemma not_starts_white_plain (c : ascii) (r : string) :
  code c < 128 -> white_space (code c) = false ->
  ~ starts_white (String c r).
Proof.
  intros Hc Hw. apply not_starts_white. now rewrite head_ascii.
Qed.

Lemma read_sign_plain (c : ascii) (r : string) :
  c <> "-"%char -> c <> "+"%char ->
  read_sign (String c r) = (false, String c r).
Proof.
  intros Hm Hp.
  destruct c as [[] [] [] [] [] [] [] []]; try reflexivity; congruence.
Qed.

Lemma startsWith_char (c a : ascii) (r : string) :
  startsWith (String c r) (String a EmptyString) = Ascii.eqb a c.
Proof. cbn [startsWith]. destruct r; apply andb_true_r. Qed.

Lemma read_sign_unsigned (body : string) :
  startsWith body "-" = false -> startsWith body "+" = false ->
  read_sign body = (false, body).
Proof.
  destruct body as [|c r]; [reflexivity|].
  rewrite !startsWith_char. intros Hm Hp.
  apply read_sign_plain; intros ->; discriminate.
Qed.

Lemma strip_hex_prefix_none (body : string) :
  startsWith body "0x" = false -> startsWith body "0X" = false ->
  strip_hex_prefix body = None.
Proof.
  destruct body as [|c1 [|c2 r]]; intros Hx HX.
  - reflexivity.
  - destruct c1 as [[] [] [] [] [] [] [] []]; reflexivity.
  - cbn [startsWith] in Hx, HX.
    replace (startsWith r "") with true in Hx, HX by now destruct r.
    rewrite andb_true_r in Hx, HX.
    destruct (Ascii.eqb_spec "0"%char c1) as [<-|Hc1].
    + cbn [andb] in Hx, HX. unfold strip_hex_prefix.
      now rewrite (Ascii.eqb_sym c2), Hx, (Ascii.eqb_sym c2), HX.
    + destruct c1 as [[] [] [] [] [] [] [] []]; try reflexivity.
      exfalso. now apply Hc1.
Qed.

Lemma read_digits_stops (R : Z) (s : string) (acc n : Z) :
  stops R s -> read_digits R acc n s = (acc, n, s).
Proof.
  destruct s as [|c r]; [reflexivity|]. cbn [stops read_digits]. intros H.
  destruct (digit_value c) as [d|] eqn:Ed; [|reflexivity].
  specialize (H d Ed).
  now replace (d <? R) with false by (symmetry; apply Z.ltb_ge; lia).
Qed.

Lemma read_digits_app (R : Z) (s1 s2 : string) :
  stops R s2 ->
  forall acc n z k : Z,
    read_digits R acc n s1 = (z, k, EmptyString) ->
    read_digits R acc n (s1 ++ s2) = (z, k, s2).
Proof.
  intros Hs. induction s1 as [|c s1 IH]; intros acc n z k H.
  - injection H as <- <-. cbn [append]. now apply read_digits_stops.
  - cbn [append read_digits] in H |- *.
    destruct (digit_value c) as [d|]; [|discriminate H].
    destruct (d <? R); [now apply IH | discriminate H].
Qed.

(** What [read_digits] reads is a run of digits in front of a text that
    stops the reading. *)
Lemma read_digits_split (R : Z) (s : string) :
  forall (acc n z k : Z) (rest : string),
    read_digits R acc n s = (z, k, rest) ->
    exists ds : string,
      s = (ds ++ rest)%string /\ stops R rest
      /\ read_digits R acc n ds = (z, k, EmptyString)
      /\ (ds = EmptyString -> z = acc /\ k = n).
Proof.
  induction s as [|c s IH]; intros acc n z k rest H.
  - injection H as <- <- <-. exists EmptyString. now repeat split.
  - cbn [read_digits] in H.
    destruct (digit_value c) as [d|] eqn:Ed.
    + destruct (d <? R) eqn:Elt.
      * destruct (IH _ _ _ _ _ H) as (ds & -> & Hst & Hrd & _).
        exists (String c ds). split; [reflexivity|]. split; [exact Hst|].
        split; [|discriminate]. cbn [read_digits]. now rewrite Ed, Elt.
      * injection H as <- <- <-. exists EmptyString.
        split; [reflexivity|]. split; [|now split].
        intros d' Hd'. cbn [stops]. rewrite Ed in Hd'. injection Hd' as <-.
        now apply Z.ltb_ge.
    + injection H as <- <- <-. exists EmptyString.
      split; [reflexivity|]. split; [|now split].
      intros d' Hd'. cbn [stops]. rewrite Ed in Hd'. discriminate Hd'.
Qed.

(** [parseInt] reads the digits that follow the white space, the sign and
    the prefix. *)
Lemma parseInt_math_reads (val : string) (R : Z) (neg : bool) (body text : string) :
  2 <= R <= 36 -> after_sign val neg body -> after_prefix R body text ->
  parseInt_math val R
  = (let '(z, n, _) := read_digits R 0 0 text in
     if n =? 0 then None else Some (neg, z)).
Proof.
  intros HR (ws & Hws & Hsign) Hpre.
  assert (Hs : read_sign (trimStart val) = (neg, body)).
  { destruct Hsign as [[-> ->]|[[-> ->]|(-> & -> & Hw & Hm & Hp)]].
    - rewrite trimStart_skips;
        [reflexivity | exact Hws | now apply not_starts_white_plain].
    - rewrite trimStart_skips;
        [reflexivity | exact Hws | now apply not_starts_white_plain].
    - rewrite trimStart_skips by assumption. now apply read_sign_unsigned. }
  unfold parseInt_math. rewrite Hs.
  replace ((R =? 0) || ((2 <=? R) && (R <=? 36))) with true
    by (symmetry; rewrite orb_true_iff, andb_true_iff, !Z.leb_le; lia).
  replace (R =? 0) with false by (symmetry; apply Z.eqb_neq; lia).
  cbn [orb].
  assert (Hp : (if R =? 16
                then match strip_hex_prefix body with
                     | Some r => (16, r)
                     | None => (R, body)
                     end
                else (R, body)) = (R, text)).
  { destruct Hpre as [[-> [-> | ->]]|[Hno ->]]; try reflexivity.
    destruct (Z.eqb_spec R 16) as [->|Hne]; [|reflexivity].
    destruct Hno as [Hno|[Hx HX]]; [contradiction|].
    now rewrite strip_hex_prefix_none. }
  now rewrite Hp.
Qed.

(** Every value is read in this way: white space, a sign, the prefix, a
    run of digits and the rest. *)
Lemma reading_exists (val : string) (R : Z) :
  exists (neg : bool) (body text ds rest : string),
    after_sign val neg body /\ after_prefix R body text
    /\ text = (ds ++ rest)%string /\ stops R rest
    /\ (ds = EmptyString \/ exists z : Z, reads_as R ds z).
Proof.
  assert (Hsign : exists neg body, after_sign val neg body).
  { destruct (trimStart_spec val) as (ws & Hval & Hws & Hn).
    destruct (trimStart val) as [|c r] eqn:Et.
    - exists false, EmptyString, ws. split; [exact Hws|].
      right. right. now repeat split.
    - destruct (Ascii.eqb_spec "-"%char c) as [<-|Hm].
      { exists true, r, ws. split; [exact Hws|]. now left. }
      destruct (Ascii.eqb_spec "+"%char c) as [<-|Hp].
      { exists false, r, ws. split; [exact Hws|]. right. now left. }
      exists false, (String c r), ws. split; [exact Hws|].
      right. right. rewrite !startsWith_char.
      repeat split; try assumption; now apply Ascii.eqb_neq. }
  destruct Hsign as (neg & body & Hsign).
  assert (Hpre : exists text, after_prefix R body text).
  { destruct (Z.eq_dec R 16) as [->|Hne].
    - destruct (startsWith body "0x") eqn:Ex.
      { apply startsWith_spec in Ex. destruct Ex as (t & ->).
        exists t. left. split; [reflexivity | now left]. }
      destruct (startsWith body "0X") eqn:EX.
      { apply startsWith_spec in EX. destruct EX as (t & ->).
        exists t. left. split; [reflexivity | now right]. }
      exists body. right. split; [right; now split | reflexivity].
    - exists body. right. split; [now left | reflexivity]. }
  destruct Hpre as (text & Hpre).
  destruct (read_digits R 0 0 text) as [[z k] rest] eqn:Erd.
  destruct (read_digits_split R text 0 0 z k rest Erd)
    as (ds & Htext & Hst & Hds & _).
  exists neg, body, text, ds, rest. repeat split; try assumption.
  destruct ds as [|c ds]; [now left|].
  right. exists z. split; [discriminate|].
  rewrite Hds. repeat f_equal.
  pose proof (read_digits_grows R (String c ds)) as Hg.
  destruct (Z_le_gt_dec 0 R) as [HR|HR].
  - destruct (Hg HR 0 0 z k EmptyString Hds) as (_ & _ & Hlen); try lia.
    cbn [String.length] in Hlen |- *. lia.
  - (* a radix below zero admits no digit *)
    exfalso. cbn [read_digits] in Hds.
    destruct (digit_value c) as [d|] eqn:Ed; [|discriminate Hds].
    destruct (Z.ltb_spec d R); [|discriminate Hds].
    unfold digit_value in Ed.
    repeat match type of Ed with
           | (if ?b then _ else _) = _ => destruct b eqn:?
           end; try discriminate; injection Ed as <-; lia.
Qed.

(** A string that [read_digits] consumes entirely is made of digits. *)
Lemma read_digits_all (R : Z) (s : string) :
  forall acc n z k,
    read_digits R acc n s = (z, k, EmptyString) ->
    forall c, List.In c (list_ascii_of_string s) ->
              exists d, digit_value c = Some d /\ d < R.
Proof.
  induction s as [|c s IH]; intros acc n z k H c' Hin; [contradiction|].
  cbn [read_digits] in H.
  destruct (digit_value c) as [d|] eqn:Ed; [|discriminate H].
  destruct (d <? R) eqn:Elt; [|discriminate H].
  destruct Hin as [<-|Hin].
  - exists d. split; [exact Ed | now apply Z.ltb_lt].
  - exact (IH _ _ _ _ H c' Hin).
Qed.

Lemma numeral_not_white (R : Z) (s : string) (z : Z) :
  reads_as R s z -> ~ starts_white s.
Proof.
  intros [Hne Hrd]. destruct s as [|c r]; [contradiction|].
  destruct (read_digits_all R _ _ _ _ _ Hrd c) as (d & Hd & _); [now left|].
  destruct (digit_is_plain c d Hd) as (Hc & Hw & _).
  now apply not_starts_white_plain.
Qed.

(** A value that is nothing but digits of the base is read as the integer
    they denote. *)
Lemma parseInt_math_numeral (val : string) (from z : Z) :
  2 <= from <= 36 -> reads_as from val z ->
  parseInt_math val from = Some (false, z).
Proof.
  intros HR Hr. pose proof Hr as [Hne Hrd].
  assert (Hsign : after_sign val false val).
  { exists EmptyString. split; [constructor|]. right. right.
    split; [reflexivity|]. split; [reflexivity|].
    split; [exact (numeral_not_white from val z Hr)|].
    destruct val as [|c r]; [contradiction|].
    destruct (read_digits_all from _ _ _ _ _ Hrd c) as (d & Hd & _); [now left|].
    destruct (digit_is_plain c d Hd) as (_ & _ & Hm & Hp & _).
    rewrite !startsWith_char.
    split; apply Ascii.eqb_neq; congruence. }
  assert (Hpre : after_prefix from val val).
  { right. split; [|reflexivity].
    destruct (Z.eq_dec from 16) as [->|Hne16]; [right|now left].
    destruct val as [|c1 [|c2 r]]; [contradiction| |].
    - split; cbn [startsWith]; now rewrite andb_false_r.
    - destruct (read_digits_all 16 _ _ _ _ _ Hrd c2) as (d & Hd & Hlt);
        [right; now left|].
      destruct (digit_is_plain c2 d Hd) as (_ & _ & _ & _ & Hx & _).
      cbn [startsWith].
      destruct (Ascii.eqb_spec "x"%char c2) as [<-|_];
        [specialize (Hx (or_introl eq_refl)); lia|].
      destruct (Ascii.eqb_spec "X"%char c2) as [<-|_];
        [specialize (Hx (or_intror eq_refl)); lia|].
      split; now rewrite andb_false_r. }
  rewrite (parseInt_math_reads val from false val val HR Hsign Hpre), Hrd.
  replace (Z.of_nat (String.length val) =? 0) with false; [reflexivity|].
  symmetry. apply Z.eqb_neq. destruct val; [contradiction|].
  cbn [String.length]. lia.
Qed.

Lemma bases_range (R : Z) : List.In R BaseConverter.bases -> 2 <= R <= 36.
Proof.
  unfold BaseConverter.bases. simpl. lia.
Qed.

(** C9, amended.  For bases among 2, 8, 10, 16 and 36 and every engine.
    Every value is read as white space, an optional sign, [0x] or [0X]
    when the base to convert from is 16, the longest run of digits of that
    base, and a rest that is ignored.  When the run is empty the output is
    ["-"].  Otherwise, when the integer the run denotes is at most 2^53,
    the output is the numeral of that integer in the base to convert to,
    with upper-case digits, after a minus sign when the value is negative.
    A value made only of digits is read as the integer they denote, so its
    output is the numeral of the same integer.  ["42"] from base 10 to
    base 2 gives ["101010"]. *)
Theorem base_conversion_exact (E : engine) (val : string) (from to : Z) :
  List.In from BaseConverter.bases -> List.In to BaseConverter.bases ->
  (exists (neg : bool) (body text ds rest : string),
      after_sign val neg body /\ after_prefix from body text
      /\ text = (ds ++ rest)%string /\ stops from rest
      /\ (ds = EmptyString \/ exists z : Z, reads_as from ds z))
  /\ (forall (neg : bool) (body text : string),
        after_sign val neg body -> after_prefix from body text ->
        stops from text ->
        BaseConverter.out E val from to = "-")
  /\ (forall (neg : bool) (body ds rest : string) (z : Z),
        after_sign val neg body -> after_prefix from body (ds ++ rest) ->
        reads_as from ds z -> stops from rest -> z <= MAX_EXACT ->
        exists num : string,
          numeral_of to z num
          /\ BaseConverter.out E val from to
             = ((if neg && (0 <? z)%Z then "-" else "") ++ num)%string)
  /\ (forall z : Z,
        reads_as from val z -> z <= MAX_EXACT ->
        numeral_of to z (BaseConverter.out E val from to))
  /\ BaseConverter.out E "42" 10 2 = "101010".
Proof.
  intros Hfrom Hto.
  apply bases_range in Hfrom. apply bases_range in Hto.
  split; [apply reading_exists|].
  split; [|split; [|split; [|vm_compute; reflexivity]]].
  - intros neg body text Hsign Hpre Hst.
    apply out_unparsable.
    rewrite (parseInt_math_reads val from neg body text Hfrom Hsign Hpre).
    now rewrite read_digits_stops.
  - intros neg body ds rest z Hsign Hpre [Hne Hrd] Hst Hz.
    apply out_exact; [exact Hto| |exact Hz].
    rewrite (parseInt_math_reads val from neg body _ Hfrom Hsign Hpre).
    rewrite (read_digits_app from ds rest Hst _ _ _ _ Hrd).
    replace (Z.of_nat (String.length ds) =? 0) with false; [reflexivity|].
    symmetry. apply Z.eqb_neq. destruct ds; [contradiction|].
    cbn [String.length]. lia.
  - intros z Hr Hz.
    pose proof (parseInt_math_numeral val from z Hfrom Hr) as Hp.
    destruct (out_exact E val from to false z Hto Hp Hz) as (ds & Hn & ->).
    exact Hn.
Qed.

Lemma base_conversion_exact_witness :
  exists num : string,
    numeral_of 2 255 num
    /\ BaseConverter.out idle_engine (utf8 [194; 160] ++ "-0xffzz") 16 2
       = ("-" ++ num)%string.
Proof.
  refine (proj1 (proj2 (proj2
            (base_conversion_exact idle_engine
               (utf8 [194; 160] ++ "-0xffzz") 16 2 _ _)))
            true "0xffzz" "ff" "zz" 255 _ _ _ _ _).
  - simpl. tauto.
  - simpl. tauto.
  - exists (utf8 [194; 160]). split.
    + apply (blank_cons (utf8 [194; 160]) EmptyString); [|constructor].
      vm_compute. do 6 right. left. reflexivity.
    + left. split; reflexivity.
  - left. split; [reflexivity | now left].
  - split; [discriminate | reflexivity].
  - intros d Hd. vm_compute in Hd. injection Hd as <-. discriminate.
  - discriminate.
Defined.

(** C9 as stated fails on two counts, whatever the engine.  A value that
    is no numeral of its base is not unparsable for the converter: the
    digits in front of ["12abc"] are converted.  And large values are not
    converted digit for digit: 2^53 + 1 is read as 2^53, and 10^21 comes
    out in exponent notation. *)
Lemma base_conversion_beyond_exact :
  ~ (exists z : Z, reads_as 10 "12abc" z)
  /\ (fun E : engine => BaseConverter.out E "12abc" 10 2)
     = (fun _ => "1100")
  /\ reads_as 10 "9007199254740993" 9007199254740993
  /\ (fun E : engine => BaseConverter.out E "9007199254740993" 10 10)
     = (fun _ => "9007199254740992")
  /\ reads_as 10 "1000000000000000000000" (10 ^ 21)
  /\ (fun E : engine => BaseConverter.out E "1000000000000000000000" 10 10)
     = (fun _ => "1E+21").
Proof.
  split.
  { intros (z & _ & H). cbn in H. discriminate H. }
  repeat split; try discriminate; vm_compute; reflexivity.
Qed.

(** ** Reading numbers *)












(** ** More facts about binary64 *)

Lemma toNum_zero_finite (v : value) : isFinite (toNum v zero) = true.
Proof.
  rewrite toNum_unfold.
  destruct (isFinite (parsed v)) eqn:E; [exact E | reflexivity].
Qed.

Lemma iter_pos_invariant {A : Type} (P : A -> Prop) (f : A -> A) :
  (forall x, P x -> P (f x)) ->
  forall (p : positive) (x : A), P x -> P (iter_pos f p x).
Proof.
  intros Hf. induction p as [p IH|p IH|]; intros x Hx; simpl; auto.
Qed.

Lemma shr_1_nonneg (mrs : shr_record) :
  0 <= shr_m mrs -> 0 <= shr_m (shr_1 mrs).
Proof.
  destruct mrs as [m r s]. simpl.
  destruct m as [|[p|p|]|[p|p|]]; simpl; lia.
Qed.

Lemma shr_nonneg (mrs : shr_record) (e n : Z) :
  0 <= shr_m mrs -> 0 <= shr_m (fst (shr mrs e n)).
Proof.
  intros H. destruct n; simpl; try exact H.
  now apply (iter_pos_invariant (fun r => 0 <= shr_m r) shr_1 shr_1_nonneg).
Qed.

Lemma shr_record_of_loc_m (m : Z) (l : location) :
  shr_m (shr_record_of_loc m l) = m.
Proof. destruct l as [|[]]; reflexivity. Qed.

Lemma round_nearest_even_nonneg (m : Z) (l : location) :
  0 <= m -> 0 <= round_nearest_even m l.
Proof.
  intros H. destruct l as [|[]]; simpl; try lia.
  destruct (Z.even m); lia.
Qed.

(** Rounding a non-negative mantissa never gives [NaN]. *)
Lemma binary_round_aux_not_nan (s : bool) (mx ex : Z) (lx : location) :
  0 <= mx -> binary_round_aux prec emax s mx ex lx <> S754_nan.
Proof.
  intros Hm. unfold binary_round_aux, shr_fexp.
  set (n1 := fexp prec emax (Zdigits2 mx + ex) - ex).
  pose proof (shr_nonneg (shr_record_of_loc mx lx) ex n1) as H1.
  rewrite shr_record_of_loc_m in H1. specialize (H1 Hm).
  destruct (shr (shr_record_of_loc mx lx) ex n1) as [mrs' e'].
  simpl in H1.
  set (m1 := round_nearest_even (shr_m mrs') (loc_of_shr_record mrs')).
  assert (Hm1 : 0 <= m1) by now apply round_nearest_even_nonneg.
  set (n2 := fexp prec emax (Zdigits2 m1 + e') - e').
  pose proof (shr_nonneg (shr_record_of_loc m1 loc_Exact) e' n2) as H2.
  rewrite shr_record_of_loc_m in H2. specialize (H2 Hm1).
  destruct (shr (shr_record_of_loc m1 loc_Exact) e' n2) as [mrs'' e''].
  simpl in H2.
  destruct (shr_m mrs''); try lia; try discriminate.
  destruct (e'' <=? emax - prec); discriminate.
Qed.

Lemma binary_normalize_not_nan (m e : Z) (szero : bool) :
  binary_normalize prec emax m e szero <> S754_nan.
Proof.
  unfold binary_normalize, binary_round.
  destruct m as [|p|p]; [discriminate| |];
    destruct (shl_align _ _ _) as [mz ez];
    apply binary_round_aux_not_nan; lia.
Qed.

(** The sign given to the rounding only shows in the sign of the result. *)
Lemma binary_round_aux_abs (s : bool) (mx ex : Z) (lx : location) :
  SFabs (binary_round_aux prec emax s mx ex lx)
  = SFabs (binary_round_aux prec emax false mx ex lx).
Proof.
  unfold binary_round_aux.
  destruct (shr_fexp prec emax mx ex lx) as [mrs' e'].
  destruct (shr_fexp prec emax _ e' loc_Exact) as [mrs'' e''].
  destruct (shr_m mrs''); try reflexivity.
  destruct (e'' <=? emax - prec); reflexivity.
Qed.

Lemma binary_normalize_abs_opp (m e : Z) :
  SFabs (binary_normalize prec emax (- m) e false)
  = SFabs (binary_normalize prec emax m e false).
Proof.
  unfold binary_normalize, binary_round.
  destruct m as [|p|p]; simpl; [reflexivity| |];
    destruct (shl_align _ _ _) as [mz ez];
    [apply binary_round_aux_abs | symmetry; apply binary_round_aux_abs].
Qed.

(** Operations on finite numbers never give [NaN], division by zero
    apart. *)
Lemma add_not_nan (x y : number) :
  isFinite x = true -> isFinite y = true -> JS.add x y <> NaN.
Proof.
  unfold JS.add, NaN.
  destruct x as [sx|sx| |sx mx ex], y as [sy|sy| |sy my ey];
    try discriminate; intros _ _; simpl.
  - destruct sx, sy; discriminate.
  - apply binary_normalize_not_nan.
Qed.

Lemma sub_not_nan (x y : number) :
  isFinite x = true -> isFinite y = true -> JS.sub x y <> NaN.
Proof.
  unfold JS.sub, NaN.
  destruct x as [sx|sx| |sx mx ex], y as [sy|sy| |sy my ey];
    try discriminate; intros _ _; simpl.
  - destruct sx, sy; discriminate.
  - apply binary_normalize_not_nan.
Qed.

Lemma mul_not_nan (x y : number) :
  isFinite x = true -> isFinite y = true -> JS.mul x y <> NaN.
Proof.
  unfold JS.mul, NaN.
  destruct x as [sx|sx| |sx mx ex], y as [sy|sy| |sy my ey];
    try discriminate; intros _ _; simpl.
  apply binary_round_aux_not_nan. lia.
Qed.

Lemma div_core_nonneg (m1 : positive) (e1 : Z) (m2 : positive) (e2 : Z) :
  0 <= fst (fst (SFdiv_core_binary prec emax (Z.pos m1) e1 (Z.pos m2) e2)).
Proof.
  unfold SFdiv_core_binary.
  set (s := _ - _ - _).
  set (m' := match s with Z.pos _ => Z.shiftl (Z.pos m1) s | 0 => Z.pos m1 | Z.neg _ => 0 end).
  assert (Hm' : 0 <= m').
  { unfold m'. destruct s; try lia. apply Z.shiftl_nonneg. lia. }
  pose proof (Z.div_eucl_eq m' (Z.pos m2) ltac:(lia)) as Heq.
  pose proof (Z.mod_pos_bound m' (Z.pos m2) ltac:(lia)) as Hmod.
  pose proof (Z.div_pos m' (Z.pos m2) Hm' ltac:(lia)) as Hdiv.
  unfold Z.div in Hdiv.
  destruct (Z.div_eucl m' (Z.pos m2)) as [q r]. simpl in *. exact Hdiv.
Qed.

Lemma div_not_nan (x y : number) :
  isFinite x = true -> isFinite y = true -> strict_eq y zero = false ->
  JS.div x y <> NaN.
Proof.
  unfold JS.div, NaN.
  destruct x as [sx|sx| |sx mx ex], y as [sy|sy| |sy my ey];
    try discriminate; intros _ _ _; simpl; try discriminate.
  pose proof (div_core_nonneg mx ex my ey) as Hq.
  destruct (SFdiv_core_binary prec emax (Z.pos mx) ex (Z.pos my) ey) as [[mz ez] lz].
  apply binary_round_aux_not_nan. exact Hq.
Qed.

(** Dividing a finite number by zero never gives a finite number. *)
Lemma div_by_zero (x y : number) :
  isFinite x = true -> strict_eq y zero = true ->
  isFinite (JS.div x y) = false.
Proof.
  intros Hx Hy.
  destruct x as [sx|sx| |sx mx ex]; try discriminate Hx;
    destruct y as [sy|sy| |sy my ey]; try discriminate Hy;
    try reflexivity; destruct sy; discriminate Hy.
Qed.

Lemma strict_eq_zero_cases (y : number) :
  strict_eq y zero = true <-> exists s, y = S754_zero s.
Proof.
  split.
  - destruct y as [s|s| |s m e]; try discriminate.
    + intros _. now exists s.
    + destruct s; discriminate.
    + destruct s; discriminate.
  - intros [s ->]. reflexivity.
Qed.

Lemma compare_self (x : number) :
  isFinite x = true -> SFcompare x x = Some Eq.
Proof.
  destruct x as [s|s| |s m e]; try discriminate; intros _; simpl; [reflexivity|].
  rewrite Z.compare_refl.
  assert (Pos.compare_cont Eq m m = Eq) by apply Pos.compare_cont_refl.
  destruct s; now rewrite H.
Qed.

Lemma strict_eq_self (x : number) : isFinite x = true -> strict_eq x x = true.
Proof. intros H. unfold strict_eq, SFeqb. now rewrite compare_self. Qed.

Lemma add_comm (x y : number) : JS.add x y = JS.add y x.
Proof.
  unfold JS.add.
  destruct x as [sx|sx| |sx mx ex], y as [sy|sy| |sy my ey]; simpl;
    try reflexivity; try (destruct sx, sy; reflexivity).
  rewrite (Z.min_comm ey ex). f_equal. apply Z.add_comm.
Qed.

Lemma mul_comm (x y : number) : JS.mul x y = JS.mul y x.
Proof.
  unfold JS.mul.
  destruct x as [sx|sx| |sx mx ex], y as [sy|sy| |sy my ey]; simpl;
    try reflexivity; try (now rewrite xorb_comm).
  now rewrite xorb_comm, Pos.mul_comm, Z.add_comm.
Qed.

Lemma abs_sub_swap (x y : number) :
  Math_abs (JS.sub x y) = Math_abs (JS.sub y x).
Proof.
  unfold Math_abs, JS.sub.
  destruct x as [sx|sx| |sx mx ex], y as [sy|sy| |sy my ey]; simpl;
    try reflexivity; try (destruct sx, sy; reflexivity).
  rewrite (Z.min_comm ey ex).
  rewrite <- binary_normalize_abs_opp. f_equal. f_equal. lia.
Qed.

(** ** Basic calculator and fraction *)

Lemma finite_literals :
  (exists m e, int (N := number) 100 = S754_finite false m e)
  /\ (exists m e, int (N := number) 703 = S754_finite false m e)
  /\ (exists m e, int (N := number) 1 = S754_finite false m e)
  /\ (exists m e, int (N := number) 7 = S754_finite false m e)
  /\ int (N := number) 0 = zero.
Proof. repeat split; do 2 eexists; vm_compute; reflexivity. Qed.

(** X2. With one of the four operations, the result of the basic
    calculator is [NaN] exactly when the operation is the division and the
    second operand reads as zero (a zero, an empty or an unreadable text). *)
Theorem basic_nan_iff (a b : value) (op : string) :
  List.In op ["+"; "-"; "×"; "÷"] ->
  (BasicCalculator.result a b op = NaN
   <-> op = "÷" /\ strict_eq (toNum b zero) zero = true).
Proof.
  intros Hop. unfold BasicCalculator.result.
  pose proof (toNum_zero_finite a) as Ha.
  pose proof (toNum_zero_finite b) as Hb.
  simpl in Hop.
  destruct Hop as [<-|[<-|[<-|[<-|[]]]]]; cbn [String.eqb Ascii.eqb Bool.eqb].
  - split; [intros H; now apply add_not_nan in H | intros [H _]; discriminate H].
  - split; [intros H; now apply sub_not_nan in H | intros [H _]; discriminate H].
  - split; [intros H; now apply mul_not_nan in H | intros [H _]; discriminate H].
  - change (int 0) with zero.
    destruct (strict_eq (toNum b zero) zero) eqn:E.
    + split; [now split | reflexivity].
    + split; [intros H; now apply div_not_nan in H | intros [_ H]; discriminate H].
Qed.

Lemma basic_nan_iff_witness :
  BasicCalculator.result (JString "6") (JString "") "÷" = NaN.
Proof.
  apply (proj2 (basic_nan_iff (JString "6") (JString "") "÷"
                  (or_intror (or_intror (or_intror (or_introl eq_refl)))))).
  split; reflexivity.
Defined.

(** X3. Addition and multiplication of the basic calculator do not depend
    on the order of the two inputs. *)
Theorem basic_commutative (a b : value) :
  BasicCalculator.result a b "+" = BasicCalculator.result b a "+"
  /\ BasicCalculator.result a b "×" = BasicCalculator.result b a "×".
Proof.
  unfold BasicCalculator.result. cbn [String.eqb Ascii.eqb Bool.eqb].
  split; [apply add_comm | apply mul_comm].
Qed.

(** X12. The fraction converter answers [NaN] exactly when the denominator
    reads as zero. *)
Theorem fraction_nan_iff (num den : value) :
  FractionToDecimal.out num den = NaN
  <-> strict_eq (toNum den zero) zero = true.
Proof.
  unfold FractionToDecimal.out. change (int 0) with zero.
  destruct (strict_eq (toNum den zero) zero) eqn:E.
  - split; reflexivity.
  - split; [|discriminate]. intros H. exfalso. revert H.
    apply div_not_nan; auto using toNum_zero_finite.
Qed.

(** ** Percentages *)

Lemma finite_cases (x : number) :
  isFinite x = true ->
  (exists s, x = S754_zero s) \/ (exists s m e, x = S754_finite s m e).
Proof.
  destruct x as [s|s| |s m e]; try discriminate; intros _;
    [left; now exists s | right; now exists s, m, e].
Qed.

(** A zero share of a finite amount, added to it or taken from it, leaves
    the amount. *)
Lemma zero_share (x p : number) :
  isFinite x = true -> strict_eq p zero = true ->
  let share := JS.mul x (JS.div p (int 100)) in
  strict_eq share zero = true
  /\ strict_eq (JS.add x share) x = true
  /\ strict_eq (JS.sub x share) x = true.
Proof.
  intros Hx Hp.
  apply strict_eq_zero_cases in Hp. destruct Hp as [sp ->].
  destruct finite_literals as ((m & e & ->) & _).
  destruct (finite_cases x Hx) as [[s ->]|(s & mx & ex & ->)]; cbn.
  - repeat split; destruct s, sp; reflexivity.
  - repeat split; apply (strict_eq_self (S754_finite s mx ex)); reflexivity.
Qed.

(** X4. At zero percent (a zero, an empty or an unreadable percentage) the
    increase, the discount and the tax are zero, and the total of the
    percentage calculator, the final price and the total with tax equal
    the amount. *)
Theorem zero_percent (amount pct : value) :
  strict_eq (toNum pct zero) zero = true ->
  strict_eq (PercentageCalculator.inc amount pct) zero = true
  /\ strict_eq (PercentageCalculator.total amount pct) (toNum amount zero) = true
  /\ strict_eq (DiscountCalculator.disc amount pct) zero = true
  /\ strict_eq (DiscountCalculator.pay amount pct) (toNum amount zero) = true
  /\ strict_eq (GSTCalculator.tax (GSTCalculator.calc amount pct "Add GST")) zero = true
  /\ strict_eq (GSTCalculator.total (GSTCalculator.calc amount pct "Add GST"))
       (toNum amount zero) = true.
Proof.
  intros Hp.
  destruct (zero_share (toNum amount zero) (toNum pct zero)
              (toNum_zero_finite amount) Hp) as (H0 & Hadd & Hsub).
  repeat split; assumption.
Qed.

Lemma zero_percent_witness :
  strict_eq (DiscountCalculator.pay (JString "1,000") (JString ""))
    (toNum (JString "1,000") zero) = true.
Proof.
  exact (proj1 (proj2 (proj2 (proj2
           (zero_percent (JString "1,000") (JString "") eq_refl))))).
Defined.

(** ** Body mass index *)

Lemma mul_infinite_l (x y : number) :
  isFinite x = false -> isFinite (JS.mul x y) = false.
Proof.
  destruct x as [sx|sx| |sx mx ex]; try discriminate; intros _;
    destruct y; reflexivity.
Qed.

Lemma mul_infinite_r (x y : number) :
  isFinite y = false -> isFinite (JS.mul x y) = false.
Proof. intros H. rewrite mul_comm. now apply mul_infinite_l. Qed.

Lemma sub_infinite_l (x y : number) :
  isFinite x = false -> isFinite (JS.sub x y) = false.
Proof.
  destruct x as [sx|sx| |sx mx ex]; try discriminate; intros _;
    destruct y as [sy|sy| |sy my ey]; try reflexivity.
  destruct sx, sy; reflexivity.
Qed.

Lemma div_any_by_zero (x y : number) :
  strict_eq y zero = true -> isFinite (JS.div x y) = false.
Proof.
  intros Hy. apply strict_eq_zero_cases in Hy. destruct Hy as [s ->].
  destruct x; reflexivity.
Qed.

Lemma mul_zero (x y : number) :
  isFinite x = true -> strict_eq y zero = true ->
  strict_eq (JS.mul x y) zero = true /\ strict_eq (JS.mul y x) zero = true.
Proof.
  intros Hx Hy. apply strict_eq_zero_cases in Hy. destruct Hy as [s ->].
  destruct (finite_cases x Hx) as [[sx ->]|(sx & mx & ex & ->)];
    split; reflexivity.
Qed.

Lemma status_placeholder (b : number) :
  BMICalculator.status b = "-" <-> isFinite b = false.
Proof.
  unfold BMICalculator.status.
  destruct (isFinite b); simpl; [|split; reflexivity].
  split; [|discriminate].
  destruct (lt b _); [discriminate|].
  destruct (lt b _); [discriminate|].
  destruct (lt b _); discriminate.
Qed.

(** X5. The status of the body mass index is the placeholder ["-"] exactly
    when the index is not finite; this is the case whenever the height
    reads as zero, in both unit systems. *)
Theorem bmi_zero_height (unit : string) (w h : value) :
  strict_eq (toNum h zero) zero = true ->
  isFinite (BMICalculator.bmi unit w h) = false
  /\ BMICalculator.status (BMICalculator.bmi unit w h) = "-"
  /\ (forall b : number, BMICalculator.status b = "-" <-> isFinite b = false).
Proof.
  intros Hh.
  assert (Hb : isFinite (BMICalculator.bmi unit w h) = false).
  { unfold BMICalculator.bmi.
    destruct (startsWith unit "Metric").
    - apply div_any_by_zero.
      assert (Hm : strict_eq (JS.div (toNum h zero) (int 100)) zero = true).
      { apply strict_eq_zero_cases in Hh. destruct Hh as [s ->].
        destruct finite_literals as ((m & e & ->) & _).
        destruct s; reflexivity. }
      cbn [times over binary64].
      apply strict_eq_zero_cases in Hm. destruct Hm as [s ->]. reflexivity.
    - apply mul_infinite_l. apply div_any_by_zero.
      apply (mul_zero (toNum h zero) (toNum h zero)); auto using toNum_zero_finite. }
  split; [exact Hb|]. split; [now apply status_placeholder|].
  apply status_placeholder.
Qed.

Lemma bmi_zero_height_witness :
  BMICalculator.status (BMICalculator.bmi "Imperial (lb, inch)" (JString "150") (JString "")) = "-".
Proof.
  exact (proj1 (proj2 (bmi_zero_height "Imperial (lb, inch)" (JString "150")
                         (JString "") eq_refl))).
Defined.

(** ** Loans and investments at the edge *)

(** X9. At the rate zero, a tenure that rounds to zero months gives an
    instalment that is not finite, which [fmt] shows as ["-"]. *)
Theorem EMI_zero_months (Math_pow : number -> number -> number)
    (toLocaleString : number -> Z -> string) (p r t : value) (tenureType : string) :
  strict_eq (EMI.monthlyR r) (int 0) = true ->
  strict_eq (EMI.months_of t tenureType) zero = true ->
  let o := EMI.out Math_pow p r t tenureType in
  isFinite (EMI.emi o) = false
  /\ fmt toLocaleString (JNumber (EMI.emi o)) 2 = "-".
Proof.
  intros Hr Hm o.
  assert (H : isFinite (EMI.emi o) = false).
  { unfold o, EMI.out. rewrite Hr. cbn [EMI.emi].
    now apply div_any_by_zero. }
  split; [exact H|].
  destruct (EMI.emi o); try discriminate H; reflexivity.
Qed.

Lemma EMI_zero_months_witness :
  fmt (fun _ _ => "") (JNumber (EMI.emi (EMI.out (fun _ _ => NaN)
         (JNumber (of_Z 500000)) (JString "0") (JString "") "Years"))) 2 = "-".
Proof.
  exact (proj2 (EMI_zero_months (fun _ _ => NaN) (fun _ _ => "")
                  (JNumber (of_Z 500000)) (JString "0") (JString "") "Years"
                  eq_refl eq_refl)).
Defined.

(** X10. At a rate of return that reads as zero, the future value and the
    gains of the SIP calculator are not finite, whatever [Math.pow]
    returns: the formula divides by the rate. *)
Theorem SIP_zero_rate (Math_pow : number -> number -> number) (m r y : value) :
  strict_eq (SIP.rate r) zero = true ->
  let o := SIP.out Math_pow m r y in
  isFinite (SIP.fv o) = false /\ isFinite (SIP.gains o) = false.
Proof.
  intros Hr o.
  assert (H : isFinite (SIP.fv o) = false).
  { unfold o, SIP.out. cbn [SIP.fv].
    apply mul_infinite_l, mul_infinite_r. now apply div_any_by_zero. }
  split; [exact H|].
  unfold o, SIP.out in *. cbn [SIP.fv SIP.gains] in *.
  now apply sub_infinite_l.
Qed.

Lemma SIP_zero_rate_witness :
  let o := SIP.out (fun _ _ => of_Z 1) (JNumber (of_Z 5000)) (JString "0")
             (JNumber (of_Z 10)) in
  isFinite (SIP.fv o) = false /\ isFinite (SIP.gains o) = false.
Proof.
  exact (SIP_zero_rate (fun _ _ => of_Z 1) (JNumber (of_Z 5000)) (JString "0")
           (JNumber (of_Z 10)) eq_refl).
Defined.

(** ** Ordering of numbers *)

Lemma compare_antisym (x y : number) :
  SFcompare y x = option_map CompOpp (SFcompare x y).
Proof.
  destruct x as [sx|sx| |sx mx ex], y as [sy|sy| |sy my ey]; simpl;
    try reflexivity; try (destruct sx, sy; reflexivity);
    try (destruct sx; reflexivity); try (destruct sy; reflexivity).
  rewrite (Z.compare_antisym ex ey).
  destruct sx, sy; simpl; try reflexivity;
    destruct (ex ?= ey) eqn:E; simpl; try reflexivity;
    rewrite (Pos.compare_cont_antisym mx my Eq); simpl; reflexivity.
Qed.

Lemma compare_refl (x : number) : isNaN x = false -> SFcompare x x = Some Eq.
Proof.
  destruct x as [s|s| |s m e]; try discriminate; intros _;
    try (destruct s; reflexivity).
  now apply compare_self.
Qed.

Lemma compare_defined (x y : number) :
  isNaN x = false -> isNaN y = false -> exists c, SFcompare x y = Some c.
Proof.
  destruct x as [sx|sx| |sx mx ex], y as [sy|sy| |sy my ey];
    try discriminate; intros _ _; simpl; eauto.
Qed.

Lemma le_not_nan (x y : number) :
  le x y = true -> isNaN x = false /\ isNaN y = false.
Proof.
  unfold le, SFleb.
  destruct x as [sx|sx| |sx mx ex], y as [sy|sy| |sy my ey];
    simpl; try discriminate; auto.
Qed.

(** Comparing with a zero does not depend on its sign. *)
Lemma compare_zero_l (s s' : bool) (y : number) :
  SFcompare (S754_zero s) y = SFcompare (S754_zero s') y.
Proof. destruct y; reflexivity. Qed.

Lemma compare_eq_zero (s : bool) (y : number) :
  SFcompare (S754_zero s) y = Some Eq -> exists s', y = S754_zero s'.
Proof.
  destruct y as [sy|sy| |sy my ey]; simpl; try discriminate.
  - intros _. now exists sy.
  - destruct sy; discriminate.
  - destruct sy; discriminate.
Qed.

Lemma max_cases (x y : number) :
  isNaN x = false -> isNaN y = false ->
  (Math_max x y = x /\ (SFcompare x y = Some Gt \/ SFcompare x y = Some Eq))
  \/ (Math_max x y = y /\ SFcompare x y = Some Lt)
  \/ (Math_max x y = y /\ x = S754_zero true /\ SFcompare x y = Some Eq).
Proof.
  intros Hx Hy. unfold Math_max.
  destruct (compare_defined x y Hx Hy) as [c ->].
  destruct c; auto.
  destruct x as [[]| | |]; auto.
Qed.

Lemma min_cases (x y : number) :
  isNaN x = false -> isNaN y = false ->
  (Math_min x y = x /\ (SFcompare x y = Some Lt \/ SFcompare x y = Some Eq))
  \/ (Math_min x y = y /\ SFcompare x y = Some Gt)
  \/ (Math_min x y = y /\ x = S754_zero false /\ SFcompare x y = Some Eq).
Proof.
  intros Hx Hy. unfold Math_min.
  destruct (compare_defined x y Hx Hy) as [c ->].
  destruct c; auto.
  destruct x as [[]| | |]; auto.
Qed.

Lemma le_of_compare (x y : number) :
  SFcompare x y = Some Lt \/ SFcompare x y = Some Eq -> le x y = true.
Proof. unfold le, SFleb. intros [-> | ->]; reflexivity. Qed.

Lemma ge_of_compare (x y : number) :
  SFcompare x y = Some Gt \/ SFcompare x y = Some Eq -> le y x = true.
Proof.
  intros H. apply le_of_compare. rewrite compare_antisym.
  destruct H as [-> | ->]; simpl; auto.
Qed.

Lemma le_compare (x y : number) :
  le x y = true -> SFcompare x y = Some Lt \/ SFcompare x y = Some Eq.
Proof.
  unfold le, SFleb. destruct (SFcompare x y) as [[]|]; try discriminate; auto.
Qed.

(** ** Compounding periods *)

Lemma Math_round_not_nan (x : number) :
  isFinite x = true -> isNaN (Math_round x) = false.
Proof.
  destruct x as [s|s| |s m e]; try discriminate; intros _; [reflexivity|].
  unfold Math_round.
  destruct (0 <=? e); [reflexivity|].
  match goal with |- context [if ?c then _ else _] => destruct c end;
    [reflexivity|].
  unfold of_Z.
  match goal with
  | |- isNaN ?t = false =>
      pose proof (binary_normalize_not_nan
                    ((2 * (if s then Z.neg m else Z.pos m) + 2 ^ (- e))
                     / (2 * 2 ^ (- e))) 0 false) as H;
      destruct t; try reflexivity; now contradiction H
  end.
Qed.

Lemma strict_eq_refl (x : number) : isNaN x = false -> strict_eq x x = true.
Proof. intros H. unfold strict_eq, SFeqb. now rewrite compare_refl. Qed.

(** X11. The number of compounding periods a year is never [NaN] and never
    below 1, so the rate is never divided by zero. *)
Theorem periods_at_least_one (n : value) :
  isNaN (CompoundInterest.periods n) = false
  /\ le (int 1) (CompoundInterest.periods n) = true
  /\ strict_eq (CompoundInterest.periods n) zero = false.
Proof.
  unfold CompoundInterest.periods.
  pose proof (Math_round_not_nan (toNum n zero) (toNum_zero_finite n)) as Hr.
  set (r := Math_round (toNum n zero)) in *.
  destruct finite_literals as (_ & _ & (m & e & H1) & _).
  assert (Hone : isNaN (int 1) = false) by now rewrite H1.
  assert (Hle : le (int 1) (Math_max (int 1) r) = true).
  { destruct (max_cases (int 1) r Hone Hr) as [[-> _]|[[-> H]|[-> [_ H]]]].
    - apply le_of_compare. right. now apply compare_refl.
    - apply le_of_compare. now left.
    - apply le_of_compare. now right. }
  split; [|split; [exact Hle|]].
  - now apply le_not_nan in Hle.
  - destruct (Math_max (int 1) r) as [s|s| |s m' e'] eqn:E; try reflexivity.
    + rewrite H1 in Hle. destruct s; discriminate Hle.
    + destruct s; reflexivity.
    + destruct s; reflexivity.
Qed.

(** ** Clamp *)

(** X1. For bounds [a <= b] and a number [n] that is not [NaN], [clamp]
    returns a number between the bounds, and it returns [n] (up to the sign
    of zero) when [n] is between them already. *)
Theorem clamp_between (n a b : number) :
  le a b = true -> isNaN n = false ->
  le a (clamp n a b) = true
  /\ le (clamp n a b) b = true
  /\ (le a n = true -> le n b = true -> strict_eq (clamp n a b) n = true).
Proof.
  intros Hab Hn.
  destruct (le_not_nan a b Hab) as [Ha Hb].
  unfold clamp.
  assert (Hm : isNaN (Math_max n a) = false)
    by (destruct (max_cases n a Hn Ha) as [[-> _]|[[-> _]|[-> _]]]; assumption).
  assert (Ham : le a (Math_max n a) = true).
  { destruct (max_cases n a Hn Ha) as [[-> H]|[[-> _]|[-> _]]].
    - now apply ge_of_compare.
    - apply le_of_compare. right. now apply compare_refl.
    - apply le_of_compare. right. now apply compare_refl. }
  split; [|split].
  - destruct (min_cases (Math_max n a) b Hm Hb) as [[-> _]|[[-> _]|[-> _]]];
      assumption.
  - destruct (min_cases (Math_max n a) b Hm Hb) as [[-> H]|[[-> _]|[-> _]]].
    + now apply le_of_compare.
    + apply le_of_compare. right. now apply compare_refl.
    + apply le_of_compare. right. now apply compare_refl.
  - intros Han Hnb.
    apply le_compare in Han. apply le_compare in Hnb.
    assert (Hmax : Math_max n a = n
                   \/ exists s s', n = S754_zero s /\ Math_max n a = S754_zero s').
    { destruct (max_cases n a Hn Ha) as [[-> _]|[[_ H]|[-> [-> H]]]]; [now left| |].
      - rewrite compare_antisym, H in Han. destruct Han; discriminate.
      - destruct (compare_eq_zero _ _ H) as [s' ->]. right. eauto. }
    destruct Hmax as [->|(s & s' & -> & ->)].
    + destruct (min_cases n b Hn Hb) as [[-> _]|[[_ H]|[-> [-> H]]]].
      * now apply strict_eq_refl.
      * rewrite H in Hnb. destruct Hnb; discriminate.
      * destruct (compare_eq_zero _ _ H) as [s' ->]. reflexivity.
    + destruct (min_cases (S754_zero s') b eq_refl Hb)
        as [[-> _]|[[_ H]|[-> [_ H]]]].
      * reflexivity.
      * rewrite (compare_zero_l s' s) in H. rewrite H in Hnb.
        destruct Hnb; discriminate.
      * destruct (compare_eq_zero _ _ H) as [s'' ->]. reflexivity.
Qed.

Lemma clamp_between_witness :
  strict_eq (clamp (of_Z 5) (of_Z 1) (of_Z 3)) (of_Z 3) = true
  /\ le (of_Z 1) (clamp (of_Z 5) (of_Z 1) (of_Z 3)) = true.
Proof.
  split; [reflexivity|].
  exact (proj1 (clamp_between (of_Z 5) (of_Z 1) (of_Z 3) eq_refl eq_refl)).
Defined.

(** ** Date difference *)

Lemma sub_self (x : number) : isFinite x = true -> JS.sub x x = zero.
Proof.
  intros Hx. destruct (finite_cases x Hx) as [[s ->]|(s & m & e & ->)].
  - destruct s; reflexivity.
  - unfold JS.sub, SFsub. rewrite Z.sub_diag. reflexivity.
Qed.

(** X13. The difference of two dates does not depend on their order, and a
    valid date compared with itself is 0 days and 0 weeks apart. *)
Theorem date_diff_symmetric (Date_time : string -> number) (a b : string) :
  DateDiffCalculator.out Date_time a b = DateDiffCalculator.out Date_time b a
  /\ (isFinite (Date_time a) = true ->
      DateDiffCalculator.out Date_time a a
      = Some {| DateDiffCalculator.days := zero; DateDiffCalculator.weeks := zero |}).
Proof.
  unfold DateDiffCalculator.out. split.
  - rewrite (orb_comm (isNaN (Date_time a))).
    cbn [minus binary64]. now rewrite (abs_sub_swap (Date_time b)).
  - intros Ha. cbn [minus binary64]. rewrite (sub_self _ Ha).
    destruct (Date_time a); try discriminate Ha; reflexivity.
Qed.

Lemma date_diff_symmetric_witness :
  DateDiffCalculator.out parseFloat "86400000" "86400000"
  = Some {| DateDiffCalculator.days := zero; DateDiffCalculator.weeks := zero |}.
Proof.
  exact (proj2 (date_diff_symmetric parseFloat "86400000" "86400000") eq_refl).
Defined.

(** ** Age *)

Lemma last_day_before_bounds (y m : Z) :
  28 <= AgeCalculator.last_day_before y m <= 31.
Proof.
  unfold AgeCalculator.last_day_before, AgeCalculator.days_in_month.
  repeat match goal with
         | |- context [if ?c then _ else _] => destruct c
         end; lia.
Qed.

(** X14. For a valid birth date, with months from 0 to 11 and days of the
    month from 1 to 31: the months of the age are between 0 and 11; years
    and months together are the months between the two dates, less one
    when the day of the month of the birth date has not been reached; the
    days are between -2 and 30, and they are not negative when the birth
    date is at most the 28th. *)
Theorem age_invariants (d now : AgeCalculator.fields) :
  0 <= AgeCalculator.month d <= 11 -> 0 <= AgeCalculator.month now <= 11 ->
  1 <= AgeCalculator.date d <= 31 -> 1 <= AgeCalculator.date now <= 31 ->
  exists r : AgeCalculator.result,
    AgeCalculator.diff (Some d) now = Some r
    /\ 0 <= AgeCalculator.months r <= 11
    /\ 12 * AgeCalculator.years r + AgeCalculator.months r
       = 12 * (AgeCalculator.year now - AgeCalculator.year d)
         + (AgeCalculator.month now - AgeCalculator.month d)
         - (if AgeCalculator.date now <? AgeCalculator.date d then 1 else 0)
    /\ -2 <= AgeCalculator.days r <= 30
    /\ (AgeCalculator.date d <= 28 -> 0 <= AgeCalculator.days r).
Proof.
  intros Hmd Hmn Hdd Hdn.
  pose proof (last_day_before_bounds (AgeCalculator.year now)
                (AgeCalculator.month now)) as Hl.
  unfold AgeCalculator.diff.
  destruct (AgeCalculator.date now - AgeCalculator.date d <? 0) eqn:Ed.
  - apply Z.ltb_lt in Ed.
    replace (AgeCalculator.date now <? AgeCalculator.date d) with true
      by (symmetry; apply Z.ltb_lt; lia).
    destruct (AgeCalculator.month now - AgeCalculator.month d - 1 <? 0) eqn:Em;
      [apply Z.ltb_lt in Em | apply Z.ltb_ge in Em];
      eexists; (split; [reflexivity|]);
      cbn [AgeCalculator.years AgeCalculator.months AgeCalculator.days];
      repeat split; lia.
  - apply Z.ltb_ge in Ed.
    replace (AgeCalculator.date now <? AgeCalculator.date d) with false
      by (symmetry; apply Z.ltb_ge; lia).
    destruct (AgeCalculator.month now - AgeCalculator.month d <? 0) eqn:Em;
      [apply Z.ltb_lt in Em | apply Z.ltb_ge in Em];
      eexists; (split; [reflexivity|]);
      cbn [AgeCalculator.years AgeCalculator.months AgeCalculator.days];
      repeat split; lia.
Qed.

Lemma age_invariants_witness :
  exists r : AgeCalculator.result,
    AgeCalculator.diff
      (Some {| AgeCalculator.year := 1995; AgeCalculator.month := 0;
               AgeCalculator.date := 31 |})
      {| AgeCalculator.year := 2026; AgeCalculator.month := 2;
         AgeCalculator.date := 1 |} = Some r
    /\ AgeCalculator.days r = -2.
Proof.
  destruct (age_invariants
              {| AgeCalculator.year := 1995; AgeCalculator.month := 0;
                 AgeCalculator.date := 31 |}
              {| AgeCalculator.year := 2026; AgeCalculator.month := 2;
                 AgeCalculator.date := 1 |})
    as (r & Hr & _); cbn; try lia.
  exists r. split; [exact Hr|].
  cbn in Hr. injection Hr as <-. reflexivity.
Defined.


(** ** Temperature *)

Local Ltac scale_cases H :=
  simpl in H; repeat (destruct H as [H|H]; [subst|]); [..|contradiction H].

Local Ltac temperature_arith :=
  cbv [TemperatureConverter.to_celsius TemperatureConverter.from_celsius
       plus minus times over literal int dec exact];
  cbn [String.eqb Ascii.eqb Bool.eqb Z.leb Z.compare Z.opp];
  repeat match goal with
         | |- context [Z.to_pos ?z] =>
             let p := eval vm_compute in (Z.to_pos z) in
             change (Z.to_pos z) with p
         | |- context [inject_Z ?z] =>
             let q := eval vm_compute in (inject_Z z) in
             change (inject_Z z) with q
         end.

(** X6. In exact arithmetic, converting a temperature from a scale to
    itself returns it, and converting through an intermediate scale gives
    the same as converting directly; so converting there and back returns
    the temperature. *)
Theorem temperature_exact (A B C : string) (x : Q) :
  List.In A scales -> List.In B scales -> List.In C scales ->
  exists y z w : Q,
    TemperatureConverter.from_celsius (TemperatureConverter.to_celsius x A) B = Some y
    /\ TemperatureConverter.from_celsius (TemperatureConverter.to_celsius y B) C = Some z
    /\ TemperatureConverter.from_celsius (TemperatureConverter.to_celsius x A) C = Some w
    /\ Qeq z w
    /\ (C = A -> Qeq z x).
Proof.
  intros HA HB HC.
  scale_cases HA; scale_cases HB; scale_cases HC;
    do 3 eexists;
    (split; [reflexivity|]); (split; [reflexivity|]); (split; [reflexivity|]);
    (split; [|intros E; try discriminate E]);
    temperature_arith; try (field; discriminate); try reflexivity.
Qed.

Lemma temperature_exact_witness :
  exists y z w : Q,
    TemperatureConverter.from_celsius (TemperatureConverter.to_celsius (25 # 1) "Celsius") "Fahrenheit" = Some y
    /\ TemperatureConverter.from_celsius (TemperatureConverter.to_celsius y "Fahrenheit") "Celsius" = Some z
    /\ TemperatureConverter.from_celsius (TemperatureConverter.to_celsius (25 # 1) "Celsius") "Celsius" = Some w
    /\ Qeq z w
    /\ ("Celsius" = "Celsius" -> Qeq z (25 # 1)).
Proof.
  apply (temperature_exact "Celsius" "Fahrenheit" "Celsius" (25 # 1));
    simpl; tauto.
Defined.

Lemma add_finite_not_nan (x y : number) :
  isNaN x = false -> isFinite y = true -> isNaN (JS.add x y) = false.
Proof.
  intros Hx Hy.
  destruct (isFinite x) eqn:Ex.
  - pose proof (add_not_nan x y Ex Hy) as H.
    destruct (JS.add x y); try reflexivity. now contradiction H.
  - destruct x as [|sx| |]; try discriminate.
    destruct y; try discriminate Hy; reflexivity.
Qed.

Lemma sub_finite_not_nan (x y : number) :
  isNaN x = false -> isFinite y = true -> isNaN (JS.sub x y) = false.
Proof.
  intros Hx Hy.
  destruct (isFinite x) eqn:Ex.
  - pose proof (sub_not_nan x y Ex Hy) as H.
    destruct (JS.sub x y); try reflexivity. now contradiction H.
  - destruct x as [|sx| |]; try discriminate.
    destruct y; try discriminate Hy; reflexivity.
Qed.

Lemma mul_nonzero_not_nan (x y : number) (s : bool) (m : positive) (e : Z) :
  isNaN x = false -> y = S754_finite s m e -> isNaN (JS.mul x y) = false.
Proof.
  intros Hx ->.
  destruct (isFinite x) eqn:Ex.
  - pose proof (mul_not_nan x (S754_finite s m e) Ex eq_refl) as H.
    destruct (JS.mul x _); try reflexivity. now contradiction H.
  - destruct x as [|sx| |]; try discriminate. reflexivity.
Qed.

Lemma div_nonzero_not_nan (x y : number) (s : bool) (m : positive) (e : Z) :
  isNaN x = false -> y = S754_finite s m e -> isNaN (JS.div x y) = false.
Proof.
  intros Hx ->.
  destruct (isFinite x) eqn:Ex.
  - assert (Hz : strict_eq (S754_finite s m e) zero = false)
      by (destruct s; reflexivity).
    pose proof (div_not_nan x (S754_finite s m e) Ex eq_refl Hz) as H.
    destruct (JS.div x _); try reflexivity. now contradiction H.
  - destruct x as [|sx| |]; try discriminate. reflexivity.
Qed.

Lemma temperature_literals :
  (exists m e, int (N := number) 32 = S754_finite false m e)
  /\ (exists m e, int (N := number) 5 = S754_finite false m e)
  /\ (exists m e, int (N := number) 9 = S754_finite false m e)
  /\ (exists m e, dec (N := number) 27315 (-2) = S754_finite false m e).
Proof. repeat split; do 2 eexists; vm_compute; reflexivity. Qed.

Lemma finite_not_nan (x : number) : isFinite x = true -> isNaN x = false.
Proof. destruct x; try discriminate; reflexivity. Qed.

(** The temperature in Celsius is never [NaN]. *)
Lemma to_celsius_not_nan (x : number) (f : string) :
  isFinite x = true -> isNaN (TemperatureConverter.to_celsius x f) = false.
Proof.
  intros Hx. unfold TemperatureConverter.to_celsius.
  destruct temperature_literals
    as ((m32 & e32 & H32) & (m5 & e5 & H5) & (m9 & e9 & H9) & (mk & ek & Hk)).
  destruct (String.eqb f "Kelvin").
  - apply sub_finite_not_nan; [now apply finite_not_nan | now rewrite Hk].
  - destruct (String.eqb f "Fahrenheit"); [|now apply finite_not_nan].
    eapply div_nonzero_not_nan; [|exact H9].
    eapply mul_nonzero_not_nan; [|exact H5].
    apply sub_finite_not_nan; [now apply finite_not_nan | now rewrite H32].
Qed.

(** X7. On binary64 the temperature converter answers [NaN] exactly when
    the target scale is not one of the three, whatever the input and the
    source scale; and a source scale that is neither Fahrenheit nor Kelvin
    is read as Celsius. *)
Theorem temperature_unknown_scales (v : value) (f t : string) :
  (isNaN (TemperatureConverter.convert v f t) = true <-> ~ List.In t scales)
  /\ (f <> "Fahrenheit" -> f <> "Kelvin" ->
      TemperatureConverter.convert v f t = TemperatureConverter.convert v "Celsius" t).
Proof.
  split.
  - unfold TemperatureConverter.convert, TemperatureConverter.from_celsius.
    pose proof (to_celsius_not_nan (toNum v zero) f (toNum_zero_finite v)) as Hc.
    set (c := TemperatureConverter.to_celsius (toNum v zero) f) in *.
    destruct temperature_literals
      as ((m32 & e32 & H32) & (m5 & e5 & H5) & (m9 & e9 & H9) & (mk & ek & Hk)).
    unfold scales; cbn [List.In].
    destruct (String.eqb_spec t "Celsius") as [->|Hn1]; cbv beta iota.
    { rewrite Hc. split; [discriminate | tauto]. }
    destruct (String.eqb_spec t "Fahrenheit") as [->|Hn2]; cbv beta iota.
    { rewrite add_finite_not_nan; [split; [discriminate | tauto] | | now rewrite H32].
      eapply div_nonzero_not_nan; [|exact H5].
      eapply mul_nonzero_not_nan; [exact Hc | exact H9]. }
    destruct (String.eqb_spec t "Kelvin") as [->|Hn3]; cbv beta iota.
    { rewrite add_finite_not_nan; [split; [discriminate | tauto] | exact Hc | now rewrite Hk]. }
    split; [|reflexivity]. intros _ [H|[H|[H|[]]]]; congruence.
  - unfold TemperatureConverter.convert, TemperatureConverter.to_celsius.
    intros HF HK.
    destruct (String.eqb_spec f "Fahrenheit") as [->|_]; [contradiction|].
    destruct (String.eqb_spec f "Kelvin") as [->|_]; [contradiction|].
    reflexivity.
Qed.

Lemma temperature_unknown_scales_witness :
  TemperatureConverter.convert (JString "25") "Rankine" "Kelvin"
  = TemperatureConverter.convert (JString "25") "Celsius" "Kelvin".
Proof.
  apply (proj2 (temperature_unknown_scales (JString "25") "Rankine" "Kelvin"));
    discriminate.
Defined.

(** ** Converters through an intermediate unit *)

(** X8. In exact arithmetic, in each of the five domains, converting from
    one listed unit to a second and from there to a third gives the same
    as converting from the first to the third. *)
Theorem convert_composes (d : domain) (from mid to : string) (x : Q) :
  List.In from (List.map Unit.id (units_of (N := Q) d)) ->
  List.In mid (List.map Unit.id (units_of (N := Q) d)) ->
  List.In to (List.map Unit.id (units_of (N := Q) d)) ->
  exists y z w : Q,
    convert d x from mid = Some y
    /\ convert d y mid to = Some z
    /\ convert d x from to = Some w
    /\ Qeq z w.
Proof.
  intros Hfrom Hmid Hto.
  destruct (find_listed _ _ Hfrom) as [f Hf].
  destruct (find_listed _ _ Hmid) as [m Hm].
  destruct (find_listed _ _ Hto) as [t Ht].
  unfold convert. rewrite Hf, Hm, Ht.
  do 3 eexists. do 3 (split; [reflexivity|]).
  apply find_known in Hm. apply find_known in Ht.
  destruct Hm as [Hm _], Ht as [Ht _].
  apply (unit_functions_proper d t _ _ Ht).
  apply (unit_round_trip_exact d m _ Hm).
Qed.

Lemma convert_composes_witness :
  exists y z w : Q,
    convert Length (1 # 1) "km" "ft" = Some y
    /\ convert Length y "ft" "inch" = Some z
    /\ convert Length (1 # 1) "km" "inch" = Some w
    /\ Qeq z w.
Proof.
  apply (convert_composes Length "km" "ft" "inch" (1 # 1)); simpl; tauto.
Defined.

(** ** The shell: filter and selection together *)

Lemma filtered_incl (query : string) (c : Entry.t) :
  List.In c (WorldCalcHub.filtered query) -> List.In c CALC_REGISTRY.
Proof.
  unfold WorldCalcHub.filtered.
  destruct (negb _); [trivial|].
  intros H. apply List.filter_In in H. exact (proj1 H).
Qed.

Lemma registry_ids_distinct : List.NoDup (List.map Entry.id CALC_REGISTRY).
Proof.
  unfold CALC_REGISTRY. cbn [List.map Entry.id].
  repeat (apply List.NoDup_cons;
          [cbn [List.In]; intros H;
           repeat (destruct H as [H|H]; [discriminate H|]); exact H|]).
  apply List.NoDup_nil.
Qed.

Lemma filter_ids_distinct (f : Entry.t -> bool) (l : list Entry.t) :
  List.NoDup (List.map Entry.id l) ->
  List.NoDup (List.map Entry.id (List.filter f l)).
Proof.
  induction l as [|c l IH]; simpl; intros H; [exact H|].
  apply List.NoDup_cons_iff in H. destruct H as [Hn Hd].
  destruct (f c); simpl; [|now apply IH].
  apply List.NoDup_cons; [|now apply IH].
  intros Hin. apply Hn.
  apply List.in_map_iff in Hin. destruct Hin as (c' & Hid & Hc').
  apply List.filter_In in Hc'. destruct Hc' as [Hc' _].
  rewrite <- Hid. now apply List.in_map.
Qed.

(** X15. For every query and every active id, the shell displays an entry
    of the registry; when the filter leaves some entries, the displayed
    entry is one of them, and it is the one with the active id when that
    id is among them.  The ids of the listed entries are distinct. *)
Theorem displayed_entry_listed (query active : string) :
  List.NoDup (List.map Entry.id (WorldCalcHub.filtered query))
  /\ exists c : Entry.t,
       WorldCalcHub.current (WorldCalcHub.filtered query) active = Some c
       /\ List.In c CALC_REGISTRY
       /\ (WorldCalcHub.filtered query <> [] ->
           List.In c (WorldCalcHub.filtered query))
       /\ (List.In active (List.map Entry.id (WorldCalcHub.filtered query)) ->
           Entry.id c = active).
Proof.
  split.
  - unfold WorldCalcHub.filtered.
    destruct (negb _); [apply registry_ids_distinct|].
    apply filter_ids_distinct, registry_ids_distinct.
  - set (l := WorldCalcHub.filtered query).
    assert (Hl : forall c, List.In c l -> List.In c CALC_REGISTRY)
      by (intros c; apply filtered_incl).
    unfold WorldCalcHub.current.
    destruct (List.find (fun c => String.eqb (Entry.id c) active) l) as [c|] eqn:Ef.
    + apply List.find_some in Ef. destruct Ef as [Hin Hid].
      exists c. repeat split; auto. intros _. now apply String.eqb_eq.
    + destruct l as [|c l'] eqn:El.
      * eexists. split; [reflexivity|]. split; [now left|].
        split; [congruence|]. intros [].
      * exists c. split; [reflexivity|]. split; [apply Hl; now left|].
        split; [intros _; now left|].
        intros Hin. exfalso.
        apply List.in_map_iff in Hin. destruct Hin as (c' & Hid & Hc').
        apply (List.find_none _ _ Ef) in Hc'.
        apply String.eqb_neq in Hc'. contradiction.
Qed.

Lemma displayed_entry_listed_witness :
  exists c : Entry.t,
    WorldCalcHub.current (WorldCalcHub.filtered "loan") "basic" = Some c
    /\ List.In c (WorldCalcHub.filtered "loan").
Proof.
  destruct (proj2 (displayed_entry_listed "loan" "basic"))
    as (c & Hc & _ & Hin & _).
  exists c. split; [exact Hc|]. apply Hin. vm_compute. discriminate.
Defined.

Lemma occurs_in_trans (a b c : string) :
  occurs_in a b -> occurs_in b c -> occurs_in a c.
Proof.
  intros (x & y & ->) (x' & y' & ->).
  exists (x' ++ x)%string, (y ++ y')%string.
  now rewrite !string_app_assoc.
Qed.

Lemma occurs_in_empty (a : string) :
  occurs_in a EmptyString -> a = EmptyString.
Proof.
  intros (x & y & H). destruct x; [|discriminate H].
  destruct a; [reflexivity | discriminate H].
Qed.

(** X16. Typing more never adds results: when the folded query [q1] occurs
    in the folded query [q2], every entry the filter returns for [q2] is
    among those it returns for [q1]. *)
Theorem longer_query_narrows (q1 q2 : string) :
  occurs_in (folded q1) (folded q2) ->
  forall c : Entry.t,
    List.In c (WorldCalcHub.filtered q2) -> List.In c (WorldCalcHub.filtered q1).
Proof.
  intros Hocc c Hc.
  pose proof (filtered_incl q2 c Hc) as Hreg.
  rewrite filtered_unfold in Hc |- *.
  destruct (truthy (folded q1)) eqn:E1; [|exact Hreg].
  destruct (truthy (folded q2)) eqn:E2.
  - apply List.filter_In in Hc. destruct Hc as [_ Hm].
    apply List.filter_In. split; [exact Hreg|].
    unfold WorldCalcHub.matches in *.
    apply orb_true_iff in Hm. apply orb_true_iff.
    destruct Hm as [Hm|Hm]; [left|right];
      apply includes_spec; apply includes_spec in Hm;
      now apply (occurs_in_trans _ (folded q2)).
  - apply truthy_false in E2. rewrite E2 in Hocc.
    apply occurs_in_empty in Hocc. rewrite Hocc in E1. discriminate.
Qed.

Lemma longer_query_narrows_witness :
  List.In {| Entry.id := "emi"; Entry.title := "EMI";
             Entry.keywords := "loan monthly payment interest";
             Entry.el := EMI_el |}
    (WorldCalcHub.filtered "In").
Proof.
  apply (longer_query_narrows "In" " interest ").
  - exists EmptyString, "terest". vm_compute. reflexivity.
  - vm_compute. left. reflexivity.
Defined.

(** ** Base converter: there and back *)

Lemma out_exact_digits (E : engine) (val : string) (from to : Z) (z : Z) :
  2 <= to <= 36 ->
  parseInt_math val from = Some (false, z) -> z <= MAX_EXACT ->
  BaseConverter.out E val from to = toUpperCase (to_digits to z).
Proof.
  intros Hto Hp Hz.
  pose proof (parseInt_math_nonneg val from false z Hp) as Hz0.
  unfold BaseConverter.out, parseInt. rewrite Hp.
  destruct (z =? 0) eqn:E0.
  - apply Z.eqb_eq in E0. subst z. reflexivity.
  - apply Z.eqb_neq in E0.
    rewrite rounds_exactly_small by exact Hz.
    now rewrite (of_Z_not_nan false), (toString_exact E false) by lia.
Qed.

(** X17. For bases among 2, 8, 10, 16 and 36 and a value made only of
    digits that denotes an integer up to 2^53: converting the output back
    to the first base gives the numeral of the value in that base, which is
    what converting the value to its own base gives; that numeral denotes
    the same integer.  No engine is asked in this range. *)
Theorem base_round_trip (E : engine) (val : string) (from to : Z) (z : Z) :
  List.In from BaseConverter.bases -> List.In to BaseConverter.bases ->
  reads_as from val z -> z <= MAX_EXACT ->
  BaseConverter.out E (BaseConverter.out E val from to) to from
  = BaseConverter.out E val from from
  /\ reads_as from (BaseConverter.out E val from from) z.
Proof.
  intros Hfrom Hto Hr Hz.
  apply bases_range in Hfrom. apply bases_range in Hto.
  pose proof (parseInt_math_numeral val from z Hfrom Hr) as Hp.
  pose proof (parseInt_math_nonneg val from false z Hp) as Hz0.
  rewrite (out_exact_digits E val from to z Hto Hp Hz).
  rewrite (out_exact_digits E val from from z Hfrom Hp Hz).
  destruct (to_digits_numeral to z Hto Hz0) as (Hrd & Hne & _).
  destruct (to_digits_numeral from z Hfrom Hz0) as (Hrd' & Hne' & _).
  split; [|now split].
  apply out_exact_digits; [exact Hfrom| |exact Hz].
  apply parseInt_math_numeral; [exact Hto | now split].
Qed.

Lemma base_round_trip_witness :
  BaseConverter.out idle_engine (BaseConverter.out idle_engine "00ff" 16 2) 2 16
  = BaseConverter.out idle_engine "00ff" 16 16
  /\ reads_as 16 (BaseConverter.out idle_engine "00ff" 16 16) 255.
Proof.
  apply (base_round_trip idle_engine "00ff" 16 2 255).
  - simpl. tauto.
  - simpl. tauto.
  - split; [discriminate | reflexivity].
  - discriminate.
Defined.

(** ** Whole numbers *)

Lemma Math_round_integer (x : number) :
  isFinite (Math_round x) = true -> is_integer (Math_round x) = true.
Proof.
  destruct x as [s|s| |s m e]; try discriminate; [reflexivity|].
  unfold Math_round.
  destruct (0 <=? e) eqn:E; [intros _; cbn [is_integer]; now rewrite E|].
  match goal with |- context [if ?c then _ else _] => destruct c end;
    [reflexivity | apply of_Z_integer].
Qed.

(** The sign given to the rounding is the sign of the result. *)
Lemma binary_round_aux_sign (s : bool) (mx ex : Z) (lx : location) :
  match binary_round_aux prec emax s mx ex lx with
  | S754_zero s' | S754_infinity s' | S754_finite s' _ _ => s' = s
  | S754_nan => True
  end.
Proof.
  unfold binary_round_aux.
  destruct (shr_fexp prec emax mx ex lx) as [mrs' e'].
  destruct (shr_fexp prec emax _ e' loc_Exact) as [mrs'' e''].
  destruct (shr_m mrs''); try reflexivity.
  destruct (e'' <=? emax - prec); reflexivity.
Qed.

Lemma div_nonnegative (x y : number) (m : positive) (e : Z) :
  nonnegative x = true -> y = S754_finite false m e ->
  isNaN (JS.div x y) = false -> nonnegative (JS.div x y) = true.
Proof.
  intros Hx -> Hn.
  destruct x as [[]|[]| |[] mx ex]; try discriminate Hx; try reflexivity.
  unfold JS.div, SFdiv in *.
  destruct (SFdiv_core_binary prec emax (Z.pos mx) ex (Z.pos m) e) as [[mz ez] lz].
  pose proof (binary_round_aux_sign (xorb false false) mz ez lz) as Hs.
  destruct (binary_round_aux prec emax (xorb false false) mz ez lz);
    try discriminate Hn; now subst.
Qed.

Lemma Math_floor_whole (x : number) :
  nonnegative x = true -> isFinite (Math_floor x) = true ->
  is_integer (Math_floor x) = true /\ lt (Math_floor x) zero = false.
Proof.
  destruct x as [[]|[]| |[] m e]; try discriminate; intros _;
    try (split; reflexivity).
  unfold Math_floor.
  destruct (0 <=? e) eqn:E.
  { intros _. split; [cbn [is_integer]; now rewrite E | reflexivity]. }
  destruct (Z.pos m / 2 ^ (- e) =? 0) eqn:Er; [split; reflexivity|].
  intros Hf. split; [now apply of_Z_integer|].
  apply Z.eqb_neq in Er.
  assert (Hr : 0 < Z.pos m / 2 ^ (- e)).
  { assert (0 <= Z.pos m / 2 ^ (- e)); [|lia].
    apply Z.div_pos; [lia|]. apply Z.pow_pos_nonneg; lia. }
  unfold of_Z, binary_normalize in *.
  destruct (Z.pos m / 2 ^ (- e)) as [|p|p]; try lia.
  unfold binary_round in *.
  destruct (shl_align p 0 _) as [mz ez].
  pose proof (binary_round_aux_sign false (Z.pos mz) ez loc_Exact) as Hs.
  destruct (binary_round_aux prec emax false (Z.pos mz) ez loc_Exact);
    try discriminate Hf; now subst.
Qed.

Lemma day_length :
  exists m e, (int 1000 * int 60 * int 60 * int 24)%num = S754_finite false m e.
Proof. do 2 eexists. vm_compute. reflexivity. Qed.

(** X18. When the date difference is defined and its number of days is
    finite, the days are a whole number and not negative. *)
Theorem date_diff_days_whole (Date_time : string -> number) (a b : string)
    (r : DateDiffCalculator.result) :
  DateDiffCalculator.out Date_time a b = Some r ->
  isFinite (DateDiffCalculator.days r) = true ->
  is_integer (DateDiffCalculator.days r) = true
  /\ lt (DateDiffCalculator.days r) zero = false.
Proof.
  unfold DateDiffCalculator.out.
  destruct day_length as (m & e & Hd).
  remember (int 1000 * int 60 * int 60 * int 24)%num as day eqn:Eday.
  remember (Math_abs (Date_time b - Date_time a)%num) as ms eqn:Ems.
  destruct (isNaN (Date_time a) || isNaN (Date_time b)); [discriminate|].
  intros H. injection H as <-.
  change (isFinite (Math_floor (JS.div ms day)) = true ->
          is_integer (Math_floor (JS.div ms day)) = true
          /\ lt (Math_floor (JS.div ms day)) zero = false).
  intros Hf.
  apply Math_floor_whole; [|exact Hf].
  assert (Hq : isNaN (JS.div ms day) = false).
  { destruct (JS.div ms day); try reflexivity. discriminate Hf. }
  apply (div_nonnegative ms day m e); [|exact Hd|exact Hq].
  rewrite Ems. unfold Math_abs.
  destruct (Date_time b - Date_time a)%num eqn:Es; try reflexivity.
  exfalso. rewrite Ems in Hq. discriminate Hq.
Qed.

Lemma date_diff_days_whole_witness :
  is_integer (Math_floor (JS.div (of_Z 129600000) (of_Z 86400000))) = true
  /\ lt (Math_floor (JS.div (of_Z 129600000) (of_Z 86400000))) zero = false.
Proof.
  exact (date_diff_days_whole parseFloat "0" "129600000" _ eq_refl eq_refl).
Defined.

(** X19. The months of a loan and the compounding periods of an
    investment, both rounded by the code, are whole numbers whenever they
    are finite. *)
Theorem rounded_counts_whole (t n : value) (tenureType : string) :
  (isFinite (EMI.months_of t tenureType) = true ->
   is_integer (EMI.months_of t tenureType) = true)
  /\ (isFinite (CompoundInterest.periods n) = true ->
      is_integer (CompoundInterest.periods n) = true).
Proof.
  split.
  - unfold EMI.months_of.
    destruct (String.eqb tenureType "Years"); apply Math_round_integer.
  - unfold CompoundInterest.periods. intros Hf.
    pose proof (Math_round_not_nan (toNum n zero) (toNum_zero_finite n)) as Hr.
    assert (H1 : isNaN (int 1) = false) by reflexivity.
    destruct (max_cases (int 1) _ H1 Hr) as [[E _]|[[E _]|[E _]]];
      rewrite E in *; try reflexivity; now apply Math_round_integer.
Qed.

Lemma rounded_counts_whole_witness :
  is_integer (EMI.months_of (JString "1.4") "Years") = true.
Proof.
  exact (proj1 (rounded_counts_whole (JString "1.4") (JString "") "Years") eq_refl).
Defined.
